(** * Smartspend: the derived-analytics engine

    A shallow embedding of the analytics of the Smartspend grocery tracker
    (settlement, replenishment prediction, store optimisation, search and
    the bill-level discount of the expense form), with the properties of
    its specification stated and settled against it; then of the code
    around them (the handlers of the application state, the owner toggle,
    the detail views, the charts of the dashboard, the list of expenses),
    with further properties read off the code.

    Numbers.  A JavaScript [number] is modelled as an exact rational or one
    of the three non-finite values; binary rounding and the sign of zero
    are not modelled.  Where a result turns on how a half cent is rounded
    or on which of two equal averages is met first, the properties are
    stated as bounds and alternatives that hold either way.  Amounts of
    expenses are finite.  Timestamps are integers (milliseconds): dates
    are valid, and the parser of dates is a parameter of the analytics
    that read them.

    Strings.  A string is a sequence of bytes; [toLowerCase] acts on the
    ASCII letters and [trim] removes the ASCII white space.  The
    properties that turn on letter case or on white space are stated for
    ASCII texts, in a vocabulary of their own ([Words]) that is related to
    the functions of the code by proof.

    Objects used as dictionaries.  [Record<string, _>] is modelled as a
    finite map where only lookups and totals are observed, and as an
    association list in insertion order where the order of
    [Object.keys]/[Object.values]/[Object.entries] reaches the output; the
    keys are then listed by [entries], the array indices first, in
    ascending order, as JavaScript does.  Keys are taken not to be
    members of [Object.prototype]. *)

From Stdlib Require Import Ascii String QArith Qcanon Qround Lqa Permutation Sorted.
From stdpp Require Import base numbers strings list sorting gmap.

Open Scope Z_scope.

(* ===================================================================== *)
(** * Definitions *)
(* ===================================================================== *)

(** ** JavaScript numbers *)

Module JsNumber.

Inductive number : Type :=
| Fin (q : Qc)
| PosInf
| NegInf
| NaN.

Global Instance number_eq_dec : EqDecision number.
Proof. solve_decision. Defined.

Definition Qc_of_Z (z : Z) : Qc := Q2Qc (inject_Z z).
Definition Qc_of_nat (n : nat) : Qc := Qc_of_Z (Z.of_nat n).

Definition of_Z (z : Z) : number := Fin (Qc_of_Z z).
Definition of_nat (n : nat) : number := Fin (Qc_of_nat n).

Definition isFinite (a : number) : bool :=
  match a with Fin _ => true | _ => false end.

(** [a + b] *)
Definition nadd (a b : number) : number :=
  match a, b with
  | NaN, _ | _, NaN => NaN
  | Fin x, Fin y => Fin (x + y)%Qc
  | PosInf, NegInf | NegInf, PosInf => NaN
  | PosInf, _ | _, PosInf => PosInf
  | NegInf, _ | _, NegInf => NegInf
  end.

(** [-a] *)
Definition nneg (a : number) : number :=
  match a with
  | Fin x => Fin (- x)%Qc
  | PosInf => NegInf
  | NegInf => PosInf
  | NaN => NaN
  end.

(** [a - b] *)
Definition nsub (a b : number) : number := nadd a (nneg b).

(** The sign of an infinite product or quotient whose other operand is the
    finite [y] (a zero [y] counts as positive: every zero divisor of the
    program is a length, a count or a sum, never a negated value). *)
Definition signed (positive : bool) (y : Qc) : number :=
  if bool_decide (0 <= y)%Qc
  then (if positive then PosInf else NegInf)
  else (if positive then NegInf else PosInf).

(** [a * b] *)
Definition nmul (a b : number) : number :=
  match a, b with
  | NaN, _ | _, NaN => NaN
  | Fin x, Fin y => Fin (x * y)%Qc
  | Fin x, PosInf | PosInf, Fin x =>
      if bool_decide (x = 0%Qc) then NaN else signed true x
  | Fin x, NegInf | NegInf, Fin x =>
      if bool_decide (x = 0%Qc) then NaN else signed false x
  | PosInf, PosInf | NegInf, NegInf => PosInf
  | PosInf, NegInf | NegInf, PosInf => NegInf
  end.

(** [a / b] *)
Definition ndiv (a b : number) : number :=
  match a, b with
  | NaN, _ | _, NaN => NaN
  | Fin x, Fin y =>
      if bool_decide (y = 0%Qc)
      then (if bool_decide (x = 0%Qc) then NaN
            else if bool_decide (0 < x)%Qc then PosInf else NegInf)
      else Fin (x / y)%Qc
  | Fin _, _ => Fin 0%Qc
  | PosInf, Fin y => signed true y
  | NegInf, Fin y => signed false y
  | _, _ => NaN
  end.

(** [a < b] and [a > b]: false as soon as an operand is [NaN]. *)
Definition nlt (a b : number) : bool :=
  match a, b with
  | NaN, _ | _, NaN => false
  | Fin x, Fin y => bool_decide (x < y)%Qc
  | NegInf, NegInf | PosInf, _ => false
  | NegInf, _ | _, PosInf => true
  | _, NegInf => false
  end.

Definition ngt (a b : number) : bool := nlt b a.

(** [Math.max(a, b)] *)
Definition Math_max (a b : number) : number :=
  match a, b with
  | NaN, _ | _, NaN => NaN
  | _, _ => if nlt a b then b else a
  end.

(** [a || 0] on numbers: [NaN] and zero are falsy. *)
Definition or_zero (a : number) : number :=
  match a with
  | NaN => Fin 0%Qc
  | _ => a
  end.

(** [Math.round] on a rational: ties go up.  ([Math.floor] of a quotient
    of integers is the floor division of [Z].) *)
Definition Math_round (q : Qc) : Z := Qfloor (q + Q2Qc (1 # 2))%Qc.

(** [parseFloat(a.toFixed(2))] on a rational: the nearest multiple of
    1/100, a tie going away from zero ([toFixed] rounds the magnitude and
    picks the larger candidate). *)
Definition round_cents (q : Qc) : Qc :=
  if bool_decide (0 <= q)%Qc
  then (Qc_of_Z (Math_round (q * Qc_of_Z 100)%Qc) / Qc_of_Z 100)%Qc
  else (- (Qc_of_Z (Math_round (- q * Qc_of_Z 100)%Qc) / Qc_of_Z 100))%Qc.

Definition toFixed2 (a : number) : number :=
  match a with
  | Fin q => Fin (round_cents q)
  | _ => a
  end.

(** The sum of a list, from the left, starting at zero. *)
Definition nsum (l : list number) : number :=
  fold_left nadd l (Fin 0%Qc).
Global Arguments nsum : simpl never.

(** [a] added [n] times. *)
Definition ntimes (n : nat) (a : number) : number := nsum (repeat a n).

(** The same sum on rationals. *)
Fixpoint Qcsum (l : list Qc) : Qc :=
  match l with
  | [] => 0%Qc
  | q :: l' => (q + Qcsum l')%Qc
  end.

(** *** Amounts, in the words of the specification *)

(** [r] is a whole number of cents. *)
Definition whole_cents (r : Qc) : Prop :=
  exists n : Z, r = (Qc_of_Z n / Qc_of_Z 100)%Qc.

(** [r] is [x] to the nearest cent: a whole number of cents, half a cent
    away from [x] at most. *)
Definition nearest_cent (x r : Qc) : Prop :=
  whole_cents r /\ (x - Q2Qc (1 # 200) <= r)%Qc /\ (r <= x + Q2Qc (1 # 200))%Qc.

End JsNumber.
Export JsNumber.

(** ** Strings *)

Module JsString.

Definition is_upper (a : ascii) : bool :=
  let n := nat_of_ascii a in (65 <=? n)%nat && (n <=? 90)%nat.

Definition lower_ascii (a : ascii) : ascii :=
  if is_upper a then ascii_of_nat (nat_of_ascii a + 32) else a.

(** [s.toLowerCase()], on the ASCII letters. *)
Fixpoint toLowerCase (s : string) : string :=
  match s with
  | EmptyString => EmptyString
  | String a r => String (lower_ascii a) (toLowerCase r)
  end.

(** Tab, line feed, vertical tab, form feed, carriage return, space. *)
Definition is_white (a : ascii) : bool :=
  let n := nat_of_ascii a in
  ((9 <=? n)%nat && (n <=? 13)%nat) || (n =? 32)%nat.

Fixpoint trimStart (s : string) : string :=
  match s with
  | EmptyString => EmptyString
  | String a r => if is_white a then trimStart r else s
  end.

(** Drops the white space at the end: a character is kept when it is not
    white or something is kept after it. *)
Fixpoint trimEnd (s : string) : string :=
  match s with
  | EmptyString => EmptyString
  | String a r =>
      match trimEnd r with
      | EmptyString => if is_white a then EmptyString else String a EmptyString
      | r' => String a r'
      end
  end.

(** [s.trim()] *)
Definition trim (s : string) : string := trimEnd (trimStart s).

Fixpoint startsWith (p s : string) : bool :=
  match p, s with
  | EmptyString, _ => true
  | String a p', String b s' => bool_decide (a = b) && startsWith p' s'
  | String _ _, EmptyString => false
  end.

(** [s.includes(p)] *)
Fixpoint includes (s p : string) : bool :=
  startsWith p s ||
  match s with
  | EmptyString => false
  | String _ s' => includes s' p
  end.

End JsString.
Export JsString.

(** ** Texts, in the words of the specification *)

Module Words.

(** The white space of an ASCII text: tab, line feed, vertical tab, form
    feed, carriage return and space. *)
Definition white (a : ascii) : Prop :=
  a ∈ ["009"%char; "010"%char; "011"%char; "012"%char; "013"%char; " "%char].

(** A text made of white space only (the empty text is one). *)
Fixpoint blank (s : string) : Prop :=
  match s with
  | EmptyString => True
  | String a r => white a /\ blank r
  end.

(** The lower-case letter of a capital letter; any other character is
    left as it is. *)
Definition lowerOf (a : ascii) : ascii :=
  match a with
  | "A" => "a" | "B" => "b" | "C" => "c" | "D" => "d" | "E" => "e"
  | "F" => "f" | "G" => "g" | "H" => "h" | "I" => "i" | "J" => "j"
  | "K" => "k" | "L" => "l" | "M" => "m" | "N" => "n" | "O" => "o"
  | "P" => "p" | "Q" => "q" | "R" => "r" | "S" => "s" | "T" => "t"
  | "U" => "u" | "V" => "v" | "W" => "w" | "X" => "x" | "Y" => "y"
  | "Z" => "z" | _ => a
  end%char.

(** A text in lower case. *)
Fixpoint folded (s : string) : string :=
  match s with
  | EmptyString => EmptyString
  | String a r => String (lowerOf a) (folded r)
  end.

(** [part] occurs somewhere in [text]. *)
Definition contains (text part : string) : Prop :=
  exists before after, text = before +:+ part +:+ after.

(** [part] occurs somewhere in [text], the letter case apart. *)
Definition mentions (text part : string) : Prop :=
  contains (folded text) (folded part).

Definition starts_white (s : string) : Prop :=
  match s with
  | EmptyString => False
  | String a _ => white a
  end.

Definition ends_white (s : string) : Prop :=
  exists r a, s = r +:+ String a EmptyString /\ white a.

(** [core] is [s] without the white space at its two ends. *)
Definition trimmed (s core : string) : Prop :=
  exists l r,
    s = l +:+ core +:+ r
    /\ blank l /\ blank r /\ ~ starts_white core /\ ~ ends_white core.

(** [k] is the key of an item described as [d]: [d] trimmed, in lower
    case. *)
Definition key_of (d k : string) : Prop :=
  exists core, trimmed d core /\ k = folded core.

(** An ASCII text: on these, [toLowerCase] and [trim] above are the
    functions of JavaScript. *)
Definition ascii_text (s : string) : bool :=
  forallb (fun a => (nat_of_ascii a <? 128)%nat) (list_ascii_of_string s).

End Words.
Export Words.

(** ** The data model ([types.ts]) *)

Record Expense : Type := mkExpense {
  id : string;
  description : string;
  amount : Qc;
  date : string;
  category : string;
  store : string;
  payer : string;
  owner : string;
  originalAmount : option Qc
}.

(** ** Settlement ([SplitAnalysis.tsx], [stats]) *)

Module SplitAnalysis.

Record Entry : Type := mkEntry { paid : number; consumed : number }.

Record Balance : Type := mkBalance {
  b_paid : number;
  b_consumed : number;
  net : number
}.

Global Instance Entry_eq_dec : EqDecision Entry.
Proof. solve_decision. Defined.

Global Instance Balance_eq_dec : EqDecision Balance.
Proof. solve_decision. Defined.

Definition zero : Entry := {| paid := Fin 0%Qc; consumed := Fin 0%Qc |}.

(** [if (!data[k]) data[k] = { paid: 0, consumed: 0 }] *)
Definition ensure (k : string) (data : gmap string Entry) : gmap string Entry :=
  match data !! k with
  | Some _ => data
  | None => <[k := zero]> data
  end.

Definition pay (a : number) (v : Entry) : Entry :=
  {| paid := nadd (paid v) a; consumed := consumed v |}.

Definition consume (a : number) (v : Entry) : Entry :=
  {| paid := paid v; consumed := nadd (consumed v) a |}.

(** [data[k].paid += a] (the entry is there: [ensure] ran just before) *)
Definition add_paid (k : string) (a : number) (data : gmap string Entry)
  : gmap string Entry :=
  alter (pay a) k data.

(** [if (data[k]) data[k].consumed += a] *)
Definition add_consumed (k : string) (a : number) (data : gmap string Entry)
  : gmap string Entry :=
  alter (consume a) k data.

(** [people.forEach(p => { data[p] = { paid: 0, consumed: 0 } })] *)
Definition init (people : list string) : gmap string Entry :=
  fold_left (fun data p => <[p := zero]> data) people ∅.

(** [e.amount / people.length] *)
Definition splitAmount (e : Expense) (people : list string) : number :=
  ndiv (Fin (amount e)) (of_nat (length people)).

(** The body of [expenses.forEach]. *)
Definition step (people : list string) (data : gmap string Entry) (e : Expense)
  : gmap string Entry :=
  let data1 := add_paid (payer e) (Fin (amount e)) (ensure (payer e) data) in
  if bool_decide (owner e = "Shared")
  then fold_left (fun d p => add_consumed p (splitAmount e people) d) people data1
  else add_consumed (owner e) (Fin (amount e)) (ensure (owner e) data1).

Definition collect (expenses : list Expense) (people : list string)
  : gmap string Entry :=
  fold_left (step people) expenses (init people).

Definition balance (e : Entry) : Balance :=
  {| b_paid := paid e; b_consumed := consumed e;
     net := nsub (paid e) (consumed e) |}.

Definition stats (expenses : list Expense) (people : list string)
  : gmap string Balance :=
  balance <$> collect expenses people.

(** The total of one column over all the entries of a dictionary
    ([Object.keys(stats)] and a running sum). *)
Definition total {A : Type} (f : A -> number) (m : gmap string A) : number :=
  nsum (map (fun kv => f (snd kv)) (map_to_list m)).

(** The total of the net balances of the participants in [people]: the
    entries of the result whose name is in the list. *)
Definition net_of_participants (people : list string) (result : gmap string Balance)
  : number :=
  total net (filter (fun kv => fst kv ∈ people) result).

(** The same total taken along the list: [stats[p].net] for [p] in
    [people], added up. *)
Definition net_along (people : list string) (result : gmap string Balance) : number :=
  nsum (map (fun p => from_option net (Fin 0%Qc) (result !! p)) people).

(** [Math.abs(x) < 0.01] *)
Definition settled (x : number) : bool :=
  match x with
  | Fin q => bool_decide (- Q2Qc (1 # 100) < q)%Qc && bool_decide (q < Q2Qc (1 # 100))%Qc
  | _ => false
  end.

(** *** The contract, in the words of the specification

    [settlement k]: what the specification promises for the name [k]. *)

(** The number of times [k] is listed among the participants. *)
Definition listed (k : string) (people : list string) : nat :=
  length (filter (fun p => p = k) people).

(** Everything [k] paid. *)
Definition paid_by (k : string) (expenses : list Expense) : Qc :=
  Qcsum (map amount (filter (fun e => payer e = k) expenses)).

(** What one expense adds to the consumption of [k]: its even share when
    the expense is shared and [k] is an active participant, the full
    amount when [k] owns it, nothing otherwise. *)
Definition share_of (k : string) (people : list string) (e : Expense) : number :=
  if bool_decide (owner e = "Shared")
  then ntimes (listed k people) (ndiv (Fin (amount e)) (of_nat (length people)))
  else if bool_decide (owner e = k) then Fin (amount e) else Fin 0%Qc.

Definition consumed_by (k : string) (people : list string) (expenses : list Expense)
  : number :=
  nsum (map (share_of k people) expenses).

(** [k] has an entry when it is a participant, a payer, or the owner of
    an expense that is not shared. *)
Definition names (e : Expense) (k : string) : Prop :=
  payer e = k \/ (owner e <> "Shared" /\ owner e = k).

Definition known (k : string) (expenses : list Expense) (people : list string) : Prop :=
  k ∈ people \/ Exists (fun e => names e k) expenses.

Global Instance names_dec e k : Decision (names e k).
Proof. unfold names. apply _. Defined.

Global Instance known_dec k expenses people : Decision (known k expenses people).
Proof. unfold known. apply _. Defined.

Definition settlement (expenses : list Expense) (people : list string) (k : string)
  : option Balance :=
  if decide (known k expenses people)
  then Some {| b_paid := Fin (paid_by k expenses);
               b_consumed := consumed_by k people expenses;
               net := nsub (Fin (paid_by k expenses)) (consumed_by k people expenses) |}
  else None.

(** What [k] owns outright: the expenses that name it as owner. *)
Definition owned_by (k : string) (expenses : list Expense) : Qc :=
  Qcsum (map amount
           (filter (fun e => owner e <> "Shared" /\ owner e = k) expenses)).

(** *** Sample data *)

Definition sample (a : Z) (p o : string) : Expense :=
  {| id := EmptyString; description := "item"; amount := Qc_of_Z a; date := "2024-01-01";
     category := "Other"; store := "Store"; payer := p; owner := o;
     originalAmount := None |}.

(** The example of the specification. *)
Definition example_people : list string := ["Me"; "Partner"].
Definition example_expenses : list Expense :=
  [sample 10 "Me" "Shared"; sample 20 "Partner" "Me"].

(** A payer who is no longer a participant. *)
Definition ghost_people : list string := ["Me"].
Definition ghost_expenses : list Expense := [sample 10 "Ghost" "Shared"].

End SplitAnalysis.

(** ** Objects and arrays in insertion order *)

Module JsObject.

Section Entries.
Context {A : Type}.

(** [obj[k]] *)
Fixpoint get (k : string) (obj : list (string * A)) : option A :=
  match obj with
  | [] => None
  | (k', v) :: rest => if decide (k' = k) then Some v else get k rest
  end.

(** [obj[k] = f(obj[k])]: an existing key keeps its place, a new key
    goes to the end. *)
Fixpoint upsert (k : string) (f : option A -> A) (obj : list (string * A))
  : list (string * A) :=
  match obj with
  | [] => [(k, f None)]
  | (k', v) :: rest =>
      if decide (k' = k) then (k', f (Some v)) :: rest
      else (k', v) :: upsert k f rest
  end.

(** [Object.keys(obj)] and [Object.values(obj)] *)
Definition keys (obj : list (string * A)) : list string := map fst obj.
Definition values (obj : list (string * A)) : list A := map snd obj.

(** [arr.sort(cmp)]: the stable sort; [x], met before [y], stays before
    it unless [cmp x y > 0]. *)
Fixpoint sort_insert (cmp : A -> A -> Z) (x : A) (sorted : list A) : list A :=
  match sorted with
  | [] => [x]
  | y :: rest =>
      if 0 <? cmp x y then y :: sort_insert cmp x rest else x :: sorted
  end.

Definition sort (cmp : A -> A -> Z) (arr : list A) : list A :=
  fold_right (sort_insert cmp) [] arr.

End Entries.

(** The names of a list that are not in [seen], in the order of their
    first appearance: the order in which an object gets its keys. *)
Fixpoint firsts (seen : list string) (l : list string) : list string :=
  match l with
  | [] => []
  | s :: rest =>
      if decide (s ∈ seen) then firsts seen rest
      else s :: firsts (seen ++ [s]) rest
  end.

End JsObject.

(** ** Dates *)

Module JsDate.

(** The milliseconds of one day: [1000 * 60 * 60 * 24]. *)
Definition DAY : Z := 1000 * 60 * 60 * 24.

Definition digit (a : ascii) : option Z :=
  let n := nat_of_ascii a in
  if (48 <=? n)%nat && (n <=? 57)%nat then Some (Z.of_nat n - 48) else None.

Fixpoint digits (acc : Z) (s : list ascii) : option Z :=
  match s with
  | [] => Some acc
  | a :: rest =>
      match digit a with
      | Some d => digits (10 * acc + d) rest
      | None => None
      end
  end.

(** Days from 1970-01-01 to the civil date [y]-[m]-[d]. *)
Definition days_from_civil (y m d : Z) : Z :=
  let y' := if m <=? 2 then y - 1 else y in
  let era := y' / 400 in
  let yoe := y' - era * 400 in
  let doy := (153 * (if 2 <? m then m - 3 else m + 9) + 2) / 5 + d - 1 in
  let doe := yoe * 365 + yoe / 4 - yoe / 100 + doy in
  era * 146097 + doe - 719468.

(** [new Date(s).getTime()] for a calendar date [YYYY-MM-DD], which is
    what the date control and the receipt schema give: midnight UTC of
    that day.  Other strings are outside the data model and read as 0. *)
Definition isoTime (s : string) : Z :=
  match list_ascii_of_string s with
  | [y1; y2; y3; y4; "-"%char; m1; m2; "-"%char; d1; d2] =>
      match digits 0 [y1; y2; y3; y4], digits 0 [m1; m2], digits 0 [d1; d2] with
      | Some y, Some m, Some d => days_from_civil y m d * DAY
      | _, _, _ => 0
      end
  | _ => 0
  end.

(** A calendar date is written with digits and hyphens only. *)
Definition date_char (a : ascii) : bool :=
  let n := nat_of_ascii a in
  ((48 <=? n)%nat && (n <=? 57)%nat) || (n =? 45)%nat.

Fixpoint calendar_date (s : string) : bool :=
  match s with
  | EmptyString => true
  | String a rest => date_char a && calendar_date rest
  end.

End JsDate.
Export JsDate.

(** ** The order in which the keys of an object are listed *)

Module JsEntries.
Import JsObject.

(** An array index: the canonical numeral of a whole number below
    [2^32 - 1]. *)
Definition array_index (s : string) : option Z :=
  match list_ascii_of_string s with
  | [] => None
  | a :: rest =>
      if bool_decide (a = "0"%char /\ rest <> []) then None
      else match digits 0 (a :: rest) with
           | Some n => if n <? 2 ^ 32 - 1 then Some n else None
           | None => None
           end
  end.

Definition byIndex {A : Type} (x y : string * A) : Z :=
  default 0 (array_index (fst x)) - default 0 (array_index (fst y)).

(** [Object.entries(obj)], and with [keys] and [values] above
    [Object.keys(obj)] and [Object.values(obj)]: the keys that are array
    indices, in ascending order, then the other keys in insertion order. *)
Definition entries {A : Type} (obj : list (string * A)) : list (string * A) :=
  sort byIndex (filter (fun kv => is_Some (array_index (fst kv))) obj)
  ++ filter (fun kv => ~ is_Some (array_index (fst kv))) obj.

(** The same order on names alone: the names that are array indices, in
    ascending order, then the others as they come. *)
Definition byNumber (x y : string) : Z :=
  default 0 (array_index x) - default 0 (array_index y).

Definition enumerated (names : list string) : list string :=
  sort byNumber (filter (fun s => is_Some (array_index s)) names)
  ++ filter (fun s => ~ is_Some (array_index s)) names.

End JsEntries.
Export JsEntries.

(** ** Replenishment ([ShelfLifeInsights.tsx], [itemStats]) *)

Module ShelfLifeInsights.
Import JsObject.

(** Generic shelf life estimates in days, by category name. *)
Definition SHELF_LIFE_DAYS (c : string) : option Z :=
  if decide (c = "Vegetables") then Some 7
  else if decide (c = "Fruits") then Some 7
  else if decide (c = "Meat & Seafood") then Some 3
  else if decide (c = "Dairy & Eggs") then Some 14
  else if decide (c = "Bakery") then Some 5
  else if decide (c = "Pantry & Dry Goods") then Some 90
  else if decide (c = "Frozen Foods") then Some 30
  else if decide (c = "Snacks & Candy") then Some 21
  else if decide (c = "Beverages") then Some 14
  else if decide (c = "Alcohol") then Some 365
  else if decide (c = "Deli & Prepared") then Some 4
  else if decide (c = "Baby") then Some 14
  else if decide (c = "Pet Supplies") then Some 30
  else if decide (c = "Household & Cleaning") then Some 60
  else if decide (c = "Personal Care & Pharmacy") then Some 45
  else if decide (c = "Other") then Some 14
  else None.

(** [SHELF_LIFE_DAYS[c] || 14] *)
Definition shelfLife (c : string) : Z :=
  match SHELF_LIFE_DAYS c with
  | Some d => if d =? 0 then 14 else d
  | None => 14
  end.

Inductive Status : Type := StockUp | RunningLow | Good | LikelyExpired | Unknown.

Global Instance Status_eq_dec : EqDecision Status.
Proof. solve_decision. Defined.

Record Group : Type := mkGroup {
  dates : list string;
  g_category : string;
  name : string
}.

Record ItemStat : Type := mkItemStat {
  s_name : string;
  s_category : string;
  lastPurchased : Z;
  daysSinceLastPurchase : Z;
  avgCycle : option Z;
  purchaseCount : nat;
  genericShelfLife : Z;
  status : Status
}.

(** [x >= c * r] for the whole numbers [x], [c] and the ratio [r]. *)
Definition reaches (x c : Z) (r : Q) : bool :=
  bool_decide (Qc_of_Z c * Q2Qc r <= Qc_of_Z x)%Qc.

Section Clock.
Variable getTime : string -> Z.

Definition normName (e : Expense) : string := toLowerCase (trim (description e)).

(** The body of the grouping loop, on the group of the expense. *)
Definition enter (e : Expense) (slot : option Group) : Group :=
  let g := match slot with
           | Some g => g
           | None => {| dates := []; g_category := category e; name := description e |}
           end in
  let pushed := dates g ++ [date e] in
  let first := hd (date e) pushed in
  {| dates := pushed;
     g_category := g_category g;
     name := if getTime first <? getTime (date e) then description e else name g |}.

(** Step 1: group expenses by normalized name. *)
Definition items (expenses : list Expense) : list (string * Group) :=
  fold_left (fun obj e => upsert (normName e) (enter e) obj) expenses [].

Definition newestFirst (a b : string) : Z := getTime b - getTime a.

(** [totalDays]: the gaps between consecutive sorted dates, added up. *)
Fixpoint totalDays (sortedDates : list string) : Z :=
  match sortedDates with
  | a :: (b :: _) as rest => (getTime a - getTime b) + totalDays rest
  | _ => 0
  end.

Definition cycle (sortedDates : list string) : option Z :=
  if (2 <=? length sortedDates)%nat
  then Some (Math_round (Qc_of_Z (totalDays sortedDates)
                         / Qc_of_nat (length sortedDates - 1)
                         / Qc_of_Z DAY)%Qc)
  else None.

Definition classify (daysSince : Z) (avgCycle : option Z) (shelf : Z) : Status :=
  match avgCycle with
  | Some c =>
      if c <=? daysSince then StockUp
      else if reaches daysSince c (8 # 10) then RunningLow
      else Good
  | None =>
      if shelf <=? daysSince then StockUp
      else if reaches daysSince shelf (9 # 10) then RunningLow
      else Good
  end.

(** Step 2: the statistics of one group. *)
Definition itemStat (now : Z) (item : Group) : ItemStat :=
  let sortedDates := sort newestFirst (dates item) in
  let lastDate := getTime (hd EmptyString sortedDates) in
  let daysSince := (now - lastDate) / DAY in
  let avgCycle := cycle sortedDates in
  let shelf := shelfLife (g_category item) in
  {| s_name := name item;
     s_category := g_category item;
     lastPurchased := lastDate;
     daysSinceLastPurchase := daysSince;
     avgCycle := avgCycle;
     purchaseCount := length sortedDates;
     genericShelfLife := shelf;
     status := classify daysSince avgCycle shelf |}.

Definition score (s : Status) : Z :=
  match s with
  | StockUp => 4
  | RunningLow => 3
  | Good => 2
  | _ => 1
  end.

Definition byUrgency (a b : ItemStat) : Z := score (status b) - score (status a).

Definition itemStats (now : Z) (expenses : list Expense) : list ItemStat :=
  sort byUrgency (map (itemStat now) (values (entries (items expenses)))).

Definition listed (i : ItemStat) : bool :=
  bool_decide (status i = StockUp) || bool_decide (status i = RunningLow).

Definition shoppingList (now : Z) (expenses : list Expense) : list ItemStat :=
  filter (fun i => listed i = true) (itemStats now expenses).

End Clock.

(** *** The contract, in the words of the specification *)


(** The gaps between consecutive times of a list, added up. *)
Fixpoint gaps (times : list Z) : Z :=
  match times with
  | a :: (b :: _) as rest => (a - b) + gaps rest
  | _ => 0
  end.




Section Contract.
Variable getTime : string -> Z.

(** The expenses filed under the key [k]. *)
Definition purchases (k : string) (expenses : list Expense) : list Expense :=
  filter (fun e => normName e = k) expenses.


End Contract.

End ShelfLifeInsights.

(** ** Store optimisation ([StorePlanner.tsx], [plan]) *)

Module StorePlanner.
Import JsObject.

Inductive Reason : Type := Exclusive | BestPrice | Needed.

Record PlannedItem : Type := mkPlannedItem {
  p_name : string;
  p_category : string;
  reason : Reason;
  avgPriceHere : number;
  cheapestStore : option string;
  savings : option number;
  isNeeded : bool
}.

Record Group : Type := mkGroup {
  dates : list string;
  g_category : string;
  name : string
}.

Record StoreStat : Type := mkStoreStat { sum : number; count : nat }.

Record Plan : Type := mkPlan {
  smartBuys : list PlannedItem;
  otherNeeds : list PlannedItem
}.

Section Clock.
Variable getTime : string -> Z.

Definition normName (e : Expense) : string := toLowerCase (trim (description e)).

(** 1. Identify item shortages: the grouping loop. *)
Definition enter (e : Expense) (slot : option Group) : Group :=
  let g := match slot with
           | Some g => g
           | None => {| dates := []; g_category := category e; name := description e |}
           end in
  let pushed := dates g ++ [date e] in
  let first := hd (date e) pushed in
  {| dates := pushed;
     g_category := g_category g;
     name := if getTime first <? getTime (date e) then description e else name g |}.

Definition itemGroups (expenses : list Expense) : list (string * Group) :=
  fold_left (fun obj e => upsert (normName e) (enter e) obj) expenses [].

Definition newestFirst (a b : string) : Z := getTime b - getTime a.

Fixpoint totalDays (sortedDates : list string) : Z :=
  match sortedDates with
  | a :: (b :: _) as rest => (getTime a - getTime b) + totalDays rest
  | _ => 0
  end.

Definition cycle (sortedDates : list string) : option Z :=
  if (2 <=? length sortedDates)%nat
  then Some (Math_round (Qc_of_Z (totalDays sortedDates)
                         / Qc_of_nat (length sortedDates - 1)
                         / Qc_of_Z DAY)%Qc)
  else None.

(** [isNeeded]: 0.9 of the cycle, or of the shelf life, is used up. *)
Definition isNeededNow (now : Z) (data : Group) : bool :=
  let sortedDates := sort newestFirst (dates data) in
  let lastDate := getTime (hd EmptyString sortedDates) in
  let daysSince := (now - lastDate) / DAY in
  match cycle sortedDates with
  | Some c => ShelfLifeInsights.reaches daysSince c (9 # 10)
  | None =>
      ShelfLifeInsights.reaches daysSince
        (ShelfLifeInsights.shelfLife (g_category data)) (9 # 10)
  end.

Definition neededItems (now : Z) (expenses : list Expense) : list string :=
  keys (filter (fun kv => isNeededNow now (snd kv) = true)
          (entries (itemGroups expenses))).

(** 2. Analyze prices and exclusivity. *)

(** [e.store || 'Unknown'] *)
Definition storeOf (e : Expense) : string :=
  if decide (store e = EmptyString) then "Unknown" else store e.

Definition tally (e : Expense) (slot : option StoreStat) : StoreStat :=
  let st := match slot with
            | Some st => st
            | None => {| sum := Fin 0%Qc; count := 0 |}
            end in
  {| sum := nadd (sum st) (Fin (amount e)); count := count st + 1 |}.

Definition storeStats (itemExpenses : list Expense) : list (string * StoreStat) :=
  fold_left (fun obj e => upsert (storeOf e) (tally e) obj) itemExpenses [].

Definition average (st : StoreStat) : number := ndiv (sum st) (of_nat (count st)).

(** The loop looking for the cheapest store: its state is
    [(cheapestStore, minAvg)]. *)
Definition cheaper (best : string * number) (entry : string * StoreStat)
  : string * number :=
  if nlt (average (snd entry)) (snd best)
  then (fst entry, average (snd entry))
  else best.

Definition cheapest (stats : list (string * StoreStat)) : string * number :=
  fold_left cheaper stats (EmptyString, PosInf).

Definition uniqueStore (stats : list (string * StoreStat)) : option string :=
  match keys stats with
  | [s] => Some s
  | _ => None
  end.

(** The verdict on one needed item. *)
Definition verdict (selectedStore : string) (expenses : list Expense)
    (normName0 : string) (itemData : Group) : bool * PlannedItem :=
  let itemExpenses := filter (fun e => normName e = normName0) expenses in
  let stats := storeStats itemExpenses in
  let '(cheapestStore0, minAvg) := cheapest (entries stats) in
  match get selectedStore stats with
  | Some here =>
      let avgAtSelected := average here in
      if decide (uniqueStore stats = Some selectedStore) then
        (true, {| p_name := name itemData; p_category := g_category itemData;
                  reason := Exclusive; avgPriceHere := avgAtSelected;
                  cheapestStore := None; savings := None; isNeeded := true |})
      else if decide (cheapestStore0 = selectedStore) then
        (true, {| p_name := name itemData; p_category := g_category itemData;
                  reason := BestPrice; avgPriceHere := avgAtSelected;
                  cheapestStore := None; savings := None; isNeeded := true |})
      else
        (false, {| p_name := name itemData; p_category := g_category itemData;
                   reason := Needed; avgPriceHere := avgAtSelected;
                   cheapestStore := Some cheapestStore0;
                   savings := Some (nsub avgAtSelected minAvg);
                   isNeeded := true |})
  | None =>
      (false, {| p_name := name itemData; p_category := g_category itemData;
                 reason := Needed; avgPriceHere := Fin 0%Qc;
                 cheapestStore := Some cheapestStore0;
                 savings := None; isNeeded := true |})
  end.

Definition plan (selectedStore : string) (now : Z) (expenses : list Expense) : Plan :=
  if decide (selectedStore = EmptyString) then {| smartBuys := []; otherNeeds := [] |}
  else
    let groups := itemGroups expenses in
    let needed := neededItems now expenses in
    let verdicts :=
      map (fun kv => verdict selectedStore expenses (fst kv) (snd kv))
          (filter (fun kv => fst kv ∈ needed) (entries groups)) in
    {| smartBuys := map snd (filter (fun v => fst v = true) verdicts);
       otherNeeds := map snd (filter (fun v => fst v = false) verdicts) |}.

End Clock.

Global Instance Reason_eq_dec : EqDecision Reason.
Proof. solve_decision. Defined.

Global Instance PlannedItem_eq_dec : EqDecision PlannedItem.
Proof. solve_decision. Defined.

(** *** The contract, in the words of the specification *)

(** The purchases of the item [k], and those made at the store [s]. *)
Definition purchases (k : string) (expenses : list Expense) : list Expense :=
  filter (fun e => normName e = k) expenses.

Definition boughtAt (s : string) (ps : list Expense) : list Expense :=
  filter (fun e => storeOf e = s) ps.

(** The average price of the item at the store [s]. *)
Definition priceAt (s : string) (ps : list Expense) : Qc :=
  (Qcsum (map amount (boughtAt s ps)) / Qc_of_nat (length (boughtAt s ps)))%Qc.

(** What was spent on the item at the store [s], and how many times. *)
Definition expected (ps : list Expense) (s : string) : StoreStat :=
  {| sum := Fin (Qcsum (map amount (boughtAt s ps)));
     count := length (boughtAt s ps) |}.

(** The stores of an item, in the order in which it was first bought
    there. *)
Definition stores (ps : list Expense) : list string := firsts [] (map storeOf ps).

(** [c] is the cheapest store: the first of the stores with the minimum
    average price, in the order in which the loop meets them. *)
Definition firstCheapest (c : string) (ps : list Expense) : Prop :=
  exists before after,
    enumerated (stores ps) = before ++ c :: after
    /\ Forall (fun s => (priceAt c ps < priceAt s ps)%Qc) before
    /\ Forall (fun s => (priceAt c ps <= priceAt s ps)%Qc) after.



(** *** Sample data *)

Definition bought (d dt st : string) (a : Z) : Expense :=
  {| id := EmptyString; description := d; amount := Qc_of_Z a; date := dt;
     category := "Dairy & Eggs"; store := st; payer := "Me"; owner := "Me";
     originalAmount := None |}.

(** The same price at two stores. *)
Definition tie_history : list Expense :=
  [bought "milk" "2024-01-01" "A" 2; bought "milk" "2024-01-02" "B" 2].

(** The same price at two stores, the second named by an array index. *)
Definition index_history : list Expense :=
  [bought "milk" "2024-01-01" "b" 2; bought "milk" "2024-01-02" "9" 2].

(** Bought every ten days, last bought eight days ago. *)
Definition cycle_history : list Expense :=
  [bought "milk" "2024-01-01" "A" 2; bought "milk" "2024-01-11" "A" 2].

(** A back-dated purchase entered between two others. *)
Definition casing_history : list Expense :=
  [bought "milk" "2024-01-01" "A" 2; bought "MILK" "2024-01-10" "A" 2;
   bought "Milk" "2024-01-05" "A" 2].

End StorePlanner.

(** ** Search ([GlobalSearch.tsx], [results]) *)

Module GlobalSearch.
Import JsObject.

Record Bill : Type := mkBill {
  b_store : string;
  b_date : string;
  b_total : number;
  b_count : nat
}.

Record Results : Type := mkResults { bills : list Bill; items : list Expense }.

Section Clock.
Variable getTime : string -> Z.

(** [`${e.store}|${e.date}`] *)
Definition billKey (e : Expense) : string := store e +:+ "|" +:+ date e.

Definition itemMatches (lowerQuery : string) (e : Expense) : bool :=
  includes (toLowerCase (description e)) lowerQuery
  || includes (toLowerCase (category e)) lowerQuery.

Definition addToBill (e : Expense) (slot : option Bill) : Bill :=
  let bill := match slot with
              | Some b => b
              | None => {| b_store := store e; b_date := date e;
                           b_total := Fin 0%Qc; b_count := 0 |}
              end in
  {| b_store := b_store bill; b_date := b_date bill;
     b_total := nadd (b_total bill) (Fin (amount e));
     b_count := b_count bill + 1 |}.

Definition billsMap (expenses : list Expense) : list (string * Bill) :=
  fold_left (fun m e => upsert (billKey e) (addToBill e) m) expenses [].

Definition billMatches (lowerQuery : string) (b : Bill) : bool :=
  includes (toLowerCase (b_store b)) lowerQuery
  || includes (b_date b) lowerQuery.

Definition newestFirst (a b : Bill) : Z := getTime (b_date b) - getTime (b_date a).

Definition results (query : string) (expenses : list Expense) : Results :=
  if decide (trim query = EmptyString) then {| bills := []; items := [] |}
  else
    let lowerQuery := toLowerCase query in
    {| bills := take 3 (sort newestFirst
                          (filter (fun b => billMatches lowerQuery b = true)
                                  (values (billsMap expenses))));
       items := take 5 (filter (fun e => itemMatches lowerQuery e = true) expenses) |}.

End Clock.

(** *** The contract, in the words of the specification *)

(** [e] belongs to the bill of the store [s] on the date [d]. *)
Definition onBill (s d : string) (e : Expense) : Prop := store e = s /\ date e = d.

Global Instance onBill_dec s d e : Decision (onBill s d e).
Proof. unfold onBill. apply _. Defined.

(** The bill: the aggregate over all the expenses sharing [(s, d)]. *)
Definition billOf (s d : string) (expenses : list Expense) : Bill :=
  {| b_store := s; b_date := d;
     b_total := Fin (Qcsum (map amount (filter (onBill s d) expenses)));
     b_count := length (filter (onBill s d) expenses) |}.

(** The expense, and the bill, answer the query: one of their texts
    contains it, whatever the case. *)
Definition itemAnswers (query : string) (e : Expense) : Prop :=
  mentions (description e) query \/ mentions (category e) query.

Definition billAnswers (query : string) (b : Bill) : Prop :=
  mentions (b_store b) query \/ mentions (b_date b) query.


(** *** Sample data *)

Definition visit (d dt st : string) (a : Z) : Expense :=
  {| id := EmptyString; description := d; amount := Qc_of_Z a; date := dt;
     category := "Dairy & Eggs"; store := st; payer := "Me"; owner := "Me";
     originalAmount := None |}.

Definition visits : list Expense :=
  [visit "Organic Milk" "2023-10-26" "X" 3; visit "Bread" "2023-10-26" "X" 2;
   visit "Bread" "2023-10-27" "X" 2; visit "Bread" "2023-10-27" "Y" 2].



End GlobalSearch.

(** ** Saving a reviewed bill ([ExpenseForm.tsx], [handleFinalSave]) *)

Module ExpenseForm.

Record PendingItem : Type := mkPendingItem {
  tempId : string;
  i_description : string;
  i_amount : Qc;
  i_date : string;
  i_category : string;
  i_store : string;
  i_owner : string
}.

(** [Omit<Expense, 'id'>], with the amount as computed. *)
Record NewExpense : Type := mkNewExpense {
  n_description : string;
  n_amount : number;
  n_originalAmount : Qc;
  n_date : string;
  n_category : string;
  n_store : string;
  n_payer : string;
  n_owner : string
}.

Inductive BillType : Type := personal | shared.

Definition totalBillAmount (pendingItems : list PendingItem) : number :=
  fold_left (fun sum item => nadd sum (Fin (i_amount item))) pendingItems (Fin 0%Qc).

Definition finalAmount (discountVal total : number) (item : PendingItem) : number :=
  if ngt discountVal (Fin 0%Qc) && ngt total (Fin 0%Qc)
  then
    let ratio := ndiv (Fin (i_amount item)) total in
    let itemDiscountShare := nmul discountVal ratio in
    Math_max (Fin 0%Qc) (nsub (Fin (i_amount item)) itemDiscountShare)
  else Fin (i_amount item).

(** [parsedDiscount] is [parseFloat(globalDiscount)]: [NaN] for an empty
    or unreadable field. *)
Definition handleFinalSave (parsedDiscount : number) (billType : BillType)
    (payer0 : string) (pendingItems : list PendingItem) : list NewExpense :=
  let discountVal := or_zero parsedDiscount in
  let total := totalBillAmount pendingItems in
  let finalPayer := match billType with personal => "Me" | shared => payer0 end in
  map (fun item =>
         {| n_description := i_description item;
            n_amount := toFixed2 (finalAmount discountVal total item);
            n_originalAmount := i_amount item;
            n_date := i_date item;
            n_category := i_category item;
            n_store := i_store item;
            n_payer := finalPayer;
            n_owner := match billType with personal => "Me" | shared => i_owner item end |})
      pendingItems.

(** What the specification gives for the saved amount, before any
    rounding: the discount shared out by the item's part of the subtotal,
    not below zero. *)
Definition discounted (D T a : Qc) : Qc :=
  let x := (a - D * (a / T))%Qc in
  if bool_decide (0 < x)%Qc then x else 0%Qc.

Definition pending (a : Z) : PendingItem :=
  {| tempId := EmptyString; i_description := "item"; i_amount := Qc_of_Z a;
     i_date := "2024-01-01"; i_category := "Other"; i_store := "Store";
     i_owner := "Shared" |}.

End ExpenseForm.

(** ** Whose item it is ([ExpenseForm.tsx] [toggleOwner], [DetailModals.tsx]) *)

Module Owners.

(** [cycle.indexOf(x)]: the first position of [x], and -1 when it is not
    there. *)
Fixpoint indexOf (x : string) (cycle : list string) : Z :=
  match cycle with
  | [] => -1
  | y :: rest =>
      if decide (y = x) then 0
      else let i := indexOf x rest in if i <? 0 then -1 else i + 1
  end.

(** [cycle[i]], [undefined] being the empty name here. *)
Definition at_index (cycle : list string) (i : Z) : string :=
  if i <? 0 then EmptyString else nth (Z.to_nat i) cycle EmptyString.

(** Cycle logic: Shared -> Person 1 -> Person 2 ... -> Shared *)
Definition nextOwner (people : list string) (owner0 : string) : string :=
  let cycle := "Shared" :: people in
  let currentIndex := indexOf owner0 cycle in
  let nextIndex := Z.rem (currentIndex + 1) (Z.of_nat (length cycle)) in
  at_index cycle nextIndex.

(** [toggleOwner] of the review step, on the pending items. *)
Definition toggleOwner (people : list string) (tempId0 : string)
    (pendingItems : list ExpenseForm.PendingItem) : list ExpenseForm.PendingItem :=
  map (fun item =>
         if decide (ExpenseForm.tempId item <> tempId0) then item
         else {| ExpenseForm.tempId := ExpenseForm.tempId item;
                 ExpenseForm.i_description := ExpenseForm.i_description item;
                 ExpenseForm.i_amount := ExpenseForm.i_amount item;
                 ExpenseForm.i_date := ExpenseForm.i_date item;
                 ExpenseForm.i_category := ExpenseForm.i_category item;
                 ExpenseForm.i_store := ExpenseForm.i_store item;
                 ExpenseForm.i_owner := nextOwner people (ExpenseForm.i_owner item) |})
      pendingItems.

End Owners.

(** ** The state of the application ([App.tsx]) *)

Module App.

(** The people the application starts with. *)
Definition initialPeople : list string := ["Me"; "Partner"].

Definition handleAddPerson (name : string) (people : list string) : list string :=
  if decide (name ∈ people) then people else people ++ [name].

(** [handleAddPersonInline] of the expense form, which calls it. *)
Definition handleAddPersonInline (newPersonName : string) (people : list string)
  : list string :=
  if decide (trim newPersonName = EmptyString) then people
  else handleAddPerson (trim newPersonName) people.

Definition handleDeleteExpense (id0 : string) (expenses : list Expense) : list Expense :=
  filter (fun e => id e <> id0) expenses.

(** [Partial<Expense>]: the fields that are given. *)
Record Updates : Type := mkUpdates {
  u_id : option string;
  u_description : option string;
  u_amount : option Qc;
  u_date : option string;
  u_category : option string;
  u_store : option string;
  u_payer : option string;
  u_owner : option string;
  u_originalAmount : option Qc
}.

(** [{ ...e, ...updates }] *)
Definition spread (e : Expense) (updates : Updates) : Expense :=
  {| id := default (id e) (u_id updates);
     description := default (description e) (u_description updates);
     amount := default (amount e) (u_amount updates);
     date := default (date e) (u_date updates);
     category := default (category e) (u_category updates);
     store := default (store e) (u_store updates);
     payer := default (payer e) (u_payer updates);
     owner := default (owner e) (u_owner updates);
     originalAmount := match u_originalAmount updates with
                       | Some a => Some a
                       | None => originalAmount e
                       end |}.

Definition handleUpdateExpense (id0 : string) (updates : Updates)
    (expenses : list Expense) : list Expense :=
  map (fun e => if decide (id e = id0) then spread e updates else e) expenses.

Definition handleBulkUpdateBill (store0 date0 : string) (updates : Updates)
    (expenses : list Expense) : list Expense :=
  map (fun e => if decide (store e = store0 /\ date e = date0)
                then spread e updates else e)
      expenses.

End App.

(** ** The details of a bill ([DetailModals.tsx], [BillDetailModal]) *)

Module BillDetailModal.
Import JsObject.

Definition billItems (store0 date0 : string) (expenses : list Expense) : list Expense :=
  filter (fun e => store e = store0 /\ date e = date0) expenses.

Definition total (items : list Expense) : number :=
  fold_left (fun sum e => nadd sum (Fin (amount e))) items (Fin 0%Qc).

(** [Array.from(new Set(billItems.map(e => e.payer)))] *)
Definition payers (items : list Expense) : list string := firsts [] (map payer items).

Definition owners (items : list Expense) : list string := firsts [] (map owner items).

Definition isPersonalBill (items : list Expense) : bool :=
  match owners items with
  | [o] => bool_decide (o = "Me")
  | _ => false
  end.

Definition handleSetPersonal (store0 date0 : string) (expenses : list Expense)
  : list Expense :=
  App.handleBulkUpdateBill store0 date0
    {| App.u_id := None; App.u_description := None; App.u_amount := None;
       App.u_date := None; App.u_category := None; App.u_store := None;
       App.u_payer := Some "Me"; App.u_owner := Some "Me";
       App.u_originalAmount := None |}
    expenses.

Definition handleSetShared (store0 date0 : string) (expenses : list Expense)
  : list Expense :=
  App.handleBulkUpdateBill store0 date0
    {| App.u_id := None; App.u_description := None; App.u_amount := None;
       App.u_date := None; App.u_category := None; App.u_store := None;
       App.u_payer := None; App.u_owner := Some "Shared";
       App.u_originalAmount := None |}
    expenses.

End BillDetailModal.

(** ** The dashboard ([Dashboard.tsx]) *)

Module Dashboard.
Import JsObject.

Definition totalSpent (expenses : list Expense) : number :=
  fold_left (fun sum item => nadd sum (Fin (amount item))) expenses (Fin 0%Qc).

(** [Object.values(Category)] *)
Definition Category_values : list string :=
  ["Vegetables"; "Fruits"; "Meat & Seafood"; "Dairy & Eggs"; "Bakery";
   "Pantry & Dry Goods"; "Frozen Foods"; "Snacks & Candy"; "Beverages"; "Alcohol";
   "Deli & Prepared"; "Baby"; "Pet Supplies"; "Household & Cleaning";
   "Personal Care & Pharmacy"; "Other"].

(** [data[e.category] += e.amount]: on a key that is not there,
    [undefined + e.amount] is [NaN]. *)
Definition addTo (a : Qc) (slot : option number) : number :=
  match slot with
  | Some v => nadd v (Fin a)
  | None => NaN
  end.

Definition categoryTotals (expenses : list Expense) : list (string * number) :=
  fold_left (fun data e => upsert (category e) (addTo (amount e)) data) expenses
    (map (fun c => (c, Fin 0%Qc)) Category_values).

Definition categoryData (expenses : list Expense) : list (string * number) :=
  filter (fun kv => ngt (snd kv) (Fin 0%Qc) = true) (entries (categoryTotals expenses)).

(** [(data[store] || 0) + e.amount].  (Store names are taken not to be
    names of members of [Object.prototype], for which [data[store]] is
    not [undefined] at first.) *)
Definition addOrStart (a : Qc) (slot : option number) : number :=
  nadd (match slot with
        | Some v => or_zero v
        | None => Fin 0%Qc
        end)
       (Fin a).

(** [e.store || 'Unknown'] *)
Definition storeName (e : Expense) : string :=
  if decide (store e = EmptyString) then "Unknown" else store e.

Definition storeTotals (expenses : list Expense) : list (string * number) :=
  fold_left (fun data e => upsert (storeName e) (addOrStart (amount e)) data)
    expenses [].

(** The sign a comparator's result is read for; [NaN] counts as zero. *)
Definition sign (a : number) : Z :=
  match a with
  | Fin q => if bool_decide (0 < q)%Qc then 1
             else if bool_decide (q < 0)%Qc then -1 else 0
  | PosInf => 1
  | NegInf => -1
  | NaN => 0
  end.

(** [([, a], [, b]) => b - a] *)
Definition bySpend (x y : string * number) : Z := sign (nsub (snd y) (snd x)).

(** Top 5 stores *)
Definition storeData (expenses : list Expense) : list (string * number) :=
  take 5 (sort bySpend (entries (storeTotals expenses))).

(** [(a, b) => a.amount - b.amount]: cheapest first *)
Definition byPrice (a b : Expense) : Z :=
  sign (nsub (Fin (amount a)) (Fin (amount b))).

Definition priceComparisonData (priceSearch : string) (expenses : list Expense)
  : list Expense :=
  if decide (trim priceSearch = EmptyString \/ expenses = []) then []
  else
    let searchTerm := toLowerCase priceSearch in
    sort byPrice
      (filter (fun e => includes (toLowerCase (description e)) searchTerm = true)
              expenses).

(** What was spent at the store [s], and in the category [c]. *)
Definition spentAt (s : string) (expenses : list Expense) : Qc :=
  Qcsum (map amount (filter (fun e => storeName e = s) expenses)).

Definition spentOn (c : string) (expenses : list Expense) : Qc :=
  Qcsum (map amount (filter (fun e => category e = c) expenses)).

(** The value filed under a category: its total, or [NaN] for a category
    that is not in the enumeration. *)
Definition filed_under (expenses : list Expense) (c : string) : number :=
  if decide (c ∈ Category_values) then Fin (spentOn c expenses) else NaN.

End Dashboard.

(** ** The details of an item ([DetailModals.tsx], [ItemDetailModal]) *)

Module ItemDetailModal.

(** [onUpdateExpense(item.id, { description: editName })] *)
Definition handleSave (item : Expense) (editName : string) (expenses : list Expense)
  : list Expense :=
  App.handleUpdateExpense (id item)
    {| App.u_id := None; App.u_description := Some editName; App.u_amount := None;
       App.u_date := None; App.u_category := None; App.u_store := None;
       App.u_payer := None; App.u_owner := None; App.u_originalAmount := None |}
    expenses.

(** [onUpdateExpense(item.id, { owner: cycle[nextIdx] })] *)
Definition toggleOwner (people : list string) (item : Expense) (expenses : list Expense)
  : list Expense :=
  App.handleUpdateExpense (id item)
    {| App.u_id := None; App.u_description := None; App.u_amount := None;
       App.u_date := None; App.u_category := None; App.u_store := None;
       App.u_payer := None;
       App.u_owner := Some (Owners.nextOwner people (owner item));
       App.u_originalAmount := None |}
    expenses.

End ItemDetailModal.

(** ** The list of expenses ([ExpenseList.tsx]) *)

Module ExpenseList.
Import JsObject.

Section Clock.
Variable getTime : string -> Z.

(** [(a, b) => new Date(b.date).getTime() - new Date(a.date).getTime()] *)
Definition byDate (a b : Expense) : Z := getTime (date b) - getTime (date a).

(** [expenses.sort(...)]: the rows of the list.  The sort is done in
    place, so this is also what the array given to the component holds
    afterwards. *)
Definition rows (expenses : list Expense) : list Expense :=
  sort byDate expenses.

(** The tab "All Items" is given the stored array itself: the pair is the
    stored array afterwards and the rows shown. *)
Definition showAll (stored : list Expense) : list Expense * list Expense :=
  (rows stored, rows stored).

(** The panel "Recent Additions" is given [expenses.slice(0, 5)], a copy:
    the stored array is left as it is. *)
Definition showRecent (stored : list Expense) : list Expense * list Expense :=
  (stored, rows (take 5 stored)).

End Clock.

End ExpenseList.

(** ** The choice of a store ([StorePlanner.tsx], [stores]) *)

Module StoreChoice.
Import JsObject.

(** The default comparison of [sort()]: the order of the strings, code
    unit by code unit. *)
Definition byName (a b : string) : Z :=
  match String.compare a b with
  | Lt => -1
  | Eq => 0
  | Gt => 1
  end.

(** The set of the store names that are not empty, as a sorted array. *)
Definition stores (expenses : list Expense) : list string :=
  sort byName
    (firsts [] (map store (filter (fun e => store e <> EmptyString) expenses))).

(** The effect that selects the first store when none is selected. *)
Definition defaultSelection (selectedStore : string) (stores0 : list string) : string :=
  if decide (selectedStore = EmptyString)
  then match stores0 with
       | s :: _ => s
       | [] => selectedStore
       end
  else selectedStore.

End StoreChoice.

(** ** The warnings of the review step ([ExpenseForm.tsx]) *)

Module Checks.



End Checks.

(** ** The net position shown for "Me" ([SplitAnalysis.tsx], [settlementText]) *)

Module NetPosition.

Inductive Text : Type :=
| NoData
| SettledUp
| Owed (amount : number)
| Owe (amount : number).

(** [Math.abs(a)] *)
Definition Math_abs (a : number) : number :=
  match a with
  | Fin q => if bool_decide (q < 0)%Qc then Fin (- q)%Qc else a
  | NegInf => PosInf
  | _ => a
  end.

(** The amounts stand for the text of [toFixed(2)]. *)
Definition settlementText (stats : gmap string SplitAnalysis.Balance) : Text :=
  match stats !! "Me" with
  | None => NoData
  | Some myStats =>
      let bal := SplitAnalysis.net myStats in
      if nlt (Math_abs bal) (Fin (Q2Qc (1 # 100))) then SettledUp
      else if ngt bal (Fin 0%Qc) then Owed (toFixed2 bal)
      else Owe (toFixed2 (Math_abs bal))
  end.

(** What the text may say when the net balance of "Me" is [myNet]: no
    data when "Me" has no entry; otherwise settled up when the balance is
    one cent at most in absolute value, and else, the balance being one
    cent at least in absolute value, the balance or its opposite to the
    nearest cent. *)
Definition reads (has_entry : Prop) (myNet : number) (t : Text) : Prop :=
  match t with
  | NoData => ~ has_entry
  | SettledUp =>
      has_entry
      /\ exists q, myNet = Fin q
                   /\ (- Q2Qc (1 # 100) <= q)%Qc /\ (q <= Q2Qc (1 # 100))%Qc
  | Owed a =>
      has_entry
      /\ exists q r, myNet = Fin q /\ (Q2Qc (1 # 100) <= q)%Qc
                     /\ a = Fin r /\ nearest_cent q r
                     /\ (Q2Qc (1 # 100) <= r)%Qc
  | Owe a =>
      has_entry
      /\ exists q r, myNet = Fin q /\ (q <= - Q2Qc (1 # 100))%Qc
                     /\ a = Fin r /\ nearest_cent (- q) r
                     /\ (Q2Qc (1 # 100) <= r)%Qc
  end.

End NetPosition.

(* ===================================================================== *)
(** * Theorems *)
(* ===================================================================== *)

(** ** Texts *)

Section TextFacts.

Lemma append_cons (a : ascii) (s t : string) :
  String a s +:+ t = String a (s +:+ t).
Proof. reflexivity. Qed.

Lemma append_nil (t : string) : EmptyString +:+ t = t.
Proof. reflexivity. Qed.

Lemma append_nil_r (s : string) : s +:+ EmptyString = s.
Proof. induction s as [|a s IH]; [reflexivity|]. rewrite append_cons, IH. reflexivity. Qed.

Lemma append_assoc (s t u : string) : (s +:+ t) +:+ u = s +:+ (t +:+ u).
Proof.
  induction s as [|a s IH]; [reflexivity|]. rewrite !append_cons, IH. reflexivity.
Qed.

Global Instance white_dec (a : ascii) : Decision (white a).
Proof. unfold white. apply _. Defined.

Global Instance blank_dec (s : string) : Decision (blank s).
Proof. induction s as [|a s IH]; cbn [blank]; apply _. Defined.

(** *** White space and [trim] *)

Lemma is_white_white (a : ascii) : is_white a = bool_decide (white a).
Proof. destruct a as [[] [] [] [] [] [] [] []]; vm_compute; reflexivity. Qed.

Lemma is_white_true (a : ascii) : is_white a = true <-> white a.
Proof. rewrite is_white_white. apply bool_decide_eq_true. Qed.

Lemma is_white_false (a : ascii) : is_white a = false <-> ~ white a.
Proof. rewrite is_white_white. apply bool_decide_eq_false. Qed.

Lemma blank_app (s t : string) : blank (s +:+ t) <-> blank s /\ blank t.
Proof.
  induction s as [|a s IH]; rewrite ?append_nil, ?append_cons; cbn [blank].
  - tauto.
  - rewrite IH. tauto.
Qed.

Lemma trimStart_blank (l s : string) : blank l -> trimStart (l +:+ s) = trimStart s.
Proof.
  induction l as [|a l IH]; rewrite ?append_nil, ?append_cons; cbn [blank trimStart].
  - reflexivity.
  - intros [Ha Hl]. apply is_white_true in Ha. rewrite Ha. apply IH, Hl.
Qed.

Lemma trimStart_kept (s : string) : ~ starts_white s -> trimStart s = s.
Proof.
  destruct s as [|a s]; cbn [starts_white trimStart]; [reflexivity|].
  intros Ha. apply is_white_false in Ha. rewrite Ha. reflexivity.
Qed.

Lemma trimStart_cut (s : string) :
  exists l, s = l +:+ trimStart s /\ blank l /\ ~ starts_white (trimStart s).
Proof.
  induction s as [|a s (l & Hs & Hl & Hw)]; cbn [trimStart].
  - exists EmptyString. cbn. tauto.
  - destruct (is_white a) eqn:Ha.
    + exists (String a l). rewrite append_cons, <- Hs. cbn [blank].
      apply is_white_true in Ha. tauto.
    + exists EmptyString. rewrite append_nil. cbn [blank starts_white].
      apply is_white_false in Ha. tauto.
Qed.

Lemma ends_white_nil : ~ ends_white EmptyString.
Proof. intros (r & a & Hr & _). destruct r; discriminate. Qed.

Lemma ends_white_one (a : ascii) : ends_white (String a EmptyString) <-> white a.
Proof.
  split.
  - intros (r & b & Hr & Hb). destruct r as [|c r].
    + rewrite append_nil in Hr. injection Hr as ->. exact Hb.
    + rewrite append_cons in Hr. injection Hr as _ Hr. destruct r; discriminate.
  - intros Ha. exists EmptyString, a. split; [reflexivity | exact Ha].
Qed.

Lemma ends_white_cons (a b : ascii) (s : string) :
  ends_white (String a (String b s)) <-> ends_white (String b s).
Proof.
  split.
  - intros (r & c & Hr & Hc). destruct r as [|d r].
    + rewrite append_nil in Hr. discriminate.
    + rewrite append_cons in Hr. injection Hr as _ Hr. exists r, c. auto.
  - intros (r & c & Hr & Hc). exists (String a r), c.
    rewrite append_cons, <- Hr. auto.
Qed.

Lemma trimEnd_blank (r : string) : blank r -> trimEnd r = EmptyString.
Proof.
  induction r as [|a r IH]; cbn [blank trimEnd]; [reflexivity|].
  intros [Ha Hr]. rewrite (IH Hr). apply is_white_true in Ha. rewrite Ha. reflexivity.
Qed.

Lemma trimEnd_kept (c r : string) :
  blank r -> ~ ends_white c -> trimEnd (c +:+ r) = c.
Proof.
  intros Hr. induction c as [|a c IH]; rewrite ?append_nil, ?append_cons; intros Hc.
  - apply trimEnd_blank, Hr.
  - cbn [trimEnd]. destruct c as [|b c].
    + rewrite append_nil, (trimEnd_blank r Hr).
      rewrite ends_white_one in Hc. apply is_white_false in Hc. rewrite Hc. reflexivity.
    + rewrite ends_white_cons in Hc. rewrite (IH Hc). reflexivity.
Qed.

Lemma trimEnd_cut (s : string) :
  exists r,
    s = trimEnd s +:+ r /\ blank r /\ ~ ends_white (trimEnd s)
    /\ (~ starts_white s -> ~ starts_white (trimEnd s)).
Proof.
  induction s as [|a s (r & Hs & Hr & He & _)]; cbn [trimEnd].
  - exists EmptyString. cbn [blank starts_white]. split; [reflexivity|].
    split; [exact I|]. split; [apply ends_white_nil | tauto].
  - destruct (trimEnd s) as [|b t] eqn:Ht.
    + rewrite append_nil in Hs. subst r. destruct (is_white a) eqn:Ha.
      * exists (String a s). rewrite append_nil. cbn [blank starts_white].
        apply is_white_true in Ha. split; [reflexivity|]. split; [tauto|].
        split; [apply ends_white_nil | tauto].
      * exists s. rewrite append_cons, append_nil. cbn [starts_white].
        apply is_white_false in Ha. split; [reflexivity|]. split; [exact Hr|].
        split; [rewrite ends_white_one; exact Ha | tauto].
    + exists r. rewrite append_cons, <- Hs. cbn [starts_white].
      split; [reflexivity|]. split; [exact Hr|].
      split; [rewrite ends_white_cons; exact He | tauto].
Qed.

(** [trim] removes the white space at the two ends, and nothing else. *)
Lemma trim_trimmed (s : string) : trimmed s (trim s).
Proof.
  unfold trim. destruct (trimStart_cut s) as (l & Hs & Hl & Hw).
  destruct (trimEnd_cut (trimStart s)) as (r & Ht & Hr & He & Hkeep).
  exists l, r. rewrite <- Ht.
  split; [exact Hs|]. split; [exact Hl|]. split; [exact Hr|].
  split; [apply Hkeep, Hw | exact He].
Qed.

Lemma trimmed_trim (s core : string) : trimmed s core -> core = trim s.
Proof.
  intros (l & r & -> & Hl & Hr & Hs & He). unfold trim.
  rewrite (trimStart_blank l _ Hl). destruct core as [|a c].
  - rewrite append_nil.
    assert (Hnone : trimStart r = EmptyString).
    { clear -Hr. induction r as [|a r IH]; cbn [trimStart]; [reflexivity|].
      destruct Hr as [Ha Hr]. apply is_white_true in Ha. rewrite Ha. apply IH, Hr. }
    rewrite Hnone. reflexivity.
  - rewrite trimStart_kept by (rewrite append_cons; exact Hs).
    symmetry. apply trimEnd_kept; assumption.
Qed.

Lemma trimmed_iff (s core : string) : trimmed s core <-> core = trim s.
Proof. split; [apply trimmed_trim | intros ->; apply trim_trimmed]. Qed.

Lemma trim_blank (s : string) : trim s = EmptyString <-> blank s.
Proof.
  split.
  - intros Ht. destruct (trim_trimmed s) as (l & r & Hs & Hl & Hr & _).
    rewrite Ht, append_nil in Hs. rewrite Hs. apply blank_app. auto.
  - intros Hs. symmetry. apply trimmed_trim. exists s, EmptyString.
    rewrite append_nil, append_nil_r. cbn [blank starts_white].
    split; [reflexivity|]. split; [exact Hs|]. split; [exact I|].
    split; [tauto | apply ends_white_nil].
Qed.

(** *** Lower case *)

Lemma lower_ascii_lowerOf (a : ascii) : lower_ascii a = lowerOf a.
Proof. destruct a as [[] [] [] [] [] [] [] []]; reflexivity. Qed.

Lemma toLowerCase_folded (s : string) : toLowerCase s = folded s.
Proof.
  induction s as [|a s IH]; cbn [toLowerCase folded]; [reflexivity|].
  rewrite lower_ascii_lowerOf, IH. reflexivity.
Qed.

(** The key of an item is its description trimmed, then in lower case. *)
Lemma key_of_iff (d k : string) : key_of d k <-> k = toLowerCase (trim d).
Proof.
  unfold key_of. split.
  - intros (core & Hc & ->). apply trimmed_trim in Hc. subst core.
    symmetry. apply toLowerCase_folded.
  - intros ->. exists (trim d). split; [apply trim_trimmed | apply toLowerCase_folded].
Qed.

Global Instance key_of_dec (d k : string) : Decision (key_of d k).
Proof.
  destruct (decide (k = toLowerCase (trim d))) as [H|H].
  - left. apply key_of_iff, H.
  - right. intros Hk. apply H, key_of_iff, Hk.
Defined.

(** *** Containment *)

Lemma startsWith_spec (p s : string) :
  startsWith p s = true <-> exists b, s = p +:+ b.
Proof.
  revert s. induction p as [|c p IH]; intros s; cbn [startsWith].
  - split; [intros _; exists s; rewrite append_nil; reflexivity | reflexivity].
  - destruct s as [|d s].
    + split; [discriminate|]. intros [b Hb]. rewrite append_cons in Hb. discriminate.
    + rewrite andb_true_iff, bool_decide_eq_true, IH. split.
      * intros [-> [b ->]]. exists b. rewrite append_cons. reflexivity.
      * intros [b Hb]. rewrite append_cons in Hb. injection Hb as -> ->. eauto.
Qed.

(** [includes] is containment: [p] occurs somewhere in [s]. *)
Lemma includes_spec (s p : string) :
  includes s p = true <-> exists a b, s = a +:+ p +:+ b.
Proof.
  induction s as [|c s IH]; cbn [includes]; rewrite orb_true_iff, startsWith_spec.
  - split.
    + intros [[b Hb]|?]; [|discriminate]. exists EmptyString, b.
      rewrite append_nil. exact Hb.
    + intros [a [b Hab]]. left. destruct a as [|d a].
      * rewrite append_nil in Hab. eauto.
      * rewrite append_cons in Hab. discriminate.
  - rewrite IH. split.
    + intros [[b Hb]|[a [b Hab]]].
      * exists EmptyString, b. rewrite append_nil. exact Hb.
      * exists (String c a), b. rewrite append_cons, Hab. reflexivity.
    + intros [a [b Hab]]. destruct a as [|d a].
      * left. rewrite append_nil in Hab. eauto.
      * right. rewrite append_cons in Hab. injection Hab as _ ->. eauto.
Qed.

Lemma includes_contains (s p : string) : includes s p = true <-> contains s p.
Proof. apply includes_spec. Qed.

Lemma mentions_iff (text part : string) :
  mentions text part <-> includes (toLowerCase text) (toLowerCase part) = true.
Proof.
  unfold mentions. rewrite includes_contains, !toLowerCase_folded. reflexivity.
Qed.

Global Instance contains_dec (text part : string) : Decision (contains text part).
Proof.
  destruct (includes text part) eqn:H.
  - left. apply includes_contains, H.
  - right. intros Hc. apply includes_contains in Hc. congruence.
Defined.

Global Instance mentions_dec (text part : string) : Decision (mentions text part).
Proof. unfold mentions. apply _. Defined.

End TextFacts.

(** The expenses whose description has the key [k]. *)
Abbreviation keyed k expenses :=
  (filter (fun e : Expense => key_of (description e) k) expenses).

(** ** Lists *)

Section ListFacts.

Lemma filter_ext_in {A : Type} (P Q : A -> Prop)
    `{!forall x, Decision (P x), !forall x, Decision (Q x)} (l : list A) :
  (forall x, x ∈ l -> P x <-> Q x) -> filter P l = filter Q l.
Proof.
  induction l as [|a l IH]; intros Hext; [reflexivity|].
  rewrite !filter_cons.
  assert (Ha : P a <-> Q a) by (apply Hext; left).
  assert (Hl : filter P l = filter Q l)
    by (apply IH; intros x Hx; apply Hext; right; exact Hx).
  destruct (decide (P a)), (decide (Q a)); try tauto; rewrite Hl; reflexivity.
Qed.

End ListFacts.

(** ** Arithmetic of [number] *)

Section NumberFacts.

Lemma nadd_comm (a b : number) : nadd a b = nadd b a.
Proof. destruct a, b; simpl; try reflexivity. f_equal. ring. Qed.

Lemma nadd_assoc (a b c : number) : nadd a (nadd b c) = nadd (nadd a b) c.
Proof. destruct a, b, c; simpl; try reflexivity. f_equal. ring. Qed.

Lemma nadd_0_l (a : number) : nadd (Fin 0%Qc) a = a.
Proof. destruct a; simpl; try reflexivity. f_equal. ring. Qed.

Lemma nadd_0_r (a : number) : nadd a (Fin 0%Qc) = a.
Proof. rewrite nadd_comm. apply nadd_0_l. Qed.

Lemma nneg_nadd (a b : number) : nneg (nadd a b) = nadd (nneg a) (nneg b).
Proof. destruct a, b; simpl; try reflexivity. f_equal. ring. Qed.

Lemma nsub_diag_fin (q : Qc) : nsub (Fin q) (Fin q) = Fin 0%Qc.
Proof. unfold nsub. simpl. f_equal. ring. Qed.

Lemma fold_nadd_shift (l : list number) (a b : number) :
  fold_left nadd l (nadd a b) = nadd a (fold_left nadd l b).
Proof.
  revert b. induction l as [|x l IH]; intros b; simpl; [reflexivity|].
  rewrite <- nadd_assoc. apply IH.
Qed.

Lemma nsum_nil : nsum [] = Fin 0%Qc.
Proof. reflexivity. Qed.

Lemma nsum_cons (a : number) (l : list number) : nsum (a :: l) = nadd a (nsum l).
Proof.
  unfold nsum. cbn [fold_left].
  rewrite (nadd_comm (Fin 0%Qc) a). apply fold_nadd_shift.
Qed.

Lemma nsum_app (l1 l2 : list number) : nsum (l1 ++ l2) = nadd (nsum l1) (nsum l2).
Proof.
  induction l1 as [|a l1 IH]; cbn [app].
  - change (nsum []) with (Fin 0%Qc). rewrite nadd_0_l. reflexivity.
  - rewrite !nsum_cons, IH. apply nadd_assoc.
Qed.

Lemma nsum_snoc (l : list number) (a : number) : nsum (l ++ [a]) = nadd (nsum l) a.
Proof.
  rewrite nsum_app, nsum_cons, nsum_nil, nadd_0_r. reflexivity. Qed.

Lemma nsum_perm (l1 l2 : list number) : l1 ≡ₚ l2 -> nsum l1 = nsum l2.
Proof.
  induction 1 as [|x l l' _ IH|x y l|l l' l'' _ IH1 _ IH2].
  - reflexivity.
  - rewrite !nsum_cons, IH. reflexivity.
  - rewrite !nsum_cons, !nadd_assoc, (nadd_comm y x). reflexivity.
  - congruence.
Qed.

Lemma nsum_zero (l : list number) :
  Forall (fun a => a = Fin 0%Qc) l -> nsum l = Fin 0%Qc.
Proof.
  induction 1 as [|a l Ha _ IH]; [reflexivity|].
  rewrite nsum_cons, Ha, IH. apply nadd_0_l.
Qed.

(** Sums of finite numbers are finite, with the rational sum as value. *)
Lemma nsum_fin (l : list Qc) : nsum (map Fin l) = Fin (Qcsum l).
Proof.
  induction l as [|q l IH]; [reflexivity|].
  simpl map. rewrite nsum_cons, IH. reflexivity.
Qed.

Lemma Qcsum_app (l1 l2 : list Qc) : Qcsum (l1 ++ l2) = (Qcsum l1 + Qcsum l2)%Qc.
Proof. induction l1 as [|q l1 IH]; simpl; [ring | rewrite IH; ring]. Qed.

End NumberFacts.

(** ** Totals over a dictionary *)

Section Totals.
Import SplitAnalysis.
Context {A : Type}.
Implicit Types (f : A -> number) (m : gmap string A).

Lemma total_empty f : total f (∅ : gmap string A) = Fin 0%Qc.
Proof. unfold total. rewrite map_to_list_empty. reflexivity. Qed.

Lemma total_insert_fresh f m k v :
  m !! k = None -> total f (<[k := v]> m) = nadd (f v) (total f m).
Proof.
  intros Hk. unfold total.
  rewrite (nsum_perm _ (map (fun kv => f (snd kv)) ((k, v) :: map_to_list m))).
  - cbn [map snd]. apply nsum_cons.
  - apply Permutation_map, map_to_list_insert, Hk.
Qed.

Lemma total_delete f m k v :
  m !! k = Some v -> total f m = nadd (f v) (total f (delete k m)).
Proof.
  intros Hk. unfold total.
  rewrite (nsum_perm _ (map (fun kv => f (snd kv)) ((k, v) :: map_to_list (delete k m)))).
  - cbn [map snd]. apply nsum_cons.
  - apply Permutation_map. symmetry. apply map_to_list_delete, Hk.
Qed.

Lemma alter_as_insert (g : A -> A) m k v :
  m !! k = Some v -> alter g k m = <[k := g v]> (delete k m).
Proof.
  intros Hk. apply map_eq. intros j.
  destruct (decide (k = j)) as [<-|Hne].
  - rewrite lookup_alter_eq, Hk, lookup_insert_eq. reflexivity.
  - rewrite lookup_alter_ne, lookup_insert_ne, lookup_delete_ne by done.
    reflexivity.
Qed.

Lemma total_alter f (g : A -> A) m k v :
  m !! k = Some v ->
  total f (alter g k m) = nadd (f (g v)) (total f (delete k m)).
Proof.
  intros Hk. rewrite (alter_as_insert g m k v Hk).
  apply total_insert_fresh, lookup_delete_eq.
Qed.

Lemma alter_absent (g : A -> A) m k : m !! k = None -> alter g k m = m.
Proof.
  intros Hk. apply map_eq. intros j.
  destruct (decide (k = j)) as [<-|Hne].
  - rewrite lookup_alter_eq, Hk. reflexivity.
  - rewrite lookup_alter_ne by done. reflexivity.
Qed.

(** An update that leaves the column alone leaves its total alone. *)
Lemma total_alter_same f (g : A -> A) m k :
  (forall v, f (g v) = f v) -> total f (alter g k m) = total f m.
Proof.
  intros Hg. destruct (m !! k) as [v|] eqn:Hk.
  - rewrite (total_alter f g m k v Hk), Hg. symmetry. apply total_delete, Hk.
  - rewrite alter_absent by done. reflexivity.
Qed.

(** An update that adds [a] to the column of a present entry adds [a] to
    the total. *)
Lemma total_alter_add f (g : A -> A) m k a :
  is_Some (m !! k) ->
  (forall v, f (g v) = nadd (f v) a) ->
  total f (alter g k m) = nadd (total f m) a.
Proof.
  intros [v Hk] Hg.
  rewrite (total_alter f g m k v Hk), Hg, (total_delete f m k v Hk).
  rewrite <- !nadd_assoc. f_equal. apply nadd_comm.
Qed.

Lemma total_fmap {B : Type} (h : B -> number) (g : A -> B) m :
  total h (g <$> m) = total (fun v => h (g v)) m.
Proof.
  unfold total. rewrite map_to_list_fmap.
  change (@fmap list _) with (@map). rewrite map_map.
  f_equal.
Qed.

End Totals.

(** ** Settlement *)

Section Settlement.
Import SplitAnalysis.
Implicit Types (data : gmap string Entry) (people : list string)
  (expenses : list Expense) (e : Expense) (k : string).

Lemma total_zero {A : Type} (f : A -> number) (m : gmap string A) :
  (forall k v, m !! k = Some v -> f v = Fin 0%Qc) -> total f m = Fin 0%Qc.
Proof.
  intros Hz. unfold total. apply nsum_zero, Forall_forall.
  intros a Ha. apply list_elem_of_In, in_map_iff in Ha as [[k v] [<- Hin]].
  apply (Hz k v), elem_of_map_to_list, list_elem_of_In, Hin.
Qed.

Lemma init_fold_lookup people data k :
  fold_left (fun d p => <[p := zero]> d) people data !! k
  = if decide (k ∈ people) then Some zero else data !! k.
Proof.
  revert data. induction people as [|p people IH]; intros data; cbn [fold_left].
  - rewrite decide_False by apply not_elem_of_nil. reflexivity.
  - rewrite IH. destruct (decide (k ∈ people)) as [Hin|Hout].
    + rewrite decide_True by (right; exact Hin). reflexivity.
    + destruct (decide (p = k)) as [-> |Hne].
      * rewrite decide_True by left. apply lookup_insert_eq.
      * rewrite decide_False by (intros Hc; apply elem_of_cons in Hc as [?|?]; congruence).
        apply lookup_insert_ne, Hne.
Qed.

Lemma init_lookup people k :
  init people !! k = if decide (k ∈ people) then Some zero else None.
Proof. unfold init. rewrite init_fold_lookup, lookup_empty. reflexivity. Qed.

Lemma total_init (f : Entry -> number) people :
  f zero = Fin 0%Qc -> total f (init people) = Fin 0%Qc.
Proof.
  intros Hf. apply total_zero. intros k v. rewrite init_lookup.
  destruct (decide (k ∈ people)); [|discriminate].
  intros [= <-]. exact Hf.
Qed.

Lemma ensure_lookup k data j :
  ensure k data !! j
  = if decide (k = j) then Some (default zero (data !! k)) else data !! j.
Proof.
  unfold ensure. destruct (data !! k) as [v|] eqn:Hk.
  - destruct (decide (k = j)) as [<-|]; [exact Hk | reflexivity].
  - destruct (decide (k = j)) as [<-|Hne].
    + apply lookup_insert_eq.
    + apply lookup_insert_ne, Hne.
Qed.

Lemma ensure_present k data : is_Some (ensure k data !! k).
Proof. rewrite ensure_lookup, decide_True by reflexivity. eauto. Qed.

Lemma total_ensure (f : Entry -> number) k data :
  f zero = Fin 0%Qc -> total f (ensure k data) = total f data.
Proof.
  intros Hf. unfold ensure. destruct (data !! k) eqn:Hk; [reflexivity|].
  rewrite total_insert_fresh, Hf by exact Hk. apply nadd_0_l.
Qed.

(** Entries are never removed. *)
Lemma ensure_keeps k data j : is_Some (data !! j) -> is_Some (ensure k data !! j).
Proof.
  intros Hj. rewrite ensure_lookup. destruct (decide (k = j)); [eauto | exact Hj].
Qed.

Lemma alter_keeps (g : Entry -> Entry) k data j :
  is_Some (data !! j) -> is_Some (alter g k data !! j).
Proof.
  intros [v Hj]. destruct (decide (k = j)) as [<-|Hne].
  - rewrite lookup_alter_eq, Hj. eauto.
  - rewrite lookup_alter_ne, Hj by done. eauto.
Qed.

Lemma share_fold_keeps (a : number) people data j :
  is_Some (data !! j) ->
  is_Some (fold_left (fun d p => add_consumed p a d) people data !! j).
Proof.
  revert data. induction people as [|p people IH]; intros data Hj; cbn [fold_left].
  - exact Hj.
  - apply IH, alter_keeps, Hj.
Qed.

Lemma step_keeps people data e j :
  is_Some (data !! j) -> is_Some (step people data e !! j).
Proof.
  intros Hj. unfold step. case_bool_decide.
  - apply share_fold_keeps, alter_keeps, ensure_keeps, Hj.
  - apply alter_keeps, ensure_keeps, alter_keeps, ensure_keeps, Hj.
Qed.

(** *** The entry of one name *)

Lemma ntimes_S (n : nat) (a : number) : ntimes (S n) a = nadd a (ntimes n a).
Proof. unfold ntimes. cbn [repeat]. apply nsum_cons. Qed.

Lemma share_fold_lookup (a : number) people data k :
  fold_left (fun d p => add_consumed p a d) people data !! k
  = consume (ntimes (listed k people) a) <$> data !! k.
Proof.
  revert data. induction people as [|p people IH]; intros data; cbn [fold_left].
  - destruct (data !! k) as [[pd cs]|]; [|reflexivity].
    unfold consume, listed, ntimes. cbn. rewrite nadd_0_r. reflexivity.
  - rewrite IH. unfold add_consumed, listed. rewrite filter_cons.
    destruct (decide (p = k)) as [-> |Hne].
    + rewrite lookup_alter_eq. destruct (data !! k) as [[pd cs]|]; [|reflexivity].
      cbn [fmap option_fmap option_map length]. rewrite ntimes_S.
      unfold consume. cbn [paid consumed]. rewrite nadd_assoc. reflexivity.
    + rewrite lookup_alter_ne by done. reflexivity.
Qed.

Lemma step_lookup people data e k :
  step people data e !! k
  = let o1 := if decide (payer e = k)
              then Some (pay (Fin (amount e)) (default zero (data !! k)))
              else data !! k in
    if bool_decide (owner e = "Shared")
    then consume (ntimes (listed k people) (splitAmount e people)) <$> o1
    else if decide (owner e = k)
         then Some (consume (Fin (amount e)) (default zero o1))
         else o1.
Proof.
  assert (H1 : add_paid (payer e) (Fin (amount e)) (ensure (payer e) data) !! k
               = if decide (payer e = k)
                 then Some (pay (Fin (amount e)) (default zero (data !! k)))
                 else data !! k).
  { unfold add_paid. destruct (decide (payer e = k)) as [<-|Hne].
    - rewrite lookup_alter_eq, ensure_lookup, decide_True by reflexivity.
      reflexivity.
    - rewrite lookup_alter_ne, ensure_lookup, decide_False by done.
      reflexivity. }
  cbv zeta. unfold step. case_bool_decide.
  - rewrite share_fold_lookup, H1. reflexivity.
  - unfold add_consumed. destruct (decide (owner e = k)) as [<-|Hne].
    + rewrite lookup_alter_eq, ensure_lookup, decide_True by reflexivity.
      rewrite <- H1. reflexivity.
    + rewrite lookup_alter_ne, ensure_lookup, decide_False by done.
      exact H1.
Qed.

(** *** The contract, name by name *)

Lemma paid_by_snoc k expenses e :
  paid_by k (expenses ++ [e])
  = (paid_by k expenses + (if decide (payer e = k) then amount e else 0))%Qc.
Proof.
  unfold paid_by. rewrite filter_app, map_app, Qcsum_app. f_equal.
  rewrite filter_cons, filter_nil.
  destruct (decide (payer e = k)); cbn [map Qcsum]; ring.
Qed.

Lemma consumed_by_snoc k people expenses e :
  consumed_by k people (expenses ++ [e])
  = nadd (consumed_by k people expenses) (share_of k people e).
Proof. unfold consumed_by. rewrite map_app. apply nsum_snoc. Qed.

Lemma known_snoc k people expenses e :
  known k (expenses ++ [e]) people <-> known k expenses people \/ names e k.
Proof.
  unfold known. rewrite Exists_app, Exists_cons, Exists_nil. tauto.
Qed.

Lemma listed_absent k people : k ∉ people -> listed k people = 0%nat.
Proof.
  intros Hk. unfold listed. induction people as [|p people IH]; [reflexivity|].
  rewrite filter_cons. apply not_elem_of_cons in Hk as [Hne Hk].
  rewrite decide_False by congruence. apply IH, Hk.
Qed.

(** Nothing is recorded for a name that is not known. *)
Lemma unknown_nothing k people expenses :
  ~ known k expenses people ->
  paid_by k expenses = 0%Qc /\ consumed_by k people expenses = Fin 0%Qc.
Proof.
  induction expenses as [|e expenses IH] using rev_ind; intros Hk.
  - split; reflexivity.
  - rewrite known_snoc in Hk.
    destruct IH as [IHp IHc]; [tauto|].
    assert (Hpay : payer e <> k) by (unfold names in Hk; tauto).
    assert (Hin : k ∉ people) by (unfold known in Hk; tauto).
    rewrite paid_by_snoc, consumed_by_snoc, IHp, IHc, decide_False by done.
    split; [ring|]. rewrite nadd_0_l. unfold share_of.
    case_bool_decide as Hs.
    + rewrite listed_absent by done. reflexivity.
    + rewrite bool_decide_eq_false_2; [reflexivity|].
      unfold names in Hk. tauto.
Qed.

Lemma collect_snoc expenses people e :
  collect (expenses ++ [e]) people = step people (collect expenses people) e.
Proof. unfold collect. rewrite fold_left_app. reflexivity. Qed.

Local Ltac entry_eq :=
  unfold consume, pay, zero;
  cbn [paid consumed from_option Datatypes.id fmap option_fmap option_map nadd];
  rewrite ?nadd_0_r, ?nadd_0_l, ?Qcplus_0_r, ?Qcplus_0_l;
  reflexivity.

Lemma collect_lookup expenses people k :
  collect expenses people !! k
  = if decide (known k expenses people)
    then Some {| paid := Fin (paid_by k expenses);
                 consumed := consumed_by k people expenses |}
    else None.
Proof.
  induction expenses as [|e expenses IH] using rev_ind.
  - unfold collect. cbn [fold_left]. rewrite init_lookup.
    destruct (decide (k ∈ people)) as [Hin|Hout].
    + rewrite decide_True by (left; exact Hin). reflexivity.
    + rewrite decide_False; [reflexivity|].
      intros [?|Hex]; [done|]. apply Exists_nil in Hex. exact Hex.
  - rewrite collect_snoc, step_lookup, IH. cbv zeta.
    rewrite paid_by_snoc, consumed_by_snoc.
    pose proof (known_snoc k people expenses e) as Hsnoc.
    destruct (decide (known k expenses people)) as [Hk|Hk].
    + rewrite (decide_True (P := known k (expenses ++ [e]) people)) by tauto.
      unfold share_of, splitAmount.
      destruct (decide (payer e = k)) as [Hp|Hp];
        case_bool_decide as Hs;
        try (destruct (decide (owner e = k)) as [Ho|Ho];
             [rewrite (bool_decide_eq_true_2 _ Ho)
             |rewrite (bool_decide_eq_false_2 _ Ho)]);
        entry_eq.
    + destruct (unknown_nothing k people expenses Hk) as [Hp0 Hc0].
      rewrite Hp0, Hc0. unfold share_of, splitAmount.
      assert (Hin : k ∉ people) by (unfold known in Hk; tauto).
      destruct (decide (payer e = k)) as [Hp|Hp];
        case_bool_decide as Hs;
        try (destruct (decide (owner e = k)) as [Ho|Ho];
             [rewrite (bool_decide_eq_true_2 _ Ho)
             |rewrite (bool_decide_eq_false_2 _ Ho)]);
        rewrite ?listed_absent by done;
        (destruct (decide (known k (expenses ++ [e]) people)) as [Hk'|Hk'];
         [|try (exfalso; apply Hk', Hsnoc; right; unfold names; tauto)]);
        try (exfalso; apply Hsnoc in Hk'; unfold names in Hk'; tauto);
        entry_eq.
Qed.

Lemma stats_lookup expenses people k :
  stats expenses people !! k = settlement expenses people k.
Proof.
  unfold stats, settlement. rewrite lookup_fmap, collect_lookup.
  destruct (decide (known k expenses people)); reflexivity.
Qed.

(** C2. For every expense list and participant list, the settlement
    result holds, for each name, exactly what the contract says: an entry
    for every participant, payer and owner of a non-shared expense; paid
    is the sum of the amounts the name paid; consumed adds, for a shared
    expense, the amount divided by the number of active participants to
    each active participant, and the full amount to the owner otherwise;
    net is paid minus consumed.  On the example of the specification the
    result is Me: paid 10, consumed 25, net -15 and Partner: paid 20,
    consumed 5, net 15. *)
Theorem stats_computes_settlement :
  (forall (expenses : list Expense) (people : list string) (k : string),
      stats expenses people !! k = settlement expenses people k)
  /\ stats example_expenses example_people
     = {[ "Me" := {| b_paid := of_Z 10; b_consumed := of_Z 25; net := of_Z (-15) |};
          "Partner" := {| b_paid := of_Z 20; b_consumed := of_Z 5; net := of_Z 15 |} ]}.
Proof.
  split.
  - apply stats_lookup.
  - compute_done.
Qed.

(** *** Payments *)

Lemma total_paid_share_fold (a : number) people data :
  total paid (fold_left (fun d p => add_consumed p a d) people data)
  = total paid data.
Proof.
  revert data. induction people as [|p people IH]; intros data; cbn [fold_left].
  - reflexivity.
  - rewrite IH. apply total_alter_same. reflexivity.
Qed.

Lemma total_paid_step people data e :
  total paid (step people data e) = nadd (total paid data) (Fin (amount e)).
Proof.
  assert (Hpay : total paid (add_paid (payer e) (Fin (amount e)) (ensure (payer e) data))
                 = nadd (total paid data) (Fin (amount e))).
  { unfold add_paid. rewrite total_alter_add with (a := Fin (amount e)).
    - rewrite total_ensure by reflexivity. reflexivity.
    - apply ensure_present.
    - reflexivity. }
  unfold step. case_bool_decide.
  - rewrite total_paid_share_fold. exact Hpay.
  - unfold add_consumed at 1. rewrite total_alter_same by reflexivity.
    rewrite total_ensure by reflexivity. exact Hpay.
Qed.

Lemma total_paid_fold people expenses data :
  total paid (fold_left (step people) expenses data)
  = nadd (total paid data) (Fin (Qcsum (map amount expenses))).
Proof.
  revert data. induction expenses as [|e expenses IH]; intros data; cbn [fold_left map Qcsum].
  - symmetry. apply nadd_0_r.
  - rewrite IH, total_paid_step, <- nadd_assoc. reflexivity.
Qed.

Lemma total_paid_collect expenses people :
  total paid (collect expenses people) = Fin (Qcsum (map amount expenses)).
Proof.
  unfold collect. rewrite total_paid_fold, total_init by reflexivity.
  apply nadd_0_l.
Qed.

(** *** Consumption *)

Lemma Qc_of_Z_add (x y : Z) : Qc_of_Z (x + y) = (Qc_of_Z x + Qc_of_Z y)%Qc.
Proof.
  unfold Qc_of_Z. apply Qc_is_canon. cbn [this Qcplus Q2Qc].
  rewrite !Qred_correct, inject_Z_plus. reflexivity.
Qed.

Lemma Qc_of_nat_S (n : nat) : Qc_of_nat (S n) = (Qc_of_nat n + 1)%Qc.
Proof.
  unfold Qc_of_nat. rewrite Nat2Z.inj_succ, <- Z.add_1_r. apply Qc_of_Z_add.
Qed.

Lemma Qc_of_nat_pos (n : nat) : (0 < n)%nat -> (0 < Qc_of_nat n)%Qc.
Proof.
  intros Hn. unfold Qc_of_nat, Qc_of_Z, Qclt. cbn [this Q2Qc].
  rewrite !Qred_correct. unfold Qlt. cbn. lia.
Qed.

Lemma ntimes_fin (n : nat) (q : Qc) : ntimes n (Fin q) = Fin (Qc_of_nat n * q)%Qc.
Proof.
  induction n as [|n IH].
  - unfold ntimes. cbn [repeat]. change (nsum []) with (Fin 0%Qc).
    f_equal. change (Qc_of_nat 0) with 0%Qc. ring.
  - rewrite ntimes_S, IH, Qc_of_nat_S. cbn [nadd]. f_equal. ring.
Qed.

(** The shares of one shared expense add up to its amount. *)
Lemma shares_add_up (n : nat) (a : Qc) :
  (0 < n)%nat -> ntimes n (ndiv (Fin a) (of_nat n)) = Fin a.
Proof.
  intros Hn. pose proof (Qc_of_nat_pos n Hn) as Hpos.
  assert (Hne : Qc_of_nat n <> 0%Qc).
  { symmetry. apply Qclt_not_eq, Hpos. }
  unfold ndiv, of_nat. rewrite bool_decide_eq_false_2 by exact Hne.
  rewrite ntimes_fin. f_equal. field. exact Hne.
Qed.

Lemma total_consumed_share_fold (a : number) people data :
  (forall p, p ∈ people -> is_Some (data !! p)) ->
  total consumed (fold_left (fun d p => add_consumed p a d) people data)
  = nadd (total consumed data) (ntimes (length people) a).
Proof.
  revert data. induction people as [|p people IH]; intros data Hin; cbn [fold_left length].
  - unfold ntimes. cbn [repeat]. change (nsum []) with (Fin 0%Qc).
    symmetry. apply nadd_0_r.
  - rewrite IH.
    + unfold add_consumed. rewrite total_alter_add with (a := a).
      * rewrite ntimes_S, nadd_assoc. reflexivity.
      * apply Hin. left.
      * reflexivity.
    + intros q Hq. apply alter_keeps, Hin. right. exact Hq.
Qed.

Lemma total_consumed_step people data e :
  (forall p, p ∈ people -> is_Some (data !! p)) ->
  people <> [] \/ owner e <> "Shared" ->
  total consumed (step people data e) = nadd (total consumed data) (Fin (amount e)).
Proof.
  intros Hin Hok. unfold step. case_bool_decide as Hs.
  - rewrite total_consumed_share_fold.
    + unfold add_paid. rewrite total_alter_same by reflexivity.
      rewrite total_ensure by reflexivity. f_equal.
      apply shares_add_up. destruct people; [tauto | cbn; lia].
    + intros p Hp. apply alter_keeps, ensure_keeps, Hin, Hp.
  - unfold add_consumed, add_paid.
    rewrite total_alter_add with (a := Fin (amount e)).
    + rewrite total_ensure by reflexivity.
      rewrite total_alter_same by reflexivity.
      rewrite total_ensure by reflexivity. reflexivity.
    + apply ensure_present.
    + reflexivity.
Qed.

Lemma total_consumed_fold people expenses data :
  (forall p, p ∈ people -> is_Some (data !! p)) ->
  Forall (fun e => people <> [] \/ owner e <> "Shared") expenses ->
  total consumed (fold_left (step people) expenses data)
  = nadd (total consumed data) (Fin (Qcsum (map amount expenses))).
Proof.
  revert data.
  induction expenses as [|e expenses IH]; intros data Hin Hok; cbn [fold_left map Qcsum].
  - symmetry. apply nadd_0_r.
  - apply Forall_cons in Hok as [He Hok]. rewrite IH.
    + rewrite total_consumed_step, <- nadd_assoc by assumption. reflexivity.
    + intros p Hp. apply step_keeps, Hin, Hp.
    + exact Hok.
Qed.

Lemma total_consumed_collect expenses people :
  Forall (fun e => people <> [] \/ owner e <> "Shared") expenses ->
  total consumed (collect expenses people) = Fin (Qcsum (map amount expenses)).
Proof.
  intros Hok. unfold collect. rewrite total_consumed_fold.
  - rewrite total_init by reflexivity. apply nadd_0_l.
  - intros p Hp. rewrite init_lookup, decide_True by exact Hp. eauto.
  - exact Hok.
Qed.

(** *** Net balances *)

Lemma nsum_sub {A : Type} (f g : A -> number) (l : list A) :
  nsum (map (fun x => nsub (f x) (g x)) l) = nsub (nsum (map f l)) (nsum (map g l)).
Proof.
  induction l as [|x l IH]; cbn [map].
  - change (nsum []) with (Fin 0%Qc). symmetry. apply nsub_diag_fin.
  - rewrite !nsum_cons, IH. unfold nsub. rewrite nneg_nadd, <- !nadd_assoc.
    f_equal. rewrite !nadd_assoc. f_equal. apply nadd_comm.
Qed.

Lemma total_net data :
  total net (balance <$> data) = nsub (total paid data) (total consumed data).
Proof. rewrite total_fmap. unfold total. rewrite <- nsum_sub. reflexivity. Qed.

(** Over all the entries of the result the net balances cancel, as long as
    every shared expense has somebody to share it. *)
Lemma stats_zero_sum expenses people :
  Forall (fun e => people <> [] \/ owner e <> "Shared") expenses ->
  total net (stats expenses people) = Fin 0%Qc.
Proof.
  intros Hok. unfold stats.
  rewrite total_net, total_paid_collect, total_consumed_collect by exact Hok.
  apply nsub_diag_fin.
Qed.

(** Every entry of the result belongs to a known name. *)
Lemma stats_entry_known expenses people k b :
  stats expenses people !! k = Some b -> known k expenses people.
Proof.
  rewrite stats_lookup. unfold settlement.
  destruct (decide (known k expenses people)); [tauto | discriminate].
Qed.

(** A total over a dictionary is the sum along any duplicate-free list of
    its keys. *)
Lemma total_along {A : Type} (f : A -> number) (l : list string) (m : gmap string A) :
  NoDup l ->
  (forall k, k ∈ l <-> is_Some (m !! k)) ->
  total f m = nsum (map (fun k => from_option f (Fin 0%Qc) (m !! k)) l).
Proof.
  revert m. induction l as [|k l IH]; intros m Hnd Hkeys.
  - assert (Hm : m = ∅).
    { apply map_eq. intros k. rewrite lookup_empty.
      destruct (m !! k) eqn:Hk; [|reflexivity].
      exfalso. apply (not_elem_of_nil k), Hkeys. eauto. }
    rewrite Hm. apply total_empty.
  - apply NoDup_cons in Hnd as [Hk Hnd].
    destruct (proj1 (Hkeys k) ltac:(left)) as [v Hv].
    cbn [map]. rewrite nsum_cons, Hv. cbn [from_option].
    rewrite (total_delete f m k v Hv). f_equal.
    rewrite (IH (delete k m) Hnd).
    + f_equal. apply map_ext_in. intros j Hj.
      rewrite lookup_delete_ne; [reflexivity|].
      intros ->. apply Hk, list_elem_of_In, Hj.
    + intros j. destruct (decide (k = j)) as [<-|Hne].
      * rewrite lookup_delete_eq. split; [contradiction|].
        intros [? ?]. discriminate.
      * rewrite lookup_delete_ne by exact Hne. rewrite <- Hkeys.
        rewrite elem_of_cons. split; [tauto|]. intros [?|?]; [congruence | assumption].
Qed.

(** C1, as amended.  When every payer is an active participant, and every
    owner is an active participant or "Shared", the net balances of the
    participants add up to zero (exactly, in exact arithmetic, hence
    within the 0.01 epsilon): both as the total of the entries of the
    result whose name is in the list and, for a list without repetition,
    as the sum of [net] along the list. *)
Theorem participants_zero_sum (expenses : list Expense) (people : list string) :
  Forall (fun e => payer e ∈ people) expenses ->
  Forall (fun e => owner e ∈ people \/ owner e = "Shared") expenses ->
  net_of_participants people (stats expenses people) = Fin 0%Qc
  /\ settled (net_of_participants people (stats expenses people)) = true
  /\ (NoDup people -> net_along people (stats expenses people) = Fin 0%Qc).
Proof.
  intros Hpay Hown.
  assert (Hkeys : forall k b, stats expenses people !! k = Some b -> k ∈ people).
  { intros k b Hkb.
    destruct (stats_entry_known _ _ _ _ Hkb) as [Hin|Hex]; [exact Hin|].
    apply Exists_exists in Hex as [e [He [Hp|[Hns Ho]]]].
    - rewrite Forall_forall in Hpay. rewrite <- Hp. apply Hpay, He.
    - rewrite Forall_forall in Hown. destruct (Hown e He) as [Hin|Hs].
      + rewrite <- Ho. exact Hin.
      + contradiction. }
  assert (Hall : filter (fun kv => fst kv ∈ people) (stats expenses people)
                 = stats expenses people).
  { apply map_filter_id. intros k b Hkb. cbn [fst]. eapply Hkeys, Hkb. }
  assert (Hsum : total net (stats expenses people) = Fin 0%Qc).
  { apply stats_zero_sum.
    rewrite Forall_forall in Hpay. apply Forall_forall. intros e He. left.
    intros ->. specialize (Hpay e He). apply elem_of_nil in Hpay. exact Hpay. }
  assert (Hzero : net_of_participants people (stats expenses people) = Fin 0%Qc).
  { unfold net_of_participants. rewrite Hall. exact Hsum. }
  split; [exact Hzero|]. split; [rewrite Hzero; reflexivity|].
  intros Hnd. unfold net_along.
  rewrite <- (total_along net people (stats expenses people) Hnd); [exact Hsum|].
  intros k. split.
  - intros Hk. rewrite stats_lookup. unfold settlement.
    rewrite decide_True by (left; exact Hk). eauto.
  - intros [b Hb]. eapply Hkeys, Hb.
Qed.

Lemma participants_zero_sum_witness :
  net_of_participants example_people (stats example_expenses example_people)
  = Fin 0%Qc
  /\ settled (net_of_participants example_people
                (stats example_expenses example_people)) = true
  /\ (NoDup example_people
      -> net_along example_people (stats example_expenses example_people)
         = Fin 0%Qc).
Proof.
  apply participants_zero_sum.
  - unfold example_expenses, example_people.
    repeat constructor.
  - unfold example_expenses, example_people.
    repeat (constructor; [first [right; reflexivity | left; repeat constructor]|]).
    constructor.
Defined.

(** C1, as stated, fails: with the participants [Me] and one shared
    expense of 10 paid by "Ghost", who is not a participant, every owner
    is "Shared" and yet the participants' net balances add up to -10. *)
Lemma ghost_payer_breaks_zero_sum :
  Forall (fun e => owner e ∈ ghost_people \/ owner e = "Shared") ghost_expenses
  /\ net_of_participants ghost_people (stats ghost_expenses ghost_people)
     = of_Z (-10)
  /\ net_along ghost_people (stats ghost_expenses ghost_people) = of_Z (-10)
  /\ settled (net_along ghost_people (stats ghost_expenses ghost_people)) = false.
Proof.
  split; [|split; [|split]].
  - constructor; [right; reflexivity | constructor].
  - compute_done.
  - compute_done.
  - vm_compute. reflexivity.
Qed.

(** *** No participants *)

Lemma consumed_by_nobody k expenses :
  consumed_by k [] expenses = Fin (owned_by k expenses).
Proof.
  unfold consumed_by, owned_by.
  induction expenses as [|e expenses IH]; [reflexivity|].
  cbn [map]. rewrite nsum_cons, IH, filter_cons. unfold share_of.
  case_bool_decide as Hs.
  - rewrite decide_False by tauto.
    unfold listed, ntimes. cbn [filter length repeat].
    change (nsum []) with (Fin 0%Qc). apply nadd_0_l.
  - case_bool_decide as Ho.
    + rewrite decide_True by tauto. reflexivity.
    + rewrite decide_False by tauto. apply nadd_0_l.
Qed.

Lemma split_by_zero (e : Expense) : isFinite (splitAmount e []) = false.
Proof.
  unfold splitAmount, ndiv, of_nat. cbn [length].
  rewrite bool_decide_eq_true_2 by reflexivity.
  repeat case_bool_decide; reflexivity.
Qed.

(** C8, as amended.  The engine has no guard: with no active participant
    the split amount of a shared expense is evaluated as amount / 0, which
    is not a finite number.  It is never added to anything, because the
    loop over the participants that would add it is empty; so a shared
    expense adds nothing to any consumption, and every paid, consumed and
    net of the result is finite: consumed is what the name owns outright. *)
Theorem no_participants_shared_skipped (expenses : list Expense) :
  (forall e, isFinite (splitAmount e []) = false)
  /\ (forall k,
        stats expenses [] !! k
        = if decide (known k expenses [])
          then Some {| b_paid := Fin (paid_by k expenses);
                       b_consumed := Fin (owned_by k expenses);
                       net := Fin (paid_by k expenses - owned_by k expenses)%Qc |}
          else None).
Proof.
  split; [exact split_by_zero|].
  intros k. rewrite stats_lookup. unfold settlement.
  rewrite consumed_by_nobody. reflexivity.
Qed.

(** C8, as stated, fails: for a shared expense of 10 and no participant,
    the division by zero takes place and gives Infinity. *)
Lemma shared_split_divides_by_zero :
  owner (sample 10 "Me" "Shared") = "Shared"
  /\ of_nat (length (@nil string)) = Fin 0%Qc
  /\ splitAmount (sample 10 "Me" "Shared") [] = PosInf.
Proof. split; [reflexivity|]. split; [reflexivity|]. vm_compute. reflexivity. Qed.

(** C10. Whatever the participant list and whoever the payers and owners
    are, the paid column of the settlement result adds up to the sum of
    all the expense amounts: each amount is credited to one payer entry,
    created on the fly when the payer is not an active participant. *)
Theorem stats_paid_conserved (expenses : list Expense) (people : list string) :
  total b_paid (stats expenses people) = Fin (Qcsum (map amount expenses)).
Proof.
  unfold stats. rewrite total_fmap. apply total_paid_collect.
Qed.

End Settlement.

(** ** Objects in insertion order *)

Section ObjectFacts.
Import JsObject.
Context {A : Type}.
Implicit Types (obj : list (string * A)) (k : string).

Lemma get_upsert k k' (g : option A -> A) obj :
  get k (upsert k' g obj)
  = if decide (k' = k) then Some (g (get k' obj)) else get k obj.
Proof.
  induction obj as [|[j v] obj IH]; cbn [upsert get].
  - destruct (decide (k' = k)); reflexivity.
  - destruct (decide (j = k')) as [-> |Hj]; cbn [get].
    + destruct (decide (k' = k)); reflexivity.
    + rewrite IH. destruct (decide (k' = k)) as [-> |Hk].
      * rewrite decide_False by exact Hj. reflexivity.
      * reflexivity.
Qed.

Lemma keys_upsert k (g : option A -> A) obj :
  keys (upsert k g obj) = if decide (k ∈ keys obj) then keys obj else keys obj ++ [k].
Proof.
  unfold keys. induction obj as [|[j v] obj IH]; cbn [upsert map fst].
  - rewrite decide_False by apply not_elem_of_nil. reflexivity.
  - destruct (decide (j = k)) as [-> |Hj]; cbn [map fst].
    + rewrite decide_True by left. reflexivity.
    + rewrite IH. destruct (decide (k ∈ map fst obj)) as [Hin|Hout].
      * rewrite decide_True by (right; exact Hin). reflexivity.
      * rewrite decide_False; [reflexivity|].
        intros Hc. apply elem_of_cons in Hc as [?|?]; congruence.
Qed.

Lemma get_Some_elem k v obj : get k obj = Some v -> (k, v) ∈ obj.
Proof.
  induction obj as [|[j w] obj IH]; cbn [get]; [discriminate|].
  destruct (decide (j = k)) as [-> |Hj].
  - intros [= ->]. left.
  - intros Hg. right. apply IH, Hg.
Qed.

Lemma get_None_keys k obj : get k obj = None <-> k ∉ keys obj.
Proof.
  unfold keys. induction obj as [|[j w] obj IH]; cbn [get map fst].
  - split; [intros _; apply not_elem_of_nil | reflexivity].
  - destruct (decide (j = k)) as [-> |Hj].
    + split; [discriminate|]. intros Hc. exfalso. apply Hc. left.
    + rewrite IH, not_elem_of_cons. split; [intros ?; split; congruence | tauto].
Qed.

Lemma elem_get k v obj : NoDup (keys obj) -> (k, v) ∈ obj -> get k obj = Some v.
Proof.
  unfold keys. induction obj as [|[j w] obj IH]; cbn [get map fst]; intros Hnd Hin.
  - apply elem_of_nil in Hin. contradiction.
  - apply NoDup_cons in Hnd as [Hj Hnd].
    apply elem_of_cons in Hin as [[= -> ->]|Hin].
    + rewrite decide_True by reflexivity. reflexivity.
    + rewrite decide_False; [apply IH; assumption|].
      intros ->. apply Hj. apply (list_elem_of_fmap_2 fst _ (k, v)) in Hin. exact Hin.
Qed.

(** A [forEach] that files every element under its key. *)
Section Filing.
Context {E : Type} (key : E -> string) (f : E -> option A -> A).

Local Abbreviation file := (fun (obj : list (string * A)) (e : E) =>
                          upsert (key e) (f e) obj).

Lemma filed_get (l : list E) obj k :
  get k (fold_left file l obj)
  = fold_left (fun slot e => Some (f e slot)) (filter (fun e => key e = k) l)
      (get k obj).
Proof.
  revert obj. induction l as [|e l IH]; intros obj; cbn [fold_left].
  - reflexivity.
  - rewrite IH, filter_cons, get_upsert.
    destruct (decide (key e = k)) as [Hk|Hk].
    + cbn [fold_left]. rewrite Hk. reflexivity.
    + reflexivity.
Qed.

Lemma filed_NoDup (l : list E) obj :
  NoDup (keys obj) -> NoDup (keys (fold_left file l obj)).
Proof.
  revert obj. induction l as [|e l IH]; intros obj Hnd; cbn [fold_left].
  - exact Hnd.
  - apply IH. rewrite keys_upsert.
    destruct (decide (key e ∈ keys obj)) as [Hin|Hout]; [exact Hnd|].
    apply NoDup_app. split; [exact Hnd|]. split.
    + intros x Hx Hx'. apply list_elem_of_singleton in Hx'. congruence.
    + apply NoDup_singleton.
Qed.

Lemma filed_keys (l : list E) obj k :
  k ∈ keys (fold_left file l obj) <-> k ∈ keys obj \/ exists e, e ∈ l /\ key e = k.
Proof.
  revert obj. induction l as [|e l IH]; intros obj; cbn [fold_left].
  - split; [tauto|]. intros [?|[e [He _]]]; [assumption|].
    apply elem_of_nil in He. contradiction.
  - rewrite IH, keys_upsert.
    destruct (decide (key e ∈ keys obj)) as [Hin|Hout].
    + split.
      * intros [?|[x [Hx Hk]]]; [tauto|]. right. exists x. split; [right|]; assumption.
      * intros [?|[x [Hx Hk]]]; [tauto|].
        apply elem_of_cons in Hx as [-> |Hx]; [left; congruence|].
        right. exists x. tauto.
    + rewrite elem_of_app, list_elem_of_singleton. split.
      * intros [[?| ->]|[x [Hx Hk]]]; [tauto| |].
        -- right. exists e. split; [left|reflexivity].
        -- right. exists x. split; [right|]; assumption.
      * intros [?|[x [Hx Hk]]]; [tauto|].
        apply elem_of_cons in Hx as [-> |Hx]; [left; right; congruence|].
        right. exists x. tauto.
Qed.

Lemma filed_order (l : list E) obj :
  keys (fold_left file l obj) = keys obj ++ firsts (keys obj) (map key l).
Proof.
  revert obj. induction l as [|e l IH]; intros obj; cbn [fold_left map firsts].
  - rewrite app_nil_r. reflexivity.
  - rewrite IH, keys_upsert.
    destruct (decide (key e ∈ keys obj)); [reflexivity|].
    rewrite <- app_assoc. reflexivity.
Qed.

End Filing.

(** An object is determined by its keys and its lookups. *)
Lemma object_by_keys (F : string -> A) obj :
  NoDup (keys obj) ->
  (forall k v, get k obj = Some v -> v = F k) ->
  obj = map (fun k => (k, F k)) (keys obj).
Proof.
  unfold keys. induction obj as [|[j w] obj IH]; cbn [map fst]; intros Hnd HF.
  - reflexivity.
  - apply NoDup_cons in Hnd as [Hj Hnd]. f_equal.
    + f_equal. apply HF. cbn [get]. rewrite decide_True by reflexivity. reflexivity.
    + apply IH; [exact Hnd|]. intros k v Hk. apply HF. cbn [get].
      rewrite decide_False; [exact Hk|]. intros ->. apply Hj.
      apply get_Some_elem in Hk.
      apply (list_elem_of_fmap_2 fst _ (k, v)) in Hk. exact Hk.
Qed.

End ObjectFacts.

Section FirstsFacts.
Import JsObject.

Lemma firsts_elem (seen l : list string) (s : string) :
  s ∈ firsts seen l <-> s ∈ l /\ s ∉ seen.
Proof.
  revert seen. induction l as [|x l IH]; intros seen; cbn [firsts].
  - split; [intros H; apply elem_of_nil in H; contradiction|].
    intros [H _]. apply elem_of_nil in H. contradiction.
  - destruct (decide (x ∈ seen)) as [Hin|Hout].
    + rewrite IH, elem_of_cons. split; [tauto|].
      intros [[-> |?] ?]; [contradiction | tauto].
    + rewrite elem_of_cons, IH, elem_of_cons, elem_of_app, list_elem_of_singleton.
      split.
      * intros [-> |[? ?]]; [tauto|]. tauto.
      * intros [[-> |?] ?]; [tauto|].
        destruct (decide (s = x)); [tauto|]. right. tauto.
Qed.

End FirstsFacts.

(** ** Sorting *)

Section SortFacts.
Import JsObject.
Context {A : Type} (cmp : A -> A -> Z).

Lemma sort_insert_perm (x : A) (l : list A) : sort_insert cmp x l ≡ₚ x :: l.
Proof.
  induction l as [|y l IH]; cbn [sort_insert]; [reflexivity|].
  destruct (0 <? cmp x y); [|reflexivity].
  rewrite IH. apply perm_swap.
Qed.

Lemma sort_perm (l : list A) : sort cmp l ≡ₚ l.
Proof.
  unfold sort. induction l as [|x l IH]; cbn [fold_right]; [reflexivity|].
  rewrite sort_insert_perm, IH. reflexivity.
Qed.

Lemma sort_length (l : list A) : length (sort cmp l) = length l.
Proof. apply Permutation_length, sort_perm. Qed.

(** A comparator that puts the larger [key] first. *)
Context (key : A -> Z) (Hcmp : forall x y, cmp x y = key y - key x).

Lemma sort_insert_sorted (x : A) (l : list A) :
  StronglySorted Z.ge (map key l) ->
  StronglySorted Z.ge (map key (sort_insert cmp x l)).
Proof.
  induction l as [|y l IH]; cbn [sort_insert map]; intros Hs.
  - repeat constructor.
  - apply StronglySorted_inv in Hs as [Hs Hy].
    destruct (0 <? cmp x y) eqn:Hlt.
    + apply Z.ltb_lt in Hlt. rewrite Hcmp in Hlt. cbn [map].
      constructor; [apply IH, Hs|].
      rewrite (Permutation_map key (sort_insert_perm x l)). cbn [map].
      constructor; [lia | exact Hy].
    + apply Z.ltb_ge in Hlt. rewrite Hcmp in Hlt. cbn [map].
      constructor; [constructor; assumption|].
      constructor; [lia|].
      eapply Forall_impl; [exact Hy|]. cbn. intros z Hz. lia.
Qed.

Lemma sort_sorted (l : list A) : StronglySorted Z.ge (map key (sort cmp l)).
Proof.
  unfold sort. induction l as [|x l IH]; cbn [fold_right].
  - constructor.
  - apply sort_insert_sorted, IH.
Qed.

End SortFacts.

(** ** The order of the keys *)

Section EntriesFacts.
Import JsObject.

Lemma entries_perm {A : Type} (obj : list (string * A)) : entries obj ≡ₚ obj.
Proof. unfold entries. rewrite (sort_perm byIndex). apply filter_app_complement. Qed.

Lemma enumerated_perm (names : list string) : enumerated names ≡ₚ names.
Proof. unfold enumerated. rewrite (sort_perm byNumber). apply filter_app_complement. Qed.

Lemma sort_insert_map {A B : Type} (f : A -> B) (cmp : A -> A -> Z) (cmp' : B -> B -> Z)
    (x : A) (l : list A) :
  (forall x y, cmp x y = cmp' (f x) (f y)) ->
  map f (sort_insert cmp x l) = sort_insert cmp' (f x) (map f l).
Proof.
  intros Hcmp. induction l as [|y l IH]; cbn [sort_insert map]; [reflexivity|].
  rewrite <- Hcmp. destruct (0 <? cmp x y); cbn [map]; [rewrite IH|]; reflexivity.
Qed.

Lemma sort_map {A B : Type} (f : A -> B) (cmp : A -> A -> Z) (cmp' : B -> B -> Z)
    (l : list A) :
  (forall x y, cmp x y = cmp' (f x) (f y)) ->
  map f (sort cmp l) = sort cmp' (map f l).
Proof.
  intros Hcmp. unfold sort. induction l as [|x l IH]; cbn [fold_right map]; [reflexivity|].
  rewrite (sort_insert_map f cmp cmp') by exact Hcmp. rewrite IH. reflexivity.
Qed.

Lemma filter_map {A B : Type} (f : A -> B) (P : B -> Prop) `{!forall y, Decision (P y)}
    (l : list A) :
  map f (filter (fun x => P (f x)) l) = filter P (map f l).
Proof.
  induction l as [|x l IH]; cbn [map]; [reflexivity|].
  rewrite !filter_cons. destruct (decide (P (f x))); cbn [map]; rewrite IH; reflexivity.
Qed.

(** The keys of an object come in the order of [enumerated]. *)
Lemma keys_entries {A : Type} (obj : list (string * A)) :
  keys (entries obj) = enumerated (keys obj).
Proof.
  unfold keys, entries, enumerated. rewrite map_app.
  pose proof (filter_map fst (fun s => is_Some (array_index s)) obj) as Hyes.
  pose proof (filter_map fst (fun s => ~ is_Some (array_index s)) obj) as Hno.
  cbv beta in Hyes, Hno.
  rewrite (sort_map fst byIndex byNumber) by reflexivity.
  rewrite Hyes, Hno. reflexivity.
Qed.

Lemma entries_named {A : Type} (F : string -> A) (names : list string) :
  entries (map (fun s => (s, F s)) names) = map (fun s => (s, F s)) (enumerated names).
Proof.
  unfold entries, enumerated. rewrite map_app.
  pose proof (filter_map (fun s => (s, F s))
                (fun kv : string * A => is_Some (array_index (fst kv))) names) as Hyes.
  pose proof (filter_map (fun s => (s, F s))
                (fun kv : string * A => ~ is_Some (array_index (fst kv))) names) as Hno.
  cbv beta in Hyes, Hno. cbn [fst] in Hyes, Hno.
  rewrite (sort_map (fun s => (s, F s)) byNumber byIndex) by reflexivity.
  rewrite Hyes, Hno. reflexivity.
Qed.

Lemma entries_elem {A : Type} (obj : list (string * A)) (kv : string * A) :
  kv ∈ entries obj <-> kv ∈ obj.
Proof. rewrite entries_perm. reflexivity. Qed.

End EntriesFacts.

Section SortedTimes.
Import JsObject ShelfLifeInsights.

Local Instance Zge_trans : Transitive Z.ge.
Proof. intros x y z. lia. Qed.
Local Instance Zge_antisymm : AntiSymm (=) Z.ge.
Proof. intros x y. lia. Qed.
Local Instance Zge_total : Total Z.ge.
Proof. intros x y. lia. Qed.








End SortedTimes.

(** ** Replenishment *)

Section Replenishment.
Import JsObject ShelfLifeInsights.
Variable getTime : string -> Z.

Lemma reaches_spec (x c : Z) (r : Q) :
  reaches x c r = true <-> (c * Qnum r <= x * Zpos (Qden r)).
Proof.
  unfold reaches. rewrite bool_decide_eq_true.
  unfold Qcle, Qc_of_Z. cbn [this Qcmult Q2Qc].
  rewrite !Qred_correct. unfold Qle. cbn [Qnum Qden Qmult inject_Z].
  rewrite Z.mul_1_r, Pos.mul_1_l. reflexivity.
Qed.



Lemma totalDays_gaps (l : list string) : totalDays getTime l = gaps (map getTime l).
Proof.
  induction l as [|a [|b l] IH]; try reflexivity.
  cbn [totalDays map gaps] in *. rewrite IH. reflexivity.
Qed.

(** *** The groups *)

Lemma entered_some (ps : list Expense) (g : Group) :
  exists g',
    fold_left (fun slot e => Some (enter getTime e slot)) ps (Some g) = Some g'
    /\ dates g' = dates g ++ map date ps
    /\ g_category g' = g_category g.
Proof.
  revert g. induction ps as [|e ps IH]; intros g; cbn [fold_left map].
  - exists g. rewrite app_nil_r. auto.
  - destruct (IH (enter getTime e (Some g))) as [g' [Hf [Hd Hc]]].
    exists g'. split; [exact Hf|]. cbn [enter dates g_category] in Hd, Hc.
    rewrite Hd, Hc, <- app_assoc. auto.
Qed.

Lemma entered_none (e : Expense) (ps : list Expense) :
  exists g',
    fold_left (fun slot e => Some (enter getTime e slot)) (e :: ps) None = Some g'
    /\ dates g' = map date (e :: ps)
    /\ g_category g' = category e.
Proof.
  cbn [fold_left].
  destruct (entered_some ps (enter getTime e None)) as [g' [Hf [Hd Hc]]].
  exists g'. split; [exact Hf|]. split; assumption.
Qed.

Lemma items_NoDup (expenses : list Expense) : NoDup (keys (items getTime expenses)).
Proof. unfold items. apply filed_NoDup. constructor. Qed.


Lemma items_group (expenses : list Expense) (k : string) (g : Group) :
  (k, g) ∈ items getTime expenses ->
  purchases k expenses <> []
  /\ dates g = map date (purchases k expenses)
  /\ g_category g ∈ map category (purchases k expenses).
Proof.
  intros Hin. apply elem_get in Hin; [|apply items_NoDup].
  unfold items in Hin. rewrite filed_get in Hin. cbn [get] in Hin.
  fold (purchases k expenses) in Hin.
  destruct (purchases k expenses) as [|e ps]; [discriminate|].
  destruct (entered_none e ps) as [g' [Hf [Hd Hc]]].
  rewrite Hf in Hin. injection Hin as <-.
  split; [discriminate|]. split; [exact Hd|].
  rewrite Hc. cbn [map]. left.
Qed.



(** *** The statistics of one group *)




End Replenishment.

Section ReplenishmentCases.
Import ShelfLifeInsights.


End ReplenishmentCases.

(** ** The two copies of the shortage logic *)

Section Copies.
Import JsObject.

(** C4 fails on the code.  An item bought on 1 and 11 January (cycle: 10
    days) is, on 19 January, 8 days old: the predictor lists it as
    "Running Low" (8 >= 0.8 * 10), the optimizer, whose copy of the test
    uses 0.9 of the cycle, does not treat it as needed (8 < 9). *)
Theorem needed_sets_differ :
  let now := isoTime "2024-01-19" in
  map (fun i => toLowerCase (trim (ShelfLifeInsights.s_name i)))
      (ShelfLifeInsights.shoppingList isoTime now StorePlanner.cycle_history)
  = ["milk"]
  /\ map ShelfLifeInsights.status
         (ShelfLifeInsights.shoppingList isoTime now StorePlanner.cycle_history)
     = [ShelfLifeInsights.RunningLow]
  /\ StorePlanner.neededItems isoTime now StorePlanner.cycle_history = [].
Proof. cbv zeta. repeat split; vm_compute; reflexivity. Qed.

(** C9 fails on the code.  With the purchases "milk" (1 January), "MILK"
    (10 January) and "Milk" (5 January) met in this order, both components
    end with the display name "Milk", although the most recent purchase
    is "MILK": each new description is compared with the first date of
    the group, not with the latest one. *)
Theorem display_name_not_most_recent :
  map ShelfLifeInsights.s_name
      (ShelfLifeInsights.itemStats isoTime (isoTime "2024-01-20")
         StorePlanner.casing_history)
  = ["Milk"]
  /\ map StorePlanner.name
         (values (StorePlanner.itemGroups isoTime StorePlanner.casing_history))
     = ["Milk"]
  /\ exists e,
       e ∈ StorePlanner.casing_history
       /\ description e = "MILK"
       /\ Forall (fun e' => e' = e \/ isoTime (date e') < isoTime (date e))
                 StorePlanner.casing_history.
Proof.
  split; [vm_compute; reflexivity|].
  split; [vm_compute; reflexivity|].
  exists (StorePlanner.bought "MILK" "2024-01-10" "A" 2).
  split; [right; left|]. split; [reflexivity|].
  repeat constructor; first [left; reflexivity | right; vm_compute; reflexivity].
Qed.

End Copies.

(** ** The groups of the planner *)

Section Groups.
Import JsObject.
Variable getTime : string -> Z.

Lemma upsert_related {A B : Type} (R : A -> B -> Prop) (k : string)
    (f : option A -> A) (g : option B -> B)
    (objA : list (string * A)) (objB : list (string * B)) :
  Forall2 (fun x y => fst x = fst y /\ R (snd x) (snd y)) objA objB ->
  R (f None) (g None) ->
  (forall a b, R a b -> R (f (Some a)) (g (Some b))) ->
  Forall2 (fun x y => fst x = fst y /\ R (snd x) (snd y))
    (upsert k f objA) (upsert k g objB).
Proof.
  intros Hall Hnone Hsome.
  induction Hall as [|[ka a] [kb b] la lb [Hk HR] Hl IH]; cbn [upsert].
  - constructor; [split; [reflexivity | exact Hnone] | constructor].
  - cbn [fst snd] in Hk, HR. subst kb. destruct (decide (ka = k)).
    + constructor; [split; [reflexivity | apply Hsome, HR] | exact Hl].
    + constructor; [split; [reflexivity | exact HR] | exact IH].
Qed.

Local Abbreviation same :=
  (fun (g : ShelfLifeInsights.Group) (g' : StorePlanner.Group) =>
     ShelfLifeInsights.dates g = StorePlanner.dates g'
     /\ ShelfLifeInsights.g_category g = StorePlanner.g_category g'
     /\ ShelfLifeInsights.name g = StorePlanner.name g').

(** The two grouping loops build the same groups, in the same order. *)
Lemma groups_agree (expenses : list Expense) :
  Forall2 (fun x y => fst x = fst y /\ same (snd x) (snd y))
    (ShelfLifeInsights.items getTime expenses)
    (StorePlanner.itemGroups getTime expenses).
Proof.
  unfold ShelfLifeInsights.items, StorePlanner.itemGroups.
  assert (Hnil : Forall2 (fun x y => fst x = fst y /\ same (snd x) (snd y))
                   (@nil (string * ShelfLifeInsights.Group))
                   (@nil (string * StorePlanner.Group))) by constructor.
  revert Hnil.
  generalize (@nil (string * ShelfLifeInsights.Group)).
  generalize (@nil (string * StorePlanner.Group)).
  induction expenses as [|e l IH]; intros objB objA Hobj; cbn [fold_left].
  - exact Hobj.
  - apply IH.
    apply (upsert_related same (ShelfLifeInsights.normName e)
             (ShelfLifeInsights.enter getTime e) (StorePlanner.enter getTime e)).
    + exact Hobj.
    + repeat split; reflexivity.
    + intros [da ca na] [db cb nb]. cbn. intros (-> & -> & ->).
      repeat split; reflexivity.
Qed.

Lemma groups_same_keys (expenses : list Expense) :
  keys (StorePlanner.itemGroups getTime expenses)
  = keys (ShelfLifeInsights.items getTime expenses).
Proof.
  unfold keys.
  induction (groups_agree expenses) as [|x y la lb [Hk _] _ IH]; cbn [map].
  - reflexivity.
  - rewrite Hk, IH. reflexivity.
Qed.

Lemma groups_partner (expenses : list Expense) (k : string)
    (g : ShelfLifeInsights.Group) :
  (k, g) ∈ ShelfLifeInsights.items getTime expenses ->
  exists g', (k, g') ∈ StorePlanner.itemGroups getTime expenses /\ same g g'.
Proof.
  induction (groups_agree expenses) as [|x y la lb [Hk HR] _ IH]; intros Hin.
  - apply elem_of_nil in Hin. contradiction.
  - apply elem_of_cons in Hin as [<- |Hin].
    + exists (snd y). cbn [fst snd] in *. split; [|exact HR].
      rewrite Hk. destruct y. left.
    + destruct (IH Hin) as [g' [Hg' Hs]]. exists g'. split; [right; exact Hg' | exact Hs].
Qed.

(** The planner's test, on the statistics the predictor computes. *)
Lemma isNeededNow_stat (now : Z) (g : ShelfLifeInsights.Group)
    (g' : StorePlanner.Group) :
  same g g' ->
  StorePlanner.isNeededNow getTime now g'
  = let i := ShelfLifeInsights.itemStat getTime now g in
    ShelfLifeInsights.reaches (ShelfLifeInsights.daysSinceLastPurchase i)
      (default (ShelfLifeInsights.genericShelfLife i) (ShelfLifeInsights.avgCycle i))
      (9 # 10).
Proof.
  destruct g as [d c n], g' as [d' c' n']. intros Hs. cbn in Hs.
  destruct Hs as (-> & -> & _).
  unfold StorePlanner.isNeededNow, ShelfLifeInsights.itemStat.
  cbn [StorePlanner.dates StorePlanner.g_category ShelfLifeInsights.dates
       ShelfLifeInsights.g_category ShelfLifeInsights.daysSinceLastPurchase
       ShelfLifeInsights.genericShelfLife ShelfLifeInsights.avgCycle].
  change (StorePlanner.cycle getTime) with (ShelfLifeInsights.cycle getTime).
  change (StorePlanner.newestFirst getTime) with (ShelfLifeInsights.newestFirst getTime).
  destruct (ShelfLifeInsights.cycle getTime
              (sort (ShelfLifeInsights.newestFirst getTime) d')); reflexivity.
Qed.

Lemma group_unique {A : Type} (obj : list (string * A)) (k : string) (a b : A) :
  NoDup (keys obj) -> (k, a) ∈ obj -> (k, b) ∈ obj -> a = b.
Proof.
  intros Hnd Ha Hb. apply (elem_get k a obj Hnd) in Ha. apply (elem_get k b obj Hnd) in Hb.
  congruence.
Qed.

Lemma neededItems_elem (now : Z) (expenses : list Expense) (k : string)
    (g' : StorePlanner.Group) :
  (k, g') ∈ StorePlanner.itemGroups getTime expenses ->
  (k ∈ StorePlanner.neededItems getTime now expenses
   <-> StorePlanner.isNeededNow getTime now g' = true).
Proof.
  intros Hin. unfold StorePlanner.neededItems, keys. rewrite list_elem_of_fmap. split.
  - intros [[k' h] [-> Hf]]. apply list_elem_of_filter in Hf as [Hn Hh].
    apply (proj1 (entries_elem _ _)) in Hh. cbn [fst snd] in *.
    rewrite (group_unique _ _ g' h
               (filed_NoDup StorePlanner.normName (StorePlanner.enter getTime)
                  expenses [] (NoDup_nil_2)) Hin Hh).
    exact Hn.
  - intros Hn. exists (k, g'). split; [reflexivity|].
    apply list_elem_of_filter. split; [exact Hn | apply (proj2 (entries_elem _ _)), Hin].
Qed.





Lemma shelfLife_pos (c : string) : 0 < ShelfLifeInsights.shelfLife c.
Proof.
  unfold ShelfLifeInsights.shelfLife, ShelfLifeInsights.SHELF_LIFE_DAYS.
  repeat (case_decide; [cbn; lia|]). lia.
Qed.

End Groups.

(** ** Store optimisation *)

Section StoreOptimisation.
Import JsObject StorePlanner.
Variable getTime : string -> Z.

(** *** Prices by store *)

Lemma tallied_some (l : list Expense) (q : Qc) (n : nat) :
  fold_left (fun slot e => Some (tally e slot)) l (Some {| sum := Fin q; count := n |})
  = Some {| sum := Fin (q + Qcsum (map amount l)); count := n + length l |}.
Proof.
  revert q n. induction l as [|e l IH]; intros q n; cbn [fold_left map Qcsum length].
  - (do 2 f_equal); [f_equal; ring | lia].
  - unfold tally at 2. cbn [sum count nadd]. rewrite IH.
    (do 2 f_equal); [f_equal; ring | lia].
Qed.

Lemma storeStats_get (ps : list Expense) (s : string) :
  get s (storeStats ps)
  = if decide (boughtAt s ps = []) then None else Some (expected ps s).
Proof.
  unfold storeStats. rewrite filed_get. cbn [get].
  fold (boughtAt s ps). unfold expected.
  destruct (boughtAt s ps) as [|e l]; [reflexivity|].
  rewrite decide_False by discriminate.
  cbn [fold_left]. unfold tally at 2. cbn [sum count nadd].
  rewrite tallied_some. cbn [map Qcsum length].
  (do 2 f_equal); try lia. f_equal. ring.
Qed.

Lemma storeStats_keys (ps : list Expense) : keys (storeStats ps) = stores ps.
Proof. unfold storeStats, stores. rewrite filed_order. reflexivity. Qed.

Lemma stores_elem (ps : list Expense) (s : string) :
  s ∈ stores ps <-> boughtAt s ps <> [].
Proof.
  unfold stores, boughtAt. rewrite firsts_elem, list_elem_of_fmap.
  split.
  - intros [[e [-> He]] _] Hnil.
    assert (Hin : e ∈ filter (fun e' => storeOf e' = storeOf e) ps)
      by (apply list_elem_of_filter; auto).
    rewrite Hnil in Hin. apply elem_of_nil in Hin. exact Hin.
  - intros Hne. split; [|apply not_elem_of_nil].
    destruct (filter (fun e => storeOf e = s) ps) as [|e l] eqn:Hf; [congruence|].
    assert (Hin : e ∈ filter (fun e => storeOf e = s) ps) by (rewrite Hf; left).
    apply list_elem_of_filter in Hin as [Hs Hin]. exists e. auto.
Qed.

Lemma storeStats_entries (ps : list Expense) :
  storeStats ps = map (fun s => (s, expected ps s)) (stores ps).
Proof.
  rewrite <- storeStats_keys. apply object_by_keys.
  - unfold storeStats. apply filed_NoDup. constructor.
  - intros s st. rewrite storeStats_get. case_decide; [discriminate|].
    intros [= <-]. reflexivity.
Qed.

Lemma average_expected (ps : list Expense) (s : string) :
  boughtAt s ps <> [] -> average (expected ps s) = Fin (priceAt s ps).
Proof.
  intros Hne. unfold average, expected, priceAt, ndiv, of_nat. cbn [sum count].
  rewrite bool_decide_eq_false_2; [reflexivity|].
  symmetry. apply Qclt_not_eq, Qc_of_nat_pos.
  destruct (boughtAt s ps); [congruence | cbn; lia].
Qed.

(** *** The cheapest store *)

Lemma nlt_fin (x y : Qc) : nlt (Fin x) (Fin y) = bool_decide (x < y)%Qc.
Proof. reflexivity. Qed.

(** The loop from a store [b] already held as cheapest: either [b] stays,
    no later store being strictly cheaper, or the result is the first
    store strictly cheaper than all before it. *)
Lemma cheapest_from (ps : list Expense) (l : list string) (b : string) :
  Forall (fun s => boughtAt s ps <> []) l ->
  exists c,
    fold_left cheaper (map (fun s => (s, expected ps s)) l) (b, Fin (priceAt b ps))
    = (c, Fin (priceAt c ps))
    /\ ((c = b /\ Forall (fun s => (priceAt b ps <= priceAt s ps)%Qc) l)
        \/ (exists before after,
              l = before ++ c :: after
              /\ (priceAt c ps < priceAt b ps)%Qc
              /\ Forall (fun s => (priceAt c ps < priceAt s ps)%Qc) before
              /\ Forall (fun s => (priceAt c ps <= priceAt s ps)%Qc) after)).
Proof.
  revert b. induction l as [|s l IH]; intros b Hb; cbn [map fold_left].
  - exists b. split; [reflexivity|]. left. split; [reflexivity | constructor].
  - apply Forall_cons in Hb as [Hs Hb].
    unfold cheaper at 2. cbn [fst snd].
    rewrite (average_expected ps s Hs), nlt_fin.
    case_bool_decide as Hlt.
    + destruct (IH s Hb) as [c [Hf Hcase]].
      exists c. split; [exact Hf|]. right.
      destruct Hcase as [[-> Hall]|[before [after [Hl [Hc [Hbe Haf]]]]]].
      * exists [], l. repeat split; [exact Hlt | constructor | exact Hall].
      * exists (s :: before), after. rewrite Hl. repeat split.
        -- eapply Qclt_trans; eassumption.
        -- constructor; assumption.
        -- exact Haf.
    + apply Qcnot_lt_le in Hlt.
      destruct (IH b Hb) as [c [Hf Hcase]].
      exists c. split; [exact Hf|].
      destruct Hcase as [[-> Hall]|[before [after [Hl [Hc [Hbe Haf]]]]]].
      * left. split; [reflexivity|]. constructor; assumption.
      * right. exists (s :: before), after. rewrite Hl. repeat split.
        -- exact Hc.
        -- constructor; [|exact Hbe]. eapply Qclt_le_trans; eassumption.
        -- exact Haf.
Qed.

Lemma cheapest_first (ps : list Expense) :
  ps <> [] ->
  exists c,
    cheapest (entries (storeStats ps)) = (c, Fin (priceAt c ps)) /\ firstCheapest c ps.
Proof.
  intros Hne. unfold cheapest, firstCheapest.
  rewrite storeStats_entries, entries_named.
  assert (Hall : Forall (fun s => boughtAt s ps <> []) (enumerated (stores ps))).
  { apply Forall_forall. intros s. rewrite enumerated_perm. apply stores_elem. }
  destruct (enumerated (stores ps)) as [|s l] eqn:Hst.
  - exfalso. destruct ps as [|e ps]; [congruence|].
    assert (Hin : storeOf e ∈ enumerated (stores (e :: ps))).
    { rewrite enumerated_perm. apply stores_elem. unfold boughtAt. rewrite filter_cons.
      rewrite decide_True by reflexivity. discriminate. }
    rewrite Hst in Hin. apply elem_of_nil in Hin. exact Hin.
  - apply Forall_cons in Hall as [Hs Hall].
    cbn [map fold_left]. unfold cheaper at 2. cbn [fst snd].
    rewrite (average_expected ps s Hs). cbn [nlt].
    destruct (cheapest_from ps l s Hall) as [c [Hf Hcase]].
    exists c. split; [exact Hf|].
    destruct Hcase as [[-> Hle]|[before [after [Hl [Hc [Hbe Haf]]]]]].
    + exists [], l. repeat split; [constructor | exact Hle].
    + exists (s :: before), after. rewrite Hl. repeat split.
      * constructor; assumption.
      * exact Haf.
Qed.

Lemma cheapest_le (ps : list Expense) (c s : string) :
  firstCheapest c ps -> s ∈ stores ps -> (priceAt c ps <= priceAt s ps)%Qc.
Proof.
  intros [before [after [Hst [Hbe Haf]]]] Hs.
  rewrite <- enumerated_perm, Hst in Hs.
  rewrite Forall_forall in Hbe, Haf.
  apply elem_of_app in Hs as [Hs|Hs].
  - apply Qclt_le_weak, Hbe, Hs.
  - apply elem_of_cons in Hs as [-> |Hs]; [apply Qcle_refl | apply Haf, Hs].
Qed.

Lemma cheapest_is_store (ps : list Expense) (c : string) :
  firstCheapest c ps -> c ∈ stores ps.
Proof.
  intros [before [after [Hst _]]]. rewrite <- enumerated_perm, Hst.
  apply elem_of_app. right. left.
Qed.

(** *** The plan *)

Lemma itemGroups_purchased (expenses : list Expense) (k : string) (g : Group) :
  (k, g) ∈ itemGroups getTime expenses -> purchases k expenses <> [].
Proof.
  intros Hin.
  assert (Hk : k ∈ keys (itemGroups getTime expenses)).
  { apply (list_elem_of_fmap_2 fst _ (k, g)) in Hin. exact Hin. }
  unfold itemGroups in Hk. apply filed_keys in Hk as [Hk|[e [He Hn]]].
  - apply elem_of_nil in Hk. contradiction.
  - intros Hnil.
    assert (Hp : e ∈ purchases k expenses) by (apply list_elem_of_filter; auto).
    rewrite Hnil in Hp. apply elem_of_nil in Hp. exact Hp.
Qed.






End StoreOptimisation.

Section StoreOptimisationCases.
Import JsObject StorePlanner.


(** A store whose name is an array index is met before the others: milk
    was bought at "b", then at "9", for the same price, and with "9"
    selected it is a smart buy at the best price. *)
Example index_store_is_met_first :
  smartBuys (plan isoTime "9" (isoTime "2024-03-01") index_history)
  = [ {| p_name := "milk"; p_category := "Dairy & Eggs"; reason := BestPrice;
         avgPriceHere := of_Z 2; cheapestStore := None; savings := None;
         isNeeded := true |} ]
  /\ otherNeeds (plan isoTime "9" (isoTime "2024-03-01") index_history) = [].
Proof. split; compute_done. Qed.


End StoreOptimisationCases.

(** ** Saving a reviewed bill *)

Section BillDiscount.
Import ExpenseForm.

Lemma totalBillAmount_fin (pendingItems : list PendingItem) :
  totalBillAmount pendingItems = Fin (Qcsum (map i_amount pendingItems)).
Proof.
  unfold totalBillAmount.
  assert (H : forall q,
             fold_left (fun sum item => nadd sum (Fin (i_amount item))) pendingItems (Fin q)
             = Fin (q + Qcsum (map i_amount pendingItems))).
  { induction pendingItems as [|it l IH]; intros q; cbn [fold_left map Qcsum nadd].
    - f_equal. ring.
    - rewrite IH. f_equal. ring. }
  rewrite H. f_equal. ring.
Qed.

Lemma finalAmount_discounted (D T : Qc) (item : PendingItem) :
  (0 < D)%Qc -> (0 < T)%Qc ->
  finalAmount (Fin D) (Fin T) item = Fin (discounted D T (i_amount item)).
Proof.
  intros HD HT. unfold finalAmount, ngt. rewrite !nlt_fin.
  rewrite !bool_decide_eq_true_2 by assumption. cbn [andb].
  unfold ndiv. rewrite bool_decide_eq_false_2 by (symmetry; apply Qclt_not_eq, HT).
  cbn [nmul nsub nneg nadd Math_max]. rewrite nlt_fin. unfold discounted.
  change (i_amount item - D * (i_amount item / T))%Qc
    with (i_amount item + - (D * (i_amount item / T)))%Qc.
  case_bool_decide; reflexivity.
Qed.

Lemma finalAmount_plain (parsed total : number) (item : PendingItem) :
  parsed = NaN \/ parsed = Fin 0%Qc ->
  finalAmount (or_zero parsed) total item = Fin (i_amount item).
Proof. intros [-> | ->]; reflexivity. Qed.

Lemma Math_round_Z (z : Z) : Math_round (Qc_of_Z z) = z.
Proof.
  unfold Math_round, Qc_of_Z. cbn [this Qcplus Q2Qc].
  rewrite (Qfloor_comp _ (inject_Z z + (1 # 2))%Q).
  - unfold Qfloor, inject_Z, Qplus. cbn [Qnum Qden].
    rewrite Z.mul_1_l. change (Z.pos (1 * 2)) with 2.
    rewrite Z.div_add_l by lia. change (1 `div` 2) with 0. lia.
  - rewrite !Qred_correct. reflexivity.
Qed.

Lemma Qc_of_Z_opp (z : Z) : Qc_of_Z (- z) = (- Qc_of_Z z)%Qc.
Proof.
  unfold Qc_of_Z. apply Qc_is_canon. cbn [this Qcopp Q2Qc].
  rewrite !Qred_correct. reflexivity.
Qed.

Lemma Qc_100_nonzero : Qc_of_Z 100 <> 0%Qc.
Proof. intros H. apply (f_equal this) in H. vm_compute in H. discriminate. Qed.

(** An amount written with at most two decimals is left as it is. *)
Lemma round_cents_exact (z : Z) :
  round_cents (Qc_of_Z z / Qc_of_Z 100)%Qc = (Qc_of_Z z / Qc_of_Z 100)%Qc.
Proof.
  pose proof Qc_100_nonzero as H100.
  unfold round_cents. case_bool_decide.
  - replace (Qc_of_Z z / Qc_of_Z 100 * Qc_of_Z 100)%Qc with (Qc_of_Z z)
      by (field; exact H100).
    rewrite Math_round_Z. reflexivity.
  - replace (- (Qc_of_Z z / Qc_of_Z 100) * Qc_of_Z 100)%Qc with (Qc_of_Z (- z))
      by (rewrite Qc_of_Z_opp; field; exact H100).
    rewrite Math_round_Z, Qc_of_Z_opp. field. exact H100.
Qed.

Local Ltac qc_unfold :=
  unfold Qclt, Qcle, Qcminus, Qcdiv, Qc_of_Z in *;
  cbn [this Qcplus Qcopp Qcmult Qcinv Q2Qc] in *;
  rewrite ?Qred_correct in *.

(** Rounding to the cent moves an amount by half a cent at most. *)
Lemma Math_round_near (q : Qc) :
  (Qc_of_Z (Math_round q) <= q + Q2Qc (1 # 2))%Qc
  /\ (q - Q2Qc (1 # 2) < Qc_of_Z (Math_round q))%Qc.
Proof.
  unfold Math_round.
  pose proof (Qfloor_le (this (q + Q2Qc (1 # 2))%Qc)) as Hle.
  pose proof (Qlt_floor (this (q + Q2Qc (1 # 2))%Qc)) as Hlt.
  rewrite inject_Z_plus in Hlt. change (inject_Z 1) with 1%Q in Hlt.
  revert Hle Hlt. generalize (Qfloor (this (q + Q2Qc (1 # 2))%Qc)). intros n Hle Hlt.
  qc_unfold. set (x := inject_Z n) in *. clearbody x. split; lra.
Qed.

Lemma round_cents_near (q : Qc) :
  (q - Q2Qc (1 # 200) <= round_cents q)%Qc /\ (round_cents q <= q + Q2Qc (1 # 200))%Qc.
Proof.
  unfold round_cents. case_bool_decide as Hq.
  - destruct (Math_round_near (q * Qc_of_Z 100)%Qc) as [Hle Hlt].
    revert Hle Hlt. generalize (Math_round (q * Qc_of_Z 100)%Qc). intros n Hle Hlt.
    qc_unfold. change (inject_Z 100) with (100 # 1) in *.
    change (/ (100 # 1))%Q with (1 # 100)%Q.
    set (x := inject_Z n) in *. clearbody x. split; lra.
  - destruct (Math_round_near (- q * Qc_of_Z 100)%Qc) as [Hle Hlt].
    revert Hle Hlt. generalize (Math_round (- q * Qc_of_Z 100)%Qc). intros n Hle Hlt.
    qc_unfold. change (inject_Z 100) with (100 # 1) in *.
    change (/ (100 # 1))%Q with (1 # 100)%Q.
    set (x := inject_Z n) in *. clearbody x. split; lra.
Qed.

Lemma round_cents_whole (q : Qc) : whole_cents (round_cents q).
Proof.
  unfold round_cents, whole_cents. case_bool_decide.
  - eexists. reflexivity.
  - exists (- Math_round (- q * Qc_of_Z 100)%Qc). rewrite Qc_of_Z_opp.
    field. exact Qc_100_nonzero.
Qed.

Lemma round_cents_nearest (q : Qc) : nearest_cent q (round_cents q).
Proof. split; [apply round_cents_whole | apply round_cents_near]. Qed.

(** C7, as amended.  With a positive global discount D and a positive
    subtotal T, every saved amount is max(0, amount - D * (amount / T)) to
    the nearest cent: a whole number of cents, half a cent away from it at
    most.  The amount entered is kept in originalAmount.  With a discount
    that is zero or absent, every saved amount is the amount entered to
    the nearest cent, which is the amount entered when it is a whole
    number of cents. *)
Theorem saved_amounts (billType : BillType) (payer0 : string)
    (pendingItems : list PendingItem) :
  (forall D : Qc,
      (0 < D)%Qc ->
      (0 < Qcsum (map i_amount pendingItems))%Qc ->
      Forall2 (fun item saved =>
                 exists r,
                   n_amount saved = Fin r
                   /\ nearest_cent
                        (discounted D (Qcsum (map i_amount pendingItems)) (i_amount item))
                        r)
        pendingItems (handleFinalSave (Fin D) billType payer0 pendingItems))
  /\ (forall parsed : number,
        map n_originalAmount (handleFinalSave parsed billType payer0 pendingItems)
        = map i_amount pendingItems)
  /\ (forall parsed : number,
        parsed = NaN \/ parsed = Fin 0%Qc ->
        Forall2 (fun item saved =>
                   exists r,
                     n_amount saved = Fin r
                     /\ nearest_cent (i_amount item) r
                     /\ (whole_cents (i_amount item) -> r = i_amount item))
          pendingItems (handleFinalSave parsed billType payer0 pendingItems)).
Proof.
  split; [|split].
  - intros D HD HT. unfold handleFinalSave.
    apply Forall2_fmap_r, Forall_Forall2_diag, Forall_forall. intros item _.
    unfold compose. cbn [n_amount or_zero]. rewrite totalBillAmount_fin.
    rewrite finalAmount_discounted by assumption. cbn [toFixed2].
    eexists. split; [reflexivity | apply round_cents_nearest].
  - intros parsed. unfold handleFinalSave. rewrite map_map. reflexivity.
  - intros parsed Hp. unfold handleFinalSave.
    apply Forall2_fmap_r, Forall_Forall2_diag, Forall_forall. intros item _.
    unfold compose. cbn [n_amount]. rewrite finalAmount_plain by exact Hp.
    cbn [toFixed2]. eexists. split; [reflexivity|].
    split; [apply round_cents_nearest|].
    intros [n ->]. apply round_cents_exact.
Qed.

Lemma saved_amounts_witness :
  Forall2 (fun item saved =>
             exists r,
               n_amount saved = Fin r
               /\ nearest_cent
                    (discounted (Qc_of_Z 1)
                       (Qcsum (map i_amount [pending 10; pending 20])) (i_amount item))
                    r)
    [pending 10; pending 20]
    (handleFinalSave (Fin (Qc_of_Z 1)) shared "Me" [pending 10; pending 20])
  /\ Forall2 (fun item saved =>
                exists r,
                  n_amount saved = Fin r
                  /\ nearest_cent (i_amount item) r
                  /\ (whole_cents (i_amount item) -> r = i_amount item))
       [pending 10; pending 20]
       (handleFinalSave NaN shared "Me" [pending 10; pending 20]).
Proof.
  destruct (saved_amounts shared "Me" [pending 10; pending 20]) as [H1 [_ H3]].
  split.
  - apply H1; reflexivity.
  - apply H3. left. reflexivity.
Defined.

(** C7, as stated, fails: for the items 10 and 20 and a discount of 1 the
    first saved amount is 9.67, not 10 - 1 * (10 / 30) = 29/3. *)
Lemma discount_is_rounded :
  (0 < Qc_of_Z 1)%Qc
  /\ (0 < Qcsum (map i_amount [pending 10; pending 20]))%Qc
  /\ map n_amount (handleFinalSave (of_Z 1) shared "Me" [pending 10; pending 20])
     = [Fin (Q2Qc (967 # 100)); Fin (Q2Qc (1933 # 100))]
  /\ discounted (Qc_of_Z 1) (Qcsum (map i_amount [pending 10; pending 20]))
       (Qc_of_Z 10)
     = Q2Qc (29 # 3)
  /\ Q2Qc (967 # 100) <> Q2Qc (29 # 3).
Proof.
  split; [reflexivity|]. split; [reflexivity|].
  split; [compute_done|]. split; [compute_done|].
  intros H. apply (f_equal this) in H. vm_compute in H. discriminate.
Qed.

End BillDiscount.

(** ** Search *)

Section Search.
Import JsObject GlobalSearch.
Variable getTime : string -> Z.

(** *** Calendar dates *)



Lemma calendar_date_no_bar (s d : string) :
  calendar_date (s +:+ String "|"%char d) = false.
Proof.
  induction s as [|a s IH].
  - reflexivity.
  - rewrite append_cons. cbn [calendar_date]. rewrite IH. apply andb_false_r.
Qed.

(** The key of a bill tells its store and its date apart. *)
Lemma bill_key_inj (s1 d1 s2 d2 : string) :
  calendar_date d1 = true -> calendar_date d2 = true ->
  s1 +:+ String "|"%char d1 = s2 +:+ String "|"%char d2 -> s1 = s2 /\ d1 = d2.
Proof.
  intros H1 H2. revert s2.
  induction s1 as [|a s1 IH]; intros [|b s2];
    rewrite ?append_cons, ?append_nil; intros Heq.
  - injection Heq as ->. auto.
  - injection Heq as _ Heq. rewrite Heq, calendar_date_no_bar in H1. discriminate.
  - injection Heq as _ Heq. rewrite <- Heq, calendar_date_no_bar in H2. discriminate.
  - injection Heq as -> Heq. destruct (IH s2 Heq) as [-> ->]. auto.
Qed.

(** *** The bills *)

Lemma billed_some (l : list Expense) (s d : string) (q : Qc) (n : nat) :
  fold_left (fun slot e => Some (addToBill e slot)) l
    (Some {| b_store := s; b_date := d; b_total := Fin q; b_count := n |})
  = Some {| b_store := s; b_date := d;
            b_total := Fin (q + Qcsum (map amount l)); b_count := n + length l |}.
Proof.
  revert q n. induction l as [|e l IH]; intros q n; cbn [fold_left map Qcsum length].
  - (do 2 f_equal); try lia. f_equal. ring.
  - unfold addToBill at 2. cbn [b_store b_date b_total b_count nadd]. rewrite IH.
    (do 2 f_equal); try lia. f_equal. ring.
Qed.

Section Bills.
Variable expenses : list Expense.
Hypothesis dated : Forall (fun e => calendar_date (date e) = true) expenses.

Lemma same_key (e0 e : Expense) :
  e0 ∈ expenses -> e ∈ expenses ->
  billKey e = billKey e0 <-> onBill (store e0) (date e0) e.
Proof.
  intros H0 He. rewrite Forall_forall in dated. unfold billKey, onBill. split.
  - intros Hk. rewrite !(append_cons "|" EmptyString) in Hk. rewrite !append_nil in Hk.
    apply bill_key_inj in Hk; [tauto | apply dated, He | apply dated, H0].
  - intros [-> ->]. reflexivity.
Qed.

Lemma billsMap_get (k : string) (b : Bill) :
  get k (billsMap expenses) = Some b ->
  exists e0, e0 ∈ expenses /\ billKey e0 = k
             /\ b = billOf (store e0) (date e0) expenses.
Proof.
  unfold billsMap. rewrite filed_get. cbn [get].
  destruct (filter (fun e => billKey e = k) expenses) as [|e0 l] eqn:Hf;
    [discriminate|].
  assert (H0 : e0 ∈ filter (fun e => billKey e = k) expenses) by (rewrite Hf; left).
  apply list_elem_of_filter in H0 as [Hk0 H0].
  cbn [fold_left]. unfold addToBill at 2.
  cbn [b_store b_date b_total b_count nadd]. rewrite billed_some.
  intros [= <-]. exists e0. split; [exact H0|]. split; [exact Hk0|].
  unfold billOf.
  rewrite <- (filter_ext_in (fun e => billKey e = k) (onBill (store e0) (date e0))).
  - rewrite Hf. cbn [map Qcsum length].
    (do 2 f_equal); try lia. f_equal. ring.
  - intros e He. rewrite <- Hk0. apply same_key; assumption.
Qed.

Lemma billsMap_NoDup_keys : NoDup (keys (billsMap expenses)).
Proof. unfold billsMap. apply filed_NoDup. constructor. Qed.

Lemma billsMap_values (b : Bill) :
  b ∈ values (billsMap expenses)
  <-> exists e, e ∈ expenses /\ b = billOf (store e) (date e) expenses.
Proof.
  unfold values. split.
  - intros Hb. apply list_elem_of_fmap in Hb as [[k b'] [-> Hin]]. cbn [snd].
    apply elem_get in Hin; [|apply billsMap_NoDup_keys].
    destruct (billsMap_get k b' Hin) as [e0 [H0 [_ Hb]]]. eauto.
  - intros [e [He ->]].
    assert (Hk : billKey e ∈ keys (billsMap expenses)).
    { unfold billsMap. apply filed_keys. right. eauto. }
    destruct (get (billKey e) (billsMap expenses)) as [b'|] eqn:Hg.
    + destruct (billsMap_get _ _ Hg) as [e0 [H0 [Hk0 Hb']]].
      apply (same_key e e0 He H0) in Hk0 as [Hs Hd].
      rewrite Hs, Hd in Hb'. rewrite <- Hb'.
      apply get_Some_elem in Hg.
      apply (list_elem_of_fmap_2 snd _ (billKey e, b')) in Hg. exact Hg.
    + apply get_None_keys in Hg. contradiction.
Qed.


End Bills.

Global Instance itemAnswers_dec (query : string) (e : Expense) :
  Decision (itemAnswers query e).
Proof. unfold itemAnswers. apply _. Defined.

Global Instance billAnswers_dec (query : string) (b : Bill) :
  Decision (billAnswers query b).
Proof. unfold billAnswers. apply _. Defined.





End Search.

Section SearchCases.
Import JsObject GlobalSearch.


(** The search on the sample: the query "x" finds no item and the two
    bills of the store X, newest first. *)
Example results_on_visits :
  items (results isoTime "x" visits) = []
  /\ map (fun b => (b_store b, b_date b, b_count b)) (bills (results isoTime "x" visits))
     = [("X", "2023-10-27", 1%nat); ("X", "2023-10-26", 2%nat)].
Proof. split; vm_compute; reflexivity. Qed.


End SearchCases.


(** * Further properties of the code *)
(* ===================================================================== *)

(** ** Whose item it is *)

Section OwnerCycle.
Import Owners.

Lemma indexOf_range (x : string) (l : list string) :
  -1 <= indexOf x l < Z.of_nat (length l).
Proof.
  induction l as [|y l IH]; cbn [indexOf length].
  - lia.
  - destruct (decide (y = x)); [lia|].
    destruct (indexOf x l <? 0) eqn:Hneg; lia.
Qed.

Lemma indexOf_absent (x : string) (l : list string) :
  x ∉ l -> indexOf x l = -1.
Proof.
  induction l as [|y l IH]; intros Hx; cbn [indexOf]; [reflexivity|].
  apply not_elem_of_cons in Hx as [Hne Hx].
  rewrite decide_False by congruence. rewrite (IH Hx). reflexivity.
Qed.

Lemma indexOf_nth (l : list string) (i : nat) :
  NoDup l -> (i < length l)%nat -> indexOf (nth i l EmptyString) l = Z.of_nat i.
Proof.
  revert i. induction l as [|y l IH]; intros i Hnd Hi; cbn [length] in Hi; [lia|].
  apply NoDup_cons in Hnd as [Hy Hnd]. destruct i as [|i]; cbn [nth indexOf].
  - rewrite decide_True by reflexivity. reflexivity.
  - assert (Hin : nth i l EmptyString ∈ l).
    { apply list_elem_of_In, nth_In. lia. }
    rewrite decide_False by (intros ->; contradiction).
    rewrite IH by (assumption || lia).
    destruct (Z.of_nat i <? 0) eqn:Hneg; [apply Z.ltb_lt in Hneg|]; lia.
Qed.

Lemma at_index_nth (l : list string) (i : nat) :
  at_index l (Z.of_nat i) = nth i l EmptyString.
Proof.
  unfold at_index. destruct (Z.of_nat i <? 0) eqn:Hneg.
  - apply Z.ltb_lt in Hneg. lia.
  - rewrite Nat2Z.id. reflexivity.
Qed.

Lemma nextOwner_index (people : list string) (owner0 : string) :
  exists i : nat,
    (i < length ("Shared" :: people))%nat
    /\ nextOwner people owner0 = nth i ("Shared" :: people) EmptyString
    /\ Z.of_nat i
       = Z.rem (indexOf owner0 ("Shared" :: people) + 1)
               (Z.of_nat (length ("Shared" :: people))).
Proof.
  pose proof (indexOf_range owner0 ("Shared" :: people)) as Hr.
  assert (Hn : 0 < Z.of_nat (length ("Shared" :: people))) by (cbn [length]; lia).
  pose proof (Z.rem_bound_pos (indexOf owner0 ("Shared" :: people) + 1)
                (Z.of_nat (length ("Shared" :: people))) ltac:(lia) Hn) as Hb.
  unfold nextOwner. cbv zeta.
  remember (Z.rem (indexOf owner0 ("Shared" :: people) + 1)
                  (Z.of_nat (length ("Shared" :: people)))) as r eqn:Hr'.
  exists (Z.to_nat r). split; [lia|]. split.
  - rewrite <- at_index_nth, Z2Nat.id by lia. reflexivity.
  - rewrite Z2Nat.id by lia. reflexivity.
Qed.

Lemma nextOwner_in (people : list string) (owner0 : string) :
  nextOwner people owner0 ∈ "Shared" :: people.
Proof.
  destruct (nextOwner_index people owner0) as [i [Hi [-> _]]].
  apply list_elem_of_In, nth_In, Hi.
Qed.

(** The owner after the one at position [i] is the one at position
    [i + 1], the first one again after the last. *)
Lemma nextOwner_nth (people : list string) (i : nat) :
  NoDup ("Shared" :: people) ->
  (i < length ("Shared" :: people))%nat ->
  nextOwner people (nth i ("Shared" :: people) EmptyString)
  = nth ((i + 1) mod length ("Shared" :: people)) ("Shared" :: people) EmptyString.
Proof.
  intros Hnd Hi.
  destruct (nextOwner_index people (nth i ("Shared" :: people) EmptyString))
    as [j [Hj [-> Hij]]].
  rewrite indexOf_nth in Hij by assumption.
  f_equal. apply Nat2Z.inj. rewrite Hij, Nat2Z.inj_mod, Z.rem_mod_nonneg by lia.
  f_equal. lia.
Qed.

Lemma nextOwner_iter (people : list string) (i k : nat) :
  NoDup ("Shared" :: people) ->
  (i < length ("Shared" :: people))%nat ->
  Nat.iter k (nextOwner people) (nth i ("Shared" :: people) EmptyString)
  = nth ((i + k) mod length ("Shared" :: people)) ("Shared" :: people) EmptyString.
Proof.
  intros Hnd Hi. induction k as [|k IH].
  - rewrite Nat.add_0_r, Nat.mod_small by exact Hi. reflexivity.
  - rewrite Nat.iter_succ, IH, nextOwner_nth.
    + f_equal. rewrite Nat.Div0.add_mod_idemp_l. f_equal. lia.
    + exact Hnd.
    + apply Nat.mod_upper_bound. cbn [length]. lia.
Qed.

(** X1. Whatever the owner of an item was, a participant, "Shared" or a
    name that is no longer in the list, the owner after a toggle is
    "Shared" or an active participant; a name that is not in the cycle goes
    to "Shared".  On the pending items, the toggle changes the owner of the
    items with the given id and nothing else. *)
Theorem toggle_stays_in_cycle (people : list string) (tempId0 : string)
    (pendingItems : list ExpenseForm.PendingItem) :
  (forall owner0, nextOwner people owner0 ∈ "Shared" :: people)
  /\ (forall owner0, owner0 ∉ "Shared" :: people -> nextOwner people owner0 = "Shared")
  /\ Forall2
       (fun item item' =>
          ExpenseForm.tempId item' = ExpenseForm.tempId item
          /\ ExpenseForm.i_description item' = ExpenseForm.i_description item
          /\ ExpenseForm.i_amount item' = ExpenseForm.i_amount item
          /\ ExpenseForm.i_date item' = ExpenseForm.i_date item
          /\ ExpenseForm.i_category item' = ExpenseForm.i_category item
          /\ ExpenseForm.i_store item' = ExpenseForm.i_store item
          /\ ExpenseForm.i_owner item'
             = (if decide (ExpenseForm.tempId item = tempId0)
                then nextOwner people (ExpenseForm.i_owner item)
                else ExpenseForm.i_owner item))
       pendingItems (toggleOwner people tempId0 pendingItems).
Proof.
  split; [apply nextOwner_in|]. split.
  - intros owner0 Hout.
    destruct (nextOwner_index people owner0) as [i [Hi [-> Hidx]]].
    rewrite indexOf_absent in Hidx by exact Hout.
    change (-1 + 1) with 0 in Hidx. rewrite Z.rem_0_l in Hidx by (cbn [length]; lia).
    assert (i = 0%nat) as -> by lia. reflexivity.
  - unfold toggleOwner. induction pendingItems as [|item l IH]; cbn [map]; constructor.
    + destruct (decide (ExpenseForm.tempId item <> tempId0)) as [Hne|Heq].
      * rewrite decide_False by exact Hne. repeat split.
      * assert (Hid : ExpenseForm.tempId item = tempId0)
          by (destruct (decide (ExpenseForm.tempId item = tempId0)); tauto).
        rewrite decide_True by exact Hid. repeat split.
    + exact IH.
Qed.

(** X2. When no name is repeated among "Shared" and the participants, the
    toggle goes round: from an owner of the cycle, as many toggles as the
    cycle has names give the owner back, and fewer do not. *)
Theorem toggle_goes_round (people : list string) (owner0 : string) :
  NoDup ("Shared" :: people) ->
  owner0 ∈ "Shared" :: people ->
  Nat.iter (length ("Shared" :: people)) (nextOwner people) owner0 = owner0
  /\ (forall k, (0 < k < length ("Shared" :: people))%nat ->
                Nat.iter k (nextOwner people) owner0 <> owner0).
Proof.
  intros Hnd Hin. apply list_elem_of_In, (In_nth _ _ EmptyString) in Hin as [i [Hi <-]].
  split.
  - rewrite nextOwner_iter by assumption.
    rewrite <- (Nat.mul_1_l (length ("Shared" :: people))) at 1.
    rewrite Nat.Div0.mod_add, Nat.mod_small by exact Hi. reflexivity.
  - intros k Hk. rewrite nextOwner_iter by assumption. intros Heq.
    apply NoDup_ListNoDup in Hnd.
    apply (proj1 (List.NoDup_nth _ EmptyString) Hnd) in Heq.
    + destruct (Nat.lt_ge_cases (i + k) (length ("Shared" :: people))) as [Hlt|Hge].
      * rewrite Nat.mod_small in Heq by exact Hlt. lia.
      * assert (Hmod : ((i + k) mod length ("Shared" :: people)
                        = i + k - length ("Shared" :: people))%nat).
        { symmetry. apply Nat.mod_unique with (q := 1%nat); lia. }
        rewrite Hmod in Heq. lia.
    + apply Nat.mod_upper_bound. cbn [length]. lia.
    + exact Hi.
Qed.

Lemma toggle_goes_round_witness :
  Nat.iter (length ("Shared" :: App.initialPeople))
    (nextOwner App.initialPeople) "Partner" = "Partner"
  /\ (forall k, (0 < k < length ("Shared" :: App.initialPeople))%nat ->
                Nat.iter k (nextOwner App.initialPeople) "Partner" <> "Partner").
Proof.
  apply toggle_goes_round.
  - compute_done.
  - right. right. left.
Defined.

End OwnerCycle.

(** ** The state of the application *)

Section AppState.
Import App.

Lemma handleAddPerson_NoDup (name : string) (people : list string) :
  NoDup people -> NoDup (handleAddPerson name people).
Proof.
  intros Hnd. unfold handleAddPerson. case_decide; [exact Hnd|].
  apply NoDup_app. split; [exact Hnd|]. split.
  - intros x Hx Hx'. apply list_elem_of_singleton in Hx'. congruence.
  - apply NoDup_singleton.
Qed.

Lemma handleAddPerson_elem (name : string) (people : list string) (p : string) :
  p ∈ handleAddPerson name people <-> p ∈ people \/ p = name.
Proof.
  unfold handleAddPerson. case_decide as Hin.
  - split; [tauto|]. intros [?| ->]; assumption.
  - rewrite elem_of_app, list_elem_of_singleton. reflexivity.
Qed.

Lemma handleAddPersonInline_elem (name : string) (people : list string) (p : string) :
  p ∈ handleAddPersonInline name people
  <-> p ∈ people \/ (p = trim name /\ p <> EmptyString).
Proof.
  unfold handleAddPersonInline. case_decide as Hblank.
  - split; [tauto|]. intros [?|[-> ?]]; [assumption | contradiction].
  - rewrite handleAddPerson_elem. split.
    + intros [?| ->]; [tauto|]. right. split; [reflexivity | exact Hblank].
    + tauto.
Qed.

(** X3. Whatever names are typed in, in whatever order, the list of
    participants keeps its two first names "Me" and "Partner", never holds
    a name twice, never holds an empty name, and holds every name typed
    that is not blank, trimmed. *)
Theorem people_stay_distinct (typed : list string) :
  let people := fold_left (fun ps n => handleAddPersonInline n ps) typed initialPeople in
  NoDup people
  /\ (exists added, people = initialPeople ++ added)
  /\ (EmptyString ∉ people)
  /\ (forall n, n ∈ typed -> trim n <> EmptyString -> trim n ∈ people).
Proof.
  cbv zeta.
  assert (Hgen : forall start,
             NoDup start -> EmptyString ∉ start ->
             NoDup (fold_left (fun ps n => handleAddPersonInline n ps) typed start)
             /\ (exists added,
                    fold_left (fun ps n => handleAddPersonInline n ps) typed start
                    = start ++ added)
             /\ (EmptyString ∉ fold_left (fun ps n => handleAddPersonInline n ps)
                                  typed start)
             /\ (forall n, n ∈ start \/ (n ∈ map trim typed /\ n <> EmptyString) ->
                           n ∈ fold_left (fun ps n => handleAddPersonInline n ps)
                                 typed start)).
  { induction typed as [|n typed IH]; intros start Hnd Hempty; cbn [fold_left map].
    - split; [exact Hnd|]. split; [exists []; rewrite app_nil_r; reflexivity|].
      split; [exact Hempty|]. intros m [?|[Hm _]]; [assumption|].
      apply elem_of_nil in Hm. contradiction.
    - destruct (IH (handleAddPersonInline n start)) as [H1 [[added H2] [H3 H4]]].
      + unfold handleAddPersonInline. case_decide; [exact Hnd|].
        apply handleAddPerson_NoDup, Hnd.
      + rewrite handleAddPersonInline_elem. intros [?|[_ ?]]; contradiction.
      + split; [exact H1|]. split; [|split; [exact H3|]].
        * rewrite H2. unfold handleAddPersonInline, handleAddPerson.
          repeat case_decide; eauto. rewrite <- app_assoc. eauto.
        * intros m Hm. apply H4. rewrite handleAddPersonInline_elem.
          destruct Hm as [?|[Hm Hne]]; [tauto|].
          apply elem_of_cons in Hm as [-> |Hm]; tauto. }
  destruct (Hgen initialPeople) as [H1 [H2 [H3 H4]]].
  - compute_done.
  - compute_done.
  - split; [exact H1|]. split; [exact H2|]. split; [exact H3|].
    intros n Hn Hne. apply H4. right. split; [|exact Hne].
    apply (list_elem_of_fmap_2 trim) in Hn. exact Hn.
Qed.

(** X4. Deleting by id removes every expense with that id and no other, and
    keeps the order of the rest; with an id that no expense has, the list is
    left as it is; when the ids are all different and the id is there, the
    list has exactly one expense less; and deleting the same id again
    changes nothing. *)
Theorem delete_removes_the_id (id0 : string) (expenses : list Expense) :
  (forall e, e ∈ handleDeleteExpense id0 expenses <-> e ∈ expenses /\ id e <> id0)
  /\ handleDeleteExpense id0 expenses `sublist_of` expenses
  /\ (id0 ∉ map id expenses -> handleDeleteExpense id0 expenses = expenses)
  /\ (NoDup (map id expenses) -> id0 ∈ map id expenses ->
      S (length (handleDeleteExpense id0 expenses)) = length expenses)
  /\ handleDeleteExpense id0 (handleDeleteExpense id0 expenses)
     = handleDeleteExpense id0 expenses.
Proof.
  unfold handleDeleteExpense. split; [|split; [|split; [|split]]].
  - intros e. rewrite list_elem_of_filter. tauto.
  - apply sublist_filter.
  - induction expenses as [|e l IH]; cbn [map]; intros Hout; [reflexivity|].
    apply not_elem_of_cons in Hout as [Hne Hout].
    rewrite filter_cons, decide_True by congruence. f_equal. apply IH, Hout.
  - induction expenses as [|e l IH]; cbn [map]; intros Hnd Hin.
    + apply elem_of_nil in Hin. contradiction.
    + apply NoDup_cons in Hnd as [He Hnd]. rewrite filter_cons.
      destruct (decide (id e <> id0)) as [Hne|Heq].
      * cbn [length]. f_equal. apply IH; [exact Hnd|].
        apply elem_of_cons in Hin as [?|?]; [congruence | assumption].
      * assert (Hid : id e = id0) by (destruct (decide (id e = id0)); tauto).
        cbn [length]. f_equal. f_equal.
        rewrite <- Hid in *. clear IH Hin Heq Hid.
        induction l as [|x l IHl]; [reflexivity|]. cbn [map] in He, Hnd.
        apply not_elem_of_cons in He as [Hx He].
        apply NoDup_cons in Hnd as [_ Hnd].
        rewrite filter_cons, decide_True by congruence. f_equal. apply IHl; assumption.
  - apply list_filter_filter_l. tauto.
Qed.

Lemma delete_removes_the_id_witness :
  S (length (handleDeleteExpense "2"
               [SplitAnalysis.sample 1 "Me" "Me";
                {| id := "2"; description := "item"; amount := Qc_of_Z 2;
                   date := "2024-01-01"; category := "Other"; store := "Store";
                   payer := "Me"; owner := "Me"; originalAmount := None |}]))
  = length [SplitAnalysis.sample 1 "Me" "Me";
            {| id := "2"; description := "item"; amount := Qc_of_Z 2;
               date := "2024-01-01"; category := "Other"; store := "Store";
               payer := "Me"; owner := "Me"; originalAmount := None |}].
Proof.
  apply delete_removes_the_id.
  - compute_done.
  - right. left.
Defined.

End AppState.

(** ** Sums over filed objects *)

Section FiledSums.
Import JsObject.
Context {A E : Type} (key : E -> string) (f : E -> option A -> A).

Lemma upsert_count (w : A -> nat) (e : E) (obj : list (string * A)) :
  (forall slot, w (f e slot) = S (from_option w 0%nat slot)) ->
  sum_list (map (fun kv => w (snd kv)) (upsert (key e) (f e) obj))
  = S (sum_list (map (fun kv => w (snd kv)) obj)).
Proof.
  intros Hw. induction obj as [|[k v] obj IH]; cbn [upsert map sum_list snd].
  - rewrite Hw. cbn. lia.
  - destruct (decide (k = key e)); cbn [map sum_list snd].
    + rewrite Hw. cbn. lia.
    + rewrite IH. lia.
Qed.

Lemma filed_count (w : A -> nat) (l : list E) (obj : list (string * A)) :
  (forall e slot, w (f e slot) = S (from_option w 0%nat slot)) ->
  sum_list (map (fun kv => w (snd kv))
              (fold_left (fun obj e => upsert (key e) (f e) obj) l obj))
  = (sum_list (map (fun kv => w (snd kv)) obj) + length l)%nat.
Proof.
  intros Hw. revert obj. induction l as [|e l IH]; intros obj; cbn [fold_left length].
  - lia.
  - rewrite IH, upsert_count by apply Hw. lia.
Qed.

Lemma upsert_total (w : A -> number) (a : E -> Qc) (e : E) (obj : list (string * A)) :
  (forall slot, w (f e slot) = nadd (from_option w (Fin 0%Qc) slot) (Fin (a e))) ->
  nsum (map (fun kv => w (snd kv)) (upsert (key e) (f e) obj))
  = nadd (nsum (map (fun kv => w (snd kv)) obj)) (Fin (a e)).
Proof.
  intros Hw. induction obj as [|[k v] obj IH]; cbn [upsert map snd].
  - rewrite nsum_cons, Hw. cbn [from_option]. change (nsum []) with (Fin 0%Qc).
    rewrite nadd_0_r. reflexivity.
  - destruct (decide (k = key e)); cbn [map snd]; rewrite !nsum_cons.
    + rewrite Hw. cbn [from_option]. rewrite <- !nadd_assoc. f_equal. apply nadd_comm.
    + rewrite IH. apply nadd_assoc.
Qed.

Lemma filed_total (w : A -> number) (a : E -> Qc) (l : list E) (obj : list (string * A)) :
  (forall e slot, w (f e slot) = nadd (from_option w (Fin 0%Qc) slot) (Fin (a e))) ->
  nsum (map (fun kv => w (snd kv))
          (fold_left (fun obj e => upsert (key e) (f e) obj) l obj))
  = nadd (nsum (map (fun kv => w (snd kv)) obj)) (Fin (Qcsum (map a l))).
Proof.
  intros Hw. revert obj. induction l as [|e l IH]; intros obj; cbn [fold_left map Qcsum].
  - symmetry. apply nadd_0_r.
  - rewrite IH, (upsert_total w a) by apply Hw. rewrite <- nadd_assoc. reflexivity.
Qed.

End FiledSums.

Section Amounts.

(** A running sum of amounts is their sum. *)
Lemma amounts_fold (l : list Expense) (q : Qc) :
  fold_left (fun sum e => nadd sum (Fin (amount e))) l (Fin q)
  = Fin (q + Qcsum (map amount l)).
Proof.
  revert q. induction l as [|e l IH]; intros q; cbn [fold_left map Qcsum nadd].
  - f_equal. ring.
  - rewrite IH. f_equal. ring.
Qed.

Lemma totalSpent_fin (expenses : list Expense) :
  Dashboard.totalSpent expenses = Fin (Qcsum (map amount expenses)).
Proof. unfold Dashboard.totalSpent. rewrite amounts_fold. f_equal. ring. Qed.

Lemma bill_total_fin (items : list Expense) :
  BillDetailModal.total items = Fin (Qcsum (map amount items)).
Proof. unfold BillDetailModal.total. rewrite amounts_fold. f_equal. ring. Qed.

End Amounts.

(** ** Bills: their details and their bulk updates *)

Section BillDetails.
Import JsObject App BillDetailModal.

Lemma firsts_repeated (x : string) (l : list string) :
  Forall (fun y => y = x) l -> firsts [] l = match l with [] => [] | _ => [x] end.
Proof.
  assert (Hseen : forall l, Forall (fun y => y = x) l -> firsts [x] l = []).
  { induction l0 as [|y l0 IH]; intros Hall; [reflexivity|].
    apply Forall_cons in Hall as [-> Hall]. cbn [firsts].
    rewrite decide_True by left. apply IH, Hall. }
  destruct l as [|y l]; intros Hall; [reflexivity|].
  apply Forall_cons in Hall as [-> Hall]. cbn [firsts].
  rewrite decide_False by apply not_elem_of_nil. cbn [app].
  rewrite Hseen by exact Hall. reflexivity.
Qed.

(** A bulk update that gives neither a store nor a date keeps every expense
    on its bill. *)
Lemma bulk_billItems (s d s' d' : string) (u : Updates) (expenses : list Expense) :
  u_store u = None -> u_date u = None ->
  billItems s' d' (handleBulkUpdateBill s d u expenses)
  = map (fun e => if decide (store e = s /\ date e = d) then spread e u else e)
        (billItems s' d' expenses).
Proof.
  intros Hs Hd. unfold billItems, handleBulkUpdateBill.
  induction expenses as [|e l IH]; cbn [map]; [reflexivity|].
  rewrite !filter_cons.
  assert (Hsame : forall x : Expense,
             store (if decide (store x = s /\ date x = d) then spread x u else x) = store x
             /\ date (if decide (store x = s /\ date x = d) then spread x u else x) = date x).
  { intros x. case_decide; [|auto]. unfold spread. cbn [store date].
    rewrite Hs, Hd. auto. }
  destruct (Hsame e) as [Hst Hdt].
  destruct (decide (store e = s' /\ date e = d')) as [Hon|Hoff].
  - rewrite decide_True by (rewrite Hst, Hdt; exact Hon).
    cbn [map]. rewrite IH. reflexivity.
  - rewrite decide_False by (rewrite Hst, Hdt; exact Hoff). exact IH.
Qed.

Lemma bulk_on_bill (s d : string) (u : Updates) (expenses : list Expense) :
  u_store u = None -> u_date u = None ->
  billItems s d (handleBulkUpdateBill s d u expenses)
  = map (fun e => spread e u) (billItems s d expenses).
Proof.
  intros Hs Hd. rewrite bulk_billItems by assumption.
  apply map_ext_in. intros e He.
  apply list_elem_of_In, list_elem_of_filter in He as [He _].
  rewrite decide_True by exact He. reflexivity.
Qed.

Lemma bulk_off_bill (s d s' d' : string) (u : Updates) (expenses : list Expense) :
  u_store u = None -> u_date u = None ->
  ~ (s' = s /\ d' = d) ->
  billItems s' d' (handleBulkUpdateBill s d u expenses) = billItems s' d' expenses.
Proof.
  intros Hs Hd Hother. rewrite bulk_billItems by assumption.
  rewrite <- (map_id (billItems s' d' expenses)) at 2.
  apply map_ext_in. intros e He.
  apply list_elem_of_In, list_elem_of_filter in He as [[He1 He2] _].
  rewrite decide_False; [reflexivity|]. intros [H1 H2]. apply Hother. split; congruence.
Qed.

(** X5. "Make Personal" on a bill keeps the number of expenses, leaves
    every other bill as it was, and on the bill itself keeps the amounts and
    the total while every item gets the payer "Me" and the owner "Me"; the
    modal then shows the bill as personal, unless the bill has no item. *)
Theorem make_personal (s d : string) (expenses : list Expense) :
  length (handleSetPersonal s d expenses) = length expenses
  /\ Forall (fun e => payer e = "Me" /\ owner e = "Me")
            (billItems s d (handleSetPersonal s d expenses))
  /\ map amount (billItems s d (handleSetPersonal s d expenses))
     = map amount (billItems s d expenses)
  /\ total (billItems s d (handleSetPersonal s d expenses))
     = total (billItems s d expenses)
  /\ isPersonalBill (billItems s d (handleSetPersonal s d expenses))
     = match billItems s d expenses with [] => false | _ => true end
  /\ (forall s' d', ~ (s' = s /\ d' = d) ->
                    billItems s' d' (handleSetPersonal s d expenses)
                    = billItems s' d' expenses).
Proof.
  unfold handleSetPersonal.
  split; [unfold handleBulkUpdateBill; apply length_map|].
  rewrite !bill_total_fin, bulk_on_bill by reflexivity.
  split; [|split; [|split; [|split]]].
  - apply Forall_forall. intros e He.
    apply list_elem_of_fmap in He as [x [-> _]]. split; reflexivity.
  - rewrite map_map. reflexivity.
  - rewrite map_map. reflexivity.
  - unfold isPersonalBill, owners. rewrite map_map.
    rewrite (firsts_repeated "Me").
    + destruct (billItems s d expenses); reflexivity.
    + apply Forall_forall. intros o Ho.
      apply list_elem_of_fmap in Ho as [x [-> _]]. reflexivity.
  - intros s' d' Hother. apply bulk_off_bill; [reflexivity | reflexivity | exact Hother].
Qed.

(** X6. "Make Shared" on a bill keeps the number of expenses, leaves every
    other bill as it was, and on the bill itself keeps the payers, the
    amounts and the total while every item gets the owner "Shared"; the
    modal then never shows the bill as personal. *)
Theorem make_shared (s d : string) (expenses : list Expense) :
  length (handleSetShared s d expenses) = length expenses
  /\ Forall (fun e => owner e = "Shared") (billItems s d (handleSetShared s d expenses))
  /\ map payer (billItems s d (handleSetShared s d expenses))
     = map payer (billItems s d expenses)
  /\ map amount (billItems s d (handleSetShared s d expenses))
     = map amount (billItems s d expenses)
  /\ total (billItems s d (handleSetShared s d expenses))
     = total (billItems s d expenses)
  /\ isPersonalBill (billItems s d (handleSetShared s d expenses)) = false
  /\ (forall s' d', ~ (s' = s /\ d' = d) ->
                    billItems s' d' (handleSetShared s d expenses)
                    = billItems s' d' expenses).
Proof.
  unfold handleSetShared.
  split; [unfold handleBulkUpdateBill; apply length_map|].
  rewrite !bill_total_fin, bulk_on_bill by reflexivity.
  split; [|split; [|split; [|split; [|split]]]].
  - apply Forall_forall. intros e He.
    apply list_elem_of_fmap in He as [x [-> _]]. reflexivity.
  - rewrite map_map. reflexivity.
  - rewrite map_map. reflexivity.
  - rewrite map_map. reflexivity.
  - unfold isPersonalBill, owners. rewrite map_map.
    rewrite (firsts_repeated "Shared").
    + destruct (billItems s d expenses); reflexivity.
    + apply Forall_forall. intros o Ho.
      apply list_elem_of_fmap in Ho as [x [-> _]]. reflexivity.
  - intros s' d' Hother. apply bulk_off_bill; [reflexivity | reflexivity | exact Hother].
Qed.

(** *** From the search to the details *)

Lemma billsMap_count_total (expenses : list Expense) :
  sum_list (map GlobalSearch.b_count (values (GlobalSearch.billsMap expenses)))
  = length expenses
  /\ nsum (map GlobalSearch.b_total (values (GlobalSearch.billsMap expenses)))
     = Fin (Qcsum (map amount expenses)).
Proof.
  unfold values, GlobalSearch.billsMap. rewrite !map_map. split.
  - rewrite (filed_count GlobalSearch.billKey GlobalSearch.addToBill
               GlobalSearch.b_count).
    + reflexivity.
    + intros e [b|]; cbn; lia.
  - rewrite (filed_total GlobalSearch.billKey GlobalSearch.addToBill
               GlobalSearch.b_total amount).
    + apply nadd_0_l.
    + intros e [b|]; reflexivity.
Qed.

Lemma billsMap_counts_positive (expenses : list Expense) :
  Forall (fun b => (1 <= GlobalSearch.b_count b)%nat)
         (values (GlobalSearch.billsMap expenses)).
Proof.
  apply Forall_forall. intros b Hb. unfold values in Hb.
  apply list_elem_of_fmap in Hb as [[k b'] [-> Hin]]. cbn [snd].
  apply elem_get in Hin; [|apply billsMap_NoDup_keys].
  unfold GlobalSearch.billsMap in Hin. rewrite filed_get in Hin. cbn [get] in Hin.
  destruct (filter (fun e => GlobalSearch.billKey e = k) expenses) as [|e0 l];
    [discriminate|].
  cbn [fold_left] in Hin. unfold GlobalSearch.addToBill at 2 in Hin.
  cbn [GlobalSearch.b_store GlobalSearch.b_date GlobalSearch.b_total
       GlobalSearch.b_count nadd] in Hin.
  rewrite billed_some in Hin. injection Hin as <-. cbn. lia.
Qed.

(** X7. Every expense is counted in exactly one bill of the search: the
    bills have at least one item each, their item counts add up to the
    number of expenses, and their totals add up to the total spend of the
    dashboard. *)
Theorem bills_cover_expenses (expenses : list Expense) :
  Forall (fun b => (1 <= GlobalSearch.b_count b)%nat)
         (values (GlobalSearch.billsMap expenses))
  /\ sum_list (map GlobalSearch.b_count (values (GlobalSearch.billsMap expenses)))
     = length expenses
  /\ nsum (map GlobalSearch.b_total (values (GlobalSearch.billsMap expenses)))
     = Dashboard.totalSpent expenses.
Proof.
  split; [apply billsMap_counts_positive|].
  rewrite totalSpent_fin. apply billsMap_count_total.
Qed.

(** X8. A bill found by the search opens on its own items: with calendar
    dates, the bill detail modal, given the store and the date of a bill
    of the results, shows as many items as the bill counts, at least one,
    and the same total. *)
Theorem found_bill_opens (getTime : string -> Z) (query : string)
    (expenses : list Expense) (b : GlobalSearch.Bill) :
  Forall (fun e => calendar_date (date e) = true) expenses ->
  b ∈ GlobalSearch.bills (GlobalSearch.results getTime query expenses) ->
  billItems (GlobalSearch.b_store b) (GlobalSearch.b_date b) expenses <> []
  /\ length (billItems (GlobalSearch.b_store b) (GlobalSearch.b_date b) expenses)
     = GlobalSearch.b_count b
  /\ total (billItems (GlobalSearch.b_store b) (GlobalSearch.b_date b) expenses)
     = GlobalSearch.b_total b.
Proof.
  intros Hdated Hb.
  assert (Hv : b ∈ values (GlobalSearch.billsMap expenses)).
  { unfold GlobalSearch.results in Hb. case_decide.
    - apply elem_of_nil in Hb. contradiction.
    - cbn [GlobalSearch.bills] in Hb.
      apply (subseteq_take 3) in Hb.
      rewrite sort_perm in Hb. apply list_elem_of_filter in Hb as [_ Hb]. exact Hb. }
  pose proof (proj1 (Forall_forall _ _) (billsMap_counts_positive expenses) b Hv) as Hpos.
  apply (billsMap_values expenses Hdated) in Hv as [e [He ->]].
  rewrite bill_total_fin. unfold GlobalSearch.billOf in *.
  cbn [GlobalSearch.b_store GlobalSearch.b_date GlobalSearch.b_count
       GlobalSearch.b_total] in *.
  change (filter (GlobalSearch.onBill (store e) (date e)) expenses)
    with (billItems (store e) (date e) expenses) in *.
  split; [|split; reflexivity].
  intros Hnil. rewrite Hnil in Hpos. cbn in Hpos. lia.
Qed.

Lemma found_bill_opens_witness :
  billItems "X" "2023-10-26" GlobalSearch.visits <> []
  /\ length (billItems "X" "2023-10-26" GlobalSearch.visits) = 2%nat
  /\ total (billItems "X" "2023-10-26" GlobalSearch.visits) = of_Z 5.
Proof.
  apply (found_bill_opens isoTime "x" GlobalSearch.visits
           {| GlobalSearch.b_store := "X"; GlobalSearch.b_date := "2023-10-26";
              GlobalSearch.b_total := of_Z 5; GlobalSearch.b_count := 2 |}).
  - repeat constructor.
  - vm_compute. right. left.
Defined.

End BillDetails.

(** ** The replenishment list *)

Section Tracker.
Import JsObject ShelfLifeInsights.
Variable getTime : string -> Z.

Lemma gaps_nonneg (l : list Z) : StronglySorted Z.ge l -> 0 <= gaps l.
Proof.
  induction l as [|a [|b l] IH]; intros Hs; try (cbn [gaps]; lia).
  apply StronglySorted_inv in Hs as [Hs Ha].
  apply Forall_cons in Ha as [Hab _]. specialize (IH Hs).
  change (0 <= (a - b) + gaps (b :: l)). lia.
Qed.

Lemma Qc_of_Z_nonneg (z : Z) : 0 <= z -> (0 <= Qc_of_Z z)%Qc.
Proof.
  intros Hz. unfold Qcle, Qc_of_Z. cbn [this Q2Qc]. rewrite !Qred_correct.
  unfold Qle. cbn. lia.
Qed.

Lemma Qcdiv_nonneg (a b : Qc) : (0 <= a)%Qc -> (0 <= b)%Qc -> (0 <= a / b)%Qc.
Proof.
  unfold Qcdiv, Qcle. cbn [this Qcmult Qcinv Q2Qc]. intros Ha Hb.
  rewrite !Qred_correct. apply Qmult_le_0_compat; [exact Ha|].
  apply Qinv_le_0_compat. exact Hb.
Qed.

Lemma Math_round_nonneg (q : Qc) : (0 <= q)%Qc -> 0 <= Math_round q.
Proof.
  intros Hq. unfold Math_round. rewrite <- (Qfloor_Z 0).
  apply Qfloor_resp_le. cbn [this Qcplus Q2Qc]. rewrite !Qred_correct.
  apply (Qplus_le_compat 0 (this q) 0 (1 # 2)); [exact Hq | discriminate].
Qed.

(** The cycle of purchases sorted newest first: never negative, and known
    exactly when there are two purchases or more. *)
Lemma cycle_nonneg (l : list string) :
  StronglySorted Z.ge (map getTime l) ->
  match cycle getTime l with
  | Some c => 0 <= c /\ (2 <= length l)%nat
  | None => (length l < 2)%nat
  end.
Proof.
  intros Hs. unfold cycle. destruct (2 <=? length l)%nat eqn:Hlen.
  - apply Nat.leb_le in Hlen. split; [|exact Hlen].
    apply Math_round_nonneg. repeat apply Qcdiv_nonneg.
    + apply Qc_of_Z_nonneg. rewrite totalDays_gaps. apply gaps_nonneg, Hs.
    + apply Qc_of_Z_nonneg. lia.
    + apply Qc_of_Z_nonneg. unfold DAY. lia.
  - apply Nat.leb_gt in Hlen. exact Hlen.
Qed.

Lemma classify_three (d : Z) (c : option Z) (s : Z) :
  classify d c s = StockUp \/ classify d c s = RunningLow \/ classify d c s = Good.
Proof. unfold classify. repeat case_match; auto. Qed.

(** A list sorted by decreasing [key] starts with its elements at or above
    any threshold. *)
Lemma sorted_cut {A : Type} (key : A -> Z) (P : A -> Prop)
    `{!forall x, Decision (P x)} (t : Z) (l : list A) :
  (forall x, P x <-> t <= key x) ->
  StronglySorted Z.ge (map key l) ->
  l = filter P l ++ filter (fun x => ~ P x) l.
Proof.
  intros HP. induction l as [|x l IH]; cbn [map]; intros Hs; [reflexivity|].
  apply StronglySorted_inv in Hs as [Hs Hx]. rewrite !filter_cons.
  destruct (decide (P x)) as [Hp|Hn].
  - rewrite decide_False by tauto. cbn [app]. f_equal. apply IH, Hs.
  - rewrite decide_True by exact Hn.
    assert (Hall : Forall (fun y => ~ P y) l).
    { apply Forall_forall. intros y Hy Hpy.
      rewrite Forall_forall in Hx.
      assert (Hk : key x >= key y).
      { apply Hx. apply (list_elem_of_fmap_2 key _ y) in Hy. exact Hy. }
      apply HP in Hpy. apply Hn, HP. lia. }
    clear IH Hs Hx. 
    assert (Hnone : filter P l = []).
    { induction Hall as [|y l Hy _ IH]; [reflexivity|].
      rewrite filter_cons, decide_False by exact Hy. exact IH. }
    assert (Hsame : filter (fun y => ~ P y) l = l).
    { induction Hall as [|y l Hy _ IH]; [reflexivity|].
      rewrite filter_cons, decide_True by exact Hy. f_equal. apply IH.
      rewrite filter_cons, decide_False in Hnone by exact Hy. exact Hnone. }
    rewrite Hnone, Hsame. reflexivity.
Qed.

Lemma listed_score (i : ItemStat) :
  status i = StockUp \/ status i = RunningLow \/ status i = Good ->
  (listed i = true <-> 3 <= score (status i)).
Proof.
  unfold listed. intros [H|[H|H]]; rewrite H; cbn; split; intros; first [lia | done].
Qed.

Lemma itemStats_from (now : Z) (expenses : list Expense) (i : ItemStat) :
  i ∈ itemStats getTime now expenses <->
  exists k g, (k, g) ∈ items getTime expenses /\ i = itemStat getTime now g.
Proof.
  unfold itemStats, values.
  rewrite (sort_perm byUrgency), !list_elem_of_fmap. split.
  - intros [g [-> Hg]]. apply list_elem_of_fmap in Hg as [[k g'] [-> Hin]].
    apply (proj1 (entries_elem _ _)) in Hin. exists k, g'. auto.
  - intros [k [g [Hin ->]]]. exists g. split; [reflexivity|].
    apply list_elem_of_fmap. exists (k, g). split; [reflexivity|].
    apply (proj2 (entries_elem _ _)), Hin.
Qed.

(** X9. For every expense list and every [now], the predictor's table
    comes in the order of urgency ("Stock Up" before "Running Low" before
    "Good"); no item ever gets the status "Likely Expired" or "Unknown";
    and the shopping list is the leading part of the table, everything
    after it being "Good". *)
Theorem urgent_items_come_first (now : Z) (expenses : list Expense) :
  StronglySorted Z.ge
    (map (fun i => score (status i)) (itemStats getTime now expenses))
  /\ Forall (fun i => status i = StockUp \/ status i = RunningLow \/ status i = Good)
            (itemStats getTime now expenses)
  /\ exists rest,
       itemStats getTime now expenses = shoppingList getTime now expenses ++ rest
       /\ Forall (fun i => status i = Good) rest.
Proof.
  assert (Hsorted : StronglySorted Z.ge
            (map (fun i => score (status i)) (itemStats getTime now expenses))).
  { unfold itemStats.
    apply (sort_sorted byUrgency (fun i => score (status i))). reflexivity. }
  assert (Hthree : Forall (fun i => status i = StockUp \/ status i = RunningLow
                                    \/ status i = Good)
                     (itemStats getTime now expenses)).
  { apply Forall_forall. intros i Hi.
    apply itemStats_from in Hi as [k [g [_ ->]]]. apply classify_three. }
  split; [exact Hsorted|]. split; [exact Hthree|].
  exists (filter (fun i => ~ 3 <= score (status i)) (itemStats getTime now expenses)).
  split.
  - unfold shoppingList.
    rewrite (filter_ext_in (fun i => listed i = true)
               (fun i => 3 <= score (status i))).
    + apply (sorted_cut (fun i => score (status i)) _ 3); [tauto | exact Hsorted].
    + intros i Hi. rewrite Forall_forall in Hthree. apply listed_score, Hthree, Hi.
  - apply Forall_forall. intros i Hi. apply list_elem_of_filter in Hi as [Hlow Hi].
    rewrite Forall_forall in Hthree.
    destruct (Hthree i Hi) as [H|[H|H]]; [| |exact H];
      rewrite H in Hlow; cbn in Hlow; lia.
Qed.

(** X10. For every expense list, the purchase counts of the predictor's
    table add up to the number of expenses: every expense is counted in
    exactly one item.  Every item has at least one purchase; its average
    cycle is known exactly when it has two purchases or more, and is then
    never negative. *)
Theorem purchases_are_counted (now : Z) (expenses : list Expense) :
  sum_list (map purchaseCount (itemStats getTime now expenses)) = length expenses
  /\ Forall (fun i => (1 <= purchaseCount i)%nat
                      /\ match avgCycle i with
                         | Some c => 0 <= c /\ (2 <= purchaseCount i)%nat
                         | None => purchaseCount i = 1%nat
                         end)
            (itemStats getTime now expenses).
Proof.
  split.
  - unfold itemStats, values.
    rewrite (sum_list_with_Permutation_proper Datatypes.id _ _
               (Permutation_map purchaseCount (sort_perm byUrgency _))).
    rewrite !map_map.
    rewrite (map_ext _ (fun kv => length (dates (snd kv)))).
    + rewrite (sum_list_with_Permutation_proper Datatypes.id _ _
                 (Permutation_map (fun kv => length (dates (snd kv)))
                    (entries_perm (items getTime expenses)))).
      unfold items.
      rewrite (filed_count normName (enter getTime) (fun g => length (dates g))).
      * reflexivity.
      * intros e [g|]; cbn [enter dates from_option]; rewrite length_app; cbn; lia.
    + intros [k g]. cbn [snd itemStat purchaseCount]. apply sort_length.
  - apply Forall_forall. intros i Hi.
    apply itemStats_from in Hi as [k [g [Hin ->]]].
    destruct (items_group getTime expenses k g Hin) as [Hne [Hd _]].
    cbn [itemStat purchaseCount avgCycle].
    assert (Hlen : (1 <= length (sort (newestFirst getTime) (dates g)))%nat).
    { rewrite sort_length, Hd, length_map.
      destruct (purchases k expenses); [congruence | cbn; lia]. }
    split; [exact Hlen|].
    pose proof (cycle_nonneg (sort (newestFirst getTime) (dates g))
                  (sort_sorted (newestFirst getTime) getTime
                     (fun x y => eq_refl) (dates g))) as Hc.
    destruct (cycle getTime (sort (newestFirst getTime) (dates g))); [exact Hc | lia].
Qed.

End Tracker.

(** ** The planner's shortages and the predictor's list *)

Section Shortage.
Import JsObject.
Variable getTime : string -> Z.

(** X11. For every expense list and every [now], the planner and the
    predictor know the same items; every item the planner treats as needed
    is on the predictor's shopping list; and an item of the shopping list
    that the planner does not treat as needed has a known cycle, of which
    at least 0.8 but less than 0.9 has gone by. *)
Theorem needed_items_are_listed (now : Z) (expenses : list Expense) (k : string)
    (g : ShelfLifeInsights.Group) :
  (k, g) ∈ ShelfLifeInsights.items getTime expenses ->
  keys (StorePlanner.itemGroups getTime expenses)
  = keys (ShelfLifeInsights.items getTime expenses)
  /\ ShelfLifeInsights.itemStat getTime now g
       ∈ ShelfLifeInsights.itemStats getTime now expenses
  /\ (k ∈ StorePlanner.neededItems getTime now expenses ->
      ShelfLifeInsights.itemStat getTime now g
        ∈ ShelfLifeInsights.shoppingList getTime now expenses)
  /\ (ShelfLifeInsights.itemStat getTime now g
        ∈ ShelfLifeInsights.shoppingList getTime now expenses ->
      k ∉ StorePlanner.neededItems getTime now expenses ->
      exists c,
        ShelfLifeInsights.avgCycle (ShelfLifeInsights.itemStat getTime now g) = Some c
        /\ 8 * c
           <= 10 * ShelfLifeInsights.daysSinceLastPurchase
                     (ShelfLifeInsights.itemStat getTime now g)
        /\ 10 * ShelfLifeInsights.daysSinceLastPurchase
                  (ShelfLifeInsights.itemStat getTime now g)
           < 9 * c).
Proof.
  intros Hin.
  assert (Hstat : ShelfLifeInsights.itemStat getTime now g
                    ∈ ShelfLifeInsights.itemStats getTime now expenses).
  { apply itemStats_from. exists k, g. auto. }
  destruct (groups_partner getTime expenses k g Hin) as [g' [Hin' Hsame]].
  pose proof (neededItems_elem getTime now expenses k g' Hin') as Hneed.
  rewrite (isNeededNow_stat getTime now g g' Hsame) in Hneed. cbv zeta in Hneed.
  rewrite reaches_spec in Hneed. cbn [Qnum Qden] in Hneed.
  pose proof (cycle_nonneg getTime
                (sort (ShelfLifeInsights.newestFirst getTime) (ShelfLifeInsights.dates g))
                (sort_sorted (ShelfLifeInsights.newestFirst getTime) getTime
                   (fun x y => eq_refl) (ShelfLifeInsights.dates g))) as Hcyc.
  pose proof (shelfLife_pos (ShelfLifeInsights.g_category g)) as Hshelf.
  assert (Hlisted : ShelfLifeInsights.listed (ShelfLifeInsights.itemStat getTime now g)
                    = true
                    <-> ShelfLifeInsights.itemStat getTime now g
                          ∈ ShelfLifeInsights.shoppingList getTime now expenses).
  { unfold ShelfLifeInsights.shoppingList. rewrite list_elem_of_filter. tauto. }
  rewrite <- Hlisted. clear Hlisted.
  split; [apply groups_same_keys|]. split; [exact Hstat|]. clear Hstat.
  revert Hneed Hcyc.
  unfold ShelfLifeInsights.listed, ShelfLifeInsights.itemStat.
  cbn [ShelfLifeInsights.status ShelfLifeInsights.avgCycle
       ShelfLifeInsights.daysSinceLastPurchase ShelfLifeInsights.genericShelfLife].
  set (d := (now - getTime (hd EmptyString
                              (sort (ShelfLifeInsights.newestFirst getTime)
                                 (ShelfLifeInsights.dates g)))) / DAY).
  set (s := ShelfLifeInsights.shelfLife (ShelfLifeInsights.g_category g)) in *.
  destruct (ShelfLifeInsights.cycle getTime
              (sort (ShelfLifeInsights.newestFirst getTime) (ShelfLifeInsights.dates g)))
    as [c|]; cbn [default from_option Datatypes.id ShelfLifeInsights.classify];
    intros Hneed Hcyc.
  - destruct (c <=? d) eqn:Hcd.
    + apply Z.leb_le in Hcd. split; [reflexivity|].
      intros _ Hnot. exfalso. apply Hnot, Hneed. lia.
    + apply Z.leb_gt in Hcd.
      destruct (ShelfLifeInsights.reaches d c (8 # 10)) eqn:Hr.
      * apply reaches_spec in Hr. cbn [Qnum Qden] in Hr. split; [reflexivity|].
        intros _ Hnot. exists c. split; [reflexivity|]. split; [lia|].
        destruct (decide (10 * d < 9 * c)) as [Hlt|Hge]; [exact Hlt|].
        exfalso. apply Hnot, Hneed. lia.
      * split.
        -- intros Hk. apply Hneed in Hk.
           assert (Hyes : ShelfLifeInsights.reaches d c (8 # 10) = true).
           { apply reaches_spec. cbn [Qnum Qden]. lia. }
           congruence.
        -- cbn. discriminate.
  - destruct (s <=? d) eqn:Hsd.
    + apply Z.leb_le in Hsd. split; [reflexivity|].
      intros _ Hnot. exfalso. apply Hnot, Hneed. lia.
    + destruct (ShelfLifeInsights.reaches d s (9 # 10)) eqn:Hr.
      * apply reaches_spec in Hr. cbn [Qnum Qden] in Hr. split; [reflexivity|].
        intros _ Hnot. exfalso. apply Hnot, Hneed. exact Hr.
      * split.
        -- intros Hk. apply Hneed in Hk.
           assert (Hyes : ShelfLifeInsights.reaches d s (9 # 10) = true).
           { apply reaches_spec. cbn [Qnum Qden]. exact Hk. }
           congruence.
        -- cbn. discriminate.
Qed.

End Shortage.

Section ShortageCases.

Lemma needed_items_are_listed_witness :
  exists c,
    ShelfLifeInsights.avgCycle
      (ShelfLifeInsights.itemStat isoTime (isoTime "2024-01-19")
         {| ShelfLifeInsights.dates := ["2024-01-01"; "2024-01-11"];
            ShelfLifeInsights.g_category := "Dairy & Eggs";
            ShelfLifeInsights.name := "milk" |}) = Some c
    /\ 8 * c
       <= 10 * ShelfLifeInsights.daysSinceLastPurchase
                 (ShelfLifeInsights.itemStat isoTime (isoTime "2024-01-19")
                    {| ShelfLifeInsights.dates := ["2024-01-01"; "2024-01-11"];
                       ShelfLifeInsights.g_category := "Dairy & Eggs";
                       ShelfLifeInsights.name := "milk" |})
    /\ 10 * ShelfLifeInsights.daysSinceLastPurchase
              (ShelfLifeInsights.itemStat isoTime (isoTime "2024-01-19")
                 {| ShelfLifeInsights.dates := ["2024-01-01"; "2024-01-11"];
                    ShelfLifeInsights.g_category := "Dairy & Eggs";
                    ShelfLifeInsights.name := "milk" |})
       < 9 * c.
Proof.
  destruct (needed_items_are_listed isoTime (isoTime "2024-01-19")
              StorePlanner.cycle_history "milk"
              {| ShelfLifeInsights.dates := ["2024-01-01"; "2024-01-11"];
                 ShelfLifeInsights.g_category := "Dairy & Eggs";
                 ShelfLifeInsights.name := "milk" |}) as (_ & _ & _ & Hdrift).
  - vm_compute. left.
  - apply Hdrift.
    + vm_compute. left.
    + vm_compute. intros Hc. inversion Hc.
Defined.

End ShortageCases.

(** ** The shape of the plan *)

Section PlanShape.
Import JsObject StorePlanner.
Variable getTime : string -> Z.

Lemma filter_needed (now : Z) (expenses : list Expense) :
  filter (fun kv => fst kv ∈ neededItems getTime now expenses)
         (entries (itemGroups getTime expenses))
  = filter (fun kv => isNeededNow getTime now (snd kv) = true)
           (entries (itemGroups getTime expenses)).
Proof.
  apply filter_ext_in. intros [k g] Hin. cbn [fst snd].
  apply neededItems_elem, (proj1 (entries_elem _ _)), Hin.
Qed.

Lemma partition_perm {X : Type} (l : list (bool * X)) :
  filter (fun v => fst v = true) l ++ filter (fun v => fst v = false) l ≡ₚ l.
Proof.
  induction l as [|[b x] l IH]; [reflexivity|].
  rewrite !filter_cons. cbn [fst]. destruct b.
  - rewrite decide_True, decide_False by congruence. cbn [app]. rewrite IH. reflexivity.
  - rewrite decide_False, decide_True by congruence.
    rewrite <- Permutation_middle, IH. reflexivity.
Qed.

(** What a verdict can be. *)
Lemma verdict_shape (sel : string) (expenses : list Expense) (k : string) (g : Group) :
  purchases k expenses <> [] ->
  p_name (snd (verdict sel expenses k g)) = name g
  /\ p_category (snd (verdict sel expenses k g)) = g_category g
  /\ isNeeded (snd (verdict sel expenses k g)) = true
  /\ (fst (verdict sel expenses k g) = true ->
      (reason (snd (verdict sel expenses k g)) = Exclusive
       \/ reason (snd (verdict sel expenses k g)) = BestPrice)
      /\ cheapestStore (snd (verdict sel expenses k g)) = None
      /\ savings (snd (verdict sel expenses k g)) = None
      /\ sel ∈ stores (purchases k expenses)
      /\ avgPriceHere (snd (verdict sel expenses k g))
         = Fin (priceAt sel (purchases k expenses)))
  /\ (fst (verdict sel expenses k g) = false ->
      reason (snd (verdict sel expenses k g)) = Needed
      /\ exists c,
           cheapestStore (snd (verdict sel expenses k g)) = Some c
           /\ c <> sel
           /\ c ∈ stores (purchases k expenses)
           /\ match savings (snd (verdict sel expenses k g)) with
              | Some s =>
                  sel ∈ stores (purchases k expenses)
                  /\ exists q, s = Fin q /\ (0 <= q)%Qc
              | None =>
                  (sel ∉ stores (purchases k expenses))
                  /\ avgPriceHere (snd (verdict sel expenses k g)) = Fin 0%Qc
              end).
Proof.
  intros Hne.
  destruct (cheapest_first (purchases k expenses) Hne) as [c [Hc Hfirst]].
  pose proof (cheapest_is_store _ _ Hfirst) as Hcs.
  unfold verdict. fold (purchases k expenses). rewrite Hc, storeStats_get.
  destruct (decide (boughtAt sel (purchases k expenses) = [])) as [Hnone|Hsome].
  - cbn [fst snd p_name p_category isNeeded reason cheapestStore savings avgPriceHere].
    assert (Hout : sel ∉ stores (purchases k expenses)).
    { rewrite stores_elem. tauto. }
    do 3 (split; [reflexivity|]). split; [discriminate|].
    intros _. split; [reflexivity|].
    exists c. split; [reflexivity|]. split; [intros ->; contradiction|].
    split; [exact Hcs|]. split; [exact Hout | reflexivity].
  - assert (Hin : sel ∈ stores (purchases k expenses)) by (apply stores_elem, Hsome).
    rewrite (average_expected _ _ Hsome).
    destruct (decide (uniqueStore (storeStats (purchases k expenses)) = Some sel)).
    + cbn [fst snd p_name p_category isNeeded reason cheapestStore savings avgPriceHere].
      do 3 (split; [reflexivity|]). split; [|discriminate].
      intros _. split; [left; reflexivity|]. auto.
    + destruct (decide (c = sel)) as [Hcsel|Hcsel].
      * cbn [fst snd p_name p_category isNeeded reason cheapestStore savings avgPriceHere].
        do 3 (split; [reflexivity|]). split; [|discriminate].
        intros _. split; [right; reflexivity|]. auto.
      * cbn [fst snd p_name p_category isNeeded reason cheapestStore savings avgPriceHere].
        do 3 (split; [reflexivity|]). split; [discriminate|].
        intros _. split; [reflexivity|].
        exists c. split; [reflexivity|]. split; [exact Hcsel|].
        split; [exact Hcs|]. split; [exact Hin|].
        exists (priceAt sel (purchases k expenses) - priceAt c (purchases k expenses))%Qc.
        split; [reflexivity|].
        pose proof (cheapest_le _ _ _ Hfirst Hin) as Hle.
        apply (Qcplus_le_compat _ _ (- priceAt c (purchases k expenses))
                 (- priceAt c (purchases k expenses))) in Hle; [|apply Qcle_refl].
        rewrite Qcplus_opp_r in Hle. exact Hle.
Qed.

Lemma verdicts_of_plan (sel : string) (now : Z) (expenses : list Expense)
    (p : PlannedItem) (b : bool) :
  p ∈ (if b then smartBuys (plan getTime sel now expenses)
       else otherNeeds (plan getTime sel now expenses)) ->
  exists k g,
    (k, g) ∈ itemGroups getTime expenses
    /\ k ∈ neededItems getTime now expenses
    /\ fst (verdict sel expenses k g) = b
    /\ p = snd (verdict sel expenses k g).
Proof.
  unfold plan. destruct (decide (sel = EmptyString)) as [Hsel|Hsel].
  - destruct b; cbn; intros Hp; apply elem_of_nil in Hp; contradiction.
  - destruct b; cbn [smartBuys otherNeeds]; intros Hp;
      apply list_elem_of_fmap in Hp as [v [-> Hv]];
      apply list_elem_of_filter in Hv as [Hb Hv];
      apply list_elem_of_fmap in Hv as [[k g] [-> Hkg]];
      apply list_elem_of_filter in Hkg as [Hk Hkg];
      apply (proj1 (entries_elem _ _)) in Hkg;
      exists k, g; cbn [fst snd] in *; auto.
Qed.

(** X12. For every non-empty store selection, the plan places every needed
    item exactly once: the display names of the smart buys and of the
    other needs together are those of the needed items' groups, and the
    two lists together have as many entries as there are needed items. *)
Theorem plan_partitions_needed (sel : string) (now : Z) (expenses : list Expense) :
  sel <> EmptyString ->
  map p_name (smartBuys (plan getTime sel now expenses))
    ++ map p_name (otherNeeds (plan getTime sel now expenses))
  ≡ₚ map (fun kv => name (snd kv))
         (filter (fun kv => isNeededNow getTime now (snd kv) = true)
                 (itemGroups getTime expenses))
  /\ (length (smartBuys (plan getTime sel now expenses))
      + length (otherNeeds (plan getTime sel now expenses))
      = length (neededItems getTime now expenses))%nat.
Proof.
  intros Hsel.
  assert (Hnames :
    map p_name (smartBuys (plan getTime sel now expenses))
      ++ map p_name (otherNeeds (plan getTime sel now expenses))
    ≡ₚ map (fun kv => name (snd kv))
           (filter (fun kv => isNeededNow getTime now (snd kv) = true)
                   (itemGroups getTime expenses))).
  { unfold plan. rewrite decide_False by exact Hsel. cbn [smartBuys otherNeeds].
    rewrite <- !map_app, partition_perm, !map_map, filter_needed.
    rewrite (map_ext_in _ (fun kv => name (snd kv))).
    - apply Permutation_map. rewrite entries_perm. reflexivity.
    - intros [k g] Hin. cbn [fst snd].
      apply list_elem_of_In, list_elem_of_filter in Hin as [_ Hin].
      apply (proj1 (entries_elem _ _)) in Hin.
      apply verdict_shape. exact (itemGroups_purchased getTime expenses k g Hin). }
  split; [exact Hnames|].
  apply Permutation_length in Hnames.
  rewrite length_app, !length_map in Hnames. rewrite Hnames.
  unfold neededItems, keys. rewrite length_map.
  apply Permutation_length. rewrite entries_perm. reflexivity.
Qed.

(** X13. For every store selection, a smart buy is an item bought at the
    selected store, with its average price there and neither savings nor
    another store shown; an other need names a cheapest store that is a
    store of the item and never the selected one, and its savings, shown
    exactly when the item was bought at the selected store, are never
    negative (without savings the price shown is zero). *)
Theorem plan_entries_are_sound (sel : string) (now : Z) (expenses : list Expense) :
  Forall (fun p =>
            isNeeded p = true
            /\ (reason p = Exclusive \/ reason p = BestPrice)
            /\ cheapestStore p = None /\ savings p = None
            /\ exists k,
                 k ∈ neededItems getTime now expenses
                 /\ sel ∈ stores (purchases k expenses)
                 /\ avgPriceHere p = Fin (priceAt sel (purchases k expenses)))
         (smartBuys (plan getTime sel now expenses))
  /\ Forall (fun p =>
               isNeeded p = true
               /\ reason p = Needed
               /\ exists k c,
                    k ∈ neededItems getTime now expenses
                    /\ cheapestStore p = Some c
                    /\ c <> sel
                    /\ c ∈ stores (purchases k expenses)
                    /\ match savings p with
                       | Some s =>
                           sel ∈ stores (purchases k expenses)
                           /\ exists q, s = Fin q /\ (0 <= q)%Qc
                       | None =>
                           (sel ∉ stores (purchases k expenses))
                           /\ avgPriceHere p = Fin 0%Qc
                       end)
            (otherNeeds (plan getTime sel now expenses)).
Proof.
  split; apply Forall_forall; intros p Hp.
  - destruct (verdicts_of_plan sel now expenses p true Hp) as (k & g & Hin & Hk & Hb & ->).
    destruct (verdict_shape sel expenses k g
                (itemGroups_purchased getTime expenses k g Hin))
      as (_ & _ & Hneed & Hsmart & _).
    destruct (Hsmart Hb) as (Hr & Hc & Hs & Hst & Hp').
    repeat split; try assumption. exists k. auto.
  - destruct (verdicts_of_plan sel now expenses p false Hp) as (k & g & Hin & Hk & Hb & ->).
    destruct (verdict_shape sel expenses k g
                (itemGroups_purchased getTime expenses k g Hin))
      as (_ & _ & Hneed & _ & Hother).
    destruct (Hother Hb) as (Hr & c & Hc & Hcs & Hst & Hsav).
    repeat split; try assumption. exists k, c. auto.
Qed.

End PlanShape.

Section PlanShapeCases.
Import StorePlanner.

Lemma plan_partitions_needed_witness :
  (length (smartBuys (plan isoTime "B" (isoTime "2024-03-01") tie_history))
   + length (otherNeeds (plan isoTime "B" (isoTime "2024-03-01") tie_history))
   = length (neededItems isoTime (isoTime "2024-03-01") tie_history))%nat.
Proof.
  destruct (plan_partitions_needed isoTime "B" (isoTime "2024-03-01") tie_history)
    as [_ Hlen].
  - discriminate.
  - exact Hlen.
Defined.

End PlanShapeCases.

(** ** The dashboard *)

Section SortRel.
Import JsObject.
Context {A : Type} (cmp : A -> A -> Z) (P : A -> Prop) (R : A -> A -> Prop).
Hypothesis Hgt : forall x y, P x -> P y -> 0 < cmp x y -> R y x.
Hypothesis Hle : forall x y, P x -> P y -> ~ 0 < cmp x y -> R x y.
Hypothesis Htrans : forall x y z, R x y -> R y z -> R x z.

Lemma sort_insert_rel (x : A) (l : list A) :
  P x -> Forall P l -> StronglySorted R l -> StronglySorted R (sort_insert cmp x l).
Proof.
  induction l as [|y l IH]; cbn [sort_insert]; intros Hx Hl Hs.
  - repeat constructor.
  - apply Forall_cons in Hl as [Hy Hl]. apply StronglySorted_inv in Hs as [Hs Hyl].
    destruct (0 <? cmp x y) eqn:Hc.
    + apply Z.ltb_lt in Hc. constructor; [apply IH; assumption|].
      rewrite (sort_insert_perm cmp x l).
      constructor; [apply Hgt; assumption | exact Hyl].
    + apply Z.ltb_ge in Hc.
      assert (Hxy : R x y) by (apply Hle; [assumption..|lia]).
      constructor; [constructor; assumption|].
      constructor; [exact Hxy|].
      eapply Forall_impl; [exact Hyl|]. intros z Hz. eapply Htrans; eassumption.
Qed.

Lemma sort_rel (l : list A) : Forall P l -> StronglySorted R (sort cmp l).
Proof.
  unfold sort. induction l as [|x l IH]; cbn [fold_right]; intros Hl.
  - constructor.
  - apply Forall_cons in Hl as [Hx Hl]. apply sort_insert_rel; [exact Hx| |apply IH, Hl].
    fold (sort cmp l). rewrite (sort_perm cmp l). exact Hl.
Qed.

End SortRel.

Section Filters.
Context {A : Type} (P : A -> Prop) `{!forall x, Decision (P x)}.

Lemma filter_none (l : list A) : Forall (fun x => ~ P x) l -> filter P l = [].
Proof.
  induction 1 as [|x l Hx _ IH]; [reflexivity|].
  rewrite filter_cons, decide_False by exact Hx. exact IH.
Qed.

Lemma filter_all (l : list A) : Forall P l -> filter P l = l.
Proof.
  induction 1 as [|x l Hx _ IH]; [reflexivity|].
  rewrite filter_cons, decide_True by exact Hx. f_equal. exact IH.
Qed.

End Filters.

Section DashboardFacts.
Import JsObject Dashboard.

Lemma sign_pos (q : Qc) : 0 < sign (Fin q) <-> (0 < q)%Qc.
Proof.
  unfold sign. repeat case_bool_decide; split; intros; first [assumption | lia | tauto].
Qed.

(** *** Spending by store *)

Lemma started_some (l : list Expense) (q : Qc) :
  fold_left (fun slot e => Some (addOrStart (amount e) slot)) l (Some (Fin q))
  = Some (Fin (q + Qcsum (map amount l))).
Proof.
  revert q. induction l as [|e l IH]; intros q; cbn [fold_left map Qcsum].
  - do 2 f_equal. ring.
  - unfold addOrStart at 2. cbn [or_zero nadd]. rewrite IH. do 2 f_equal. ring.
Qed.

Lemma storeTotals_get (expenses : list Expense) (s : string) :
  get s (storeTotals expenses)
  = if decide (filter (fun e => storeName e = s) expenses = []) then None
    else Some (Fin (spentAt s expenses)).
Proof.
  unfold storeTotals, spentAt. rewrite filed_get. cbn [get].
  destruct (filter (fun e => storeName e = s) expenses) as [|e l]; [reflexivity|].
  rewrite decide_False by discriminate. cbn [fold_left].
  unfold addOrStart at 2. cbn [nadd]. rewrite started_some. cbn [map Qcsum].
  do 2 f_equal. ring.
Qed.

Lemma storeTotals_NoDup (expenses : list Expense) : NoDup (keys (storeTotals expenses)).
Proof. unfold storeTotals. apply filed_NoDup. constructor. Qed.

Lemma storeTotals_elem (expenses : list Expense) (s : string) (v : number) :
  (s, v) ∈ storeTotals expenses
  <-> v = Fin (spentAt s expenses) /\ exists e, e ∈ expenses /\ storeName e = s.
Proof.
  split.
  - intros Hin. apply elem_get in Hin; [|apply storeTotals_NoDup].
    rewrite storeTotals_get in Hin.
    destruct (filter (fun e => storeName e = s) expenses) as [|e l] eqn:Hf;
      [discriminate|].
    rewrite decide_False in Hin by discriminate. injection Hin as <-.
    split; [reflexivity|].
    assert (He : e ∈ filter (fun e => storeName e = s) expenses) by (rewrite Hf; left).
    apply list_elem_of_filter in He as [Hs He]. exists e. auto.
  - intros [-> [e [He Hs]]]. apply get_Some_elem. rewrite storeTotals_get.
    rewrite decide_False; [reflexivity|]. intros Hnil.
    assert (Hin : e ∈ filter (fun e => storeName e = s) expenses)
      by (apply list_elem_of_filter; auto).
    rewrite Hnil in Hin. apply elem_of_nil in Hin. exact Hin.
Qed.

(** X14. For every expense list, the chart of the top stores shows the
    five stores where the most was spent, or all the stores when there
    are fewer: its entries are distinct stores of the expenses (an empty
    store name counting as "Unknown"), each with the sum of the amounts
    spent there, in the order of decreasing spend, and no store left out
    has a larger sum than a store shown. *)
Theorem top_stores (expenses : list Expense) :
  length (storeData expenses)
  = Nat.min 5 (length (firsts [] (map storeName expenses)))
  /\ NoDup (map fst (storeData expenses))
  /\ Forall (fun kv => snd kv = Fin (spentAt (fst kv) expenses)
                       /\ exists e, e ∈ expenses /\ storeName e = fst kv)
            (storeData expenses)
  /\ StronglySorted
       (fun x y => (spentAt (fst y) expenses <= spentAt (fst x) expenses)%Qc)
       (storeData expenses)
  /\ forall e,
       e ∈ expenses ->
       storeName e ∉ map fst (storeData expenses) ->
       Forall (fun kv => (spentAt (storeName e) expenses
                          <= spentAt (fst kv) expenses)%Qc)
              (storeData expenses).
Proof.
  unfold storeData.
  set (S := sort bySpend (entries (storeTotals expenses))).
  assert (HS : S ≡ₚ storeTotals expenses).
  { unfold S. rewrite (sort_perm bySpend). apply entries_perm. }
  assert (Hval : Forall (fun kv => snd kv = Fin (spentAt (fst kv) expenses)) S).
  { rewrite HS. apply Forall_forall. intros [s v] Hin.
    apply storeTotals_elem in Hin as [-> _]. reflexivity. }
  assert (Hsorted : StronglySorted
            (fun x y => (spentAt (fst y) expenses <= spentAt (fst x) expenses)%Qc) S).
  { unfold S.
    apply (sort_rel bySpend (fun kv => snd kv = Fin (spentAt (fst kv) expenses))).
    - intros x y Hx Hy Hc. unfold bySpend, nsub in Hc. rewrite Hx, Hy in Hc.
      cbn [nneg nadd] in Hc. apply sign_pos in Hc.
      apply Qclt_le_weak, (proj2 (Qclt_minus_iff _ _)). exact Hc.
    - intros x y Hx Hy Hc. unfold bySpend, nsub in Hc. rewrite Hx, Hy in Hc.
      cbn [nneg nadd] in Hc. rewrite sign_pos in Hc.
      apply Qcnot_lt_le. intros Hlt. apply Hc, (proj1 (Qclt_minus_iff _ _)). exact Hlt.
    - intros x y z Hxy Hyz. eapply Qcle_trans; eassumption.
    - rewrite entries_perm, <- HS. exact Hval. }
  split; [|split; [|split; [|split]]].
  - rewrite length_take, (Permutation_length HS).
    rewrite <- (length_map fst (storeTotals expenses)).
    change (map fst (storeTotals expenses)) with (keys (storeTotals expenses)).
    unfold storeTotals. rewrite (filed_order storeName). reflexivity.
  - change (map fst (take 5 S)) with (fst <$> take 5 S). rewrite fmap_take.
    eapply sublist_NoDup; [|apply sublist_take].
    change (NoDup (map fst S)). rewrite HS. apply storeTotals_NoDup.
  - apply Forall_forall. intros [s v] Hin. apply (subseteq_take 5) in Hin.
    rewrite HS in Hin. apply storeTotals_elem in Hin. exact Hin.
  - rewrite <- (take_drop 5 S) in Hsorted.
    apply StronglySorted_app_1_l in Hsorted. exact Hsorted.
  - intros e He Hout. apply Forall_forall. intros kv Hkv.
    assert (Hin : (storeName e, Fin (spentAt (storeName e) expenses)) ∈ S).
    { rewrite HS. apply storeTotals_elem. split; [reflexivity|]. exists e. auto. }
    rewrite <- (take_drop 5 S) in Hin, Hsorted.
    apply elem_of_app in Hin as [Hin|Hin].
    + exfalso. apply Hout.
      apply (list_elem_of_fmap_2 fst _ _) in Hin. exact Hin.
    + apply (StronglySorted_app_1_elem_of _ _ _ _ _ Hsorted Hkv Hin).
Qed.

(** *** Spending by category *)

Lemma added_some (l : list Expense) (q : Qc) :
  fold_left (fun slot e => Some (addTo (amount e) slot)) l (Some (Fin q))
  = Some (Fin (q + Qcsum (map amount l))).
Proof.
  revert q. induction l as [|e l IH]; intros q; cbn [fold_left map Qcsum].
  - do 2 f_equal. ring.
  - cbn [addTo nadd]. rewrite IH. do 2 f_equal. ring.
Qed.

Lemma added_nan (l : list Expense) :
  fold_left (fun slot e => Some (addTo (amount e) slot)) l (Some NaN) = Some NaN.
Proof. induction l as [|e l IH]; cbn [fold_left addTo nadd]; [reflexivity | exact IH]. Qed.

Lemma categories_NoDup : NoDup Category_values.
Proof. compute_done. Qed.

Lemma categories_keys :
  keys (map (fun c => (c, Fin 0%Qc)) Category_values) = Category_values.
Proof. reflexivity. Qed.

Lemma categories_get (c : string) :
  get c (map (fun c => (c, Fin 0%Qc)) Category_values)
  = if decide (c ∈ Category_values) then Some (Fin 0%Qc) else None.
Proof.
  destruct (decide (c ∈ Category_values)) as [Hin|Hout].
  - apply elem_get; [rewrite categories_keys; apply categories_NoDup|].
    apply (list_elem_of_fmap_2 (fun c => (c, Fin 0%Qc))). exact Hin.
  - apply get_None_keys. rewrite categories_keys. exact Hout.
Qed.

Lemma categoryTotals_get (expenses : list Expense) (c : string) (v : number) :
  get c (categoryTotals expenses) = Some v -> v = filed_under expenses c.
Proof.
  unfold categoryTotals, filed_under, spentOn. rewrite filed_get, categories_get.
  destruct (decide (c ∈ Category_values)).
  - rewrite added_some. intros [= <-]. f_equal. ring.
  - destruct (filter (fun e => category e = c) expenses) as [|e l]; [discriminate|].
    cbn [fold_left addTo]. rewrite added_nan. intros [= <-]. reflexivity.
Qed.

Lemma categoryTotals_entries (expenses : list Expense) :
  categoryTotals expenses
  = map (fun c => (c, Fin (spentOn c expenses))) Category_values
    ++ map (fun c => (c, NaN)) (firsts Category_values (map category expenses)).
Proof.
  rewrite (object_by_keys (filed_under expenses) (categoryTotals expenses)).
  - unfold categoryTotals at 1. rewrite (filed_order category), categories_keys.
    rewrite map_app.
    rewrite (map_ext_in (fun k => (k, filed_under expenses k))
               (fun c => (c, Fin (spentOn c expenses))) Category_values).
    2:{ intros c Hc. apply list_elem_of_In in Hc.
        unfold filed_under. rewrite decide_True by exact Hc. reflexivity. }
    rewrite (map_ext_in (fun k => (k, filed_under expenses k))
               (fun c => (c, NaN)) (firsts Category_values (map category expenses))).
    2:{ intros c Hc. apply list_elem_of_In, firsts_elem in Hc as [_ Hc].
        unfold filed_under. rewrite decide_False by exact Hc. reflexivity. }
    reflexivity.
  - unfold categoryTotals. apply filed_NoDup. rewrite categories_keys.
    apply categories_NoDup.
  - apply categoryTotals_get.
Qed.

Lemma categories_no_index :
  Forall (fun c => ~ is_Some (array_index c)) Category_values.
Proof.
  repeat constructor; intros [n Hn]; vm_compute in Hn; discriminate.
Qed.

(** X15. For every expense list, the category chart has, in the order of
    the enumeration, the categories whose expenses add up to more than
    zero, each with that sum; an expense whose category is not in the
    enumeration is counted nowhere. *)
Theorem category_chart (expenses : list Expense) :
  categoryData expenses
  = filter (fun kv => ngt (snd kv) (Fin 0%Qc) = true)
      (map (fun c => (c, Fin (spentOn c expenses))) Category_values).
Proof.
  unfold categoryData, entries. rewrite categoryTotals_entries.
  set (known := map (fun c => (c, Fin (spentOn c expenses))) Category_values).
  set (others := map (fun c => (c, NaN))
                   (firsts Category_values (map category expenses))).
  assert (Hknown : Forall (fun kv : string * number =>
                             ~ is_Some (array_index (fst kv))) known).
  { unfold known. apply Forall_fmap. exact categories_no_index. }
  assert (Hothers : Forall (fun kv : string * number =>
                              ~ ngt (snd kv) (Fin 0%Qc) = true) others).
  { unfold others. apply Forall_fmap, Forall_forall. intros c _. cbn. discriminate. }
  rewrite !filter_app, (filter_all _ known Hknown).
  rewrite (filter_none (fun kv => is_Some (array_index (fst kv))) known).
  2:{ eapply Forall_impl; [exact Hknown|]. cbn. tauto. }
  rewrite app_nil_l.
  rewrite (filter_none (fun kv => ngt (snd kv) (Fin 0%Qc) = true)
             (sort byIndex _)).
  2:{ rewrite (sort_perm byIndex). apply Forall_forall. intros kv Hkv.
      apply list_elem_of_filter in Hkv as [_ Hkv].
      rewrite Forall_forall in Hothers. apply Hothers, Hkv. }
  rewrite (filter_none (fun kv => ngt (snd kv) (Fin 0%Qc) = true)
             (filter _ others)).
  2:{ apply Forall_forall. intros kv Hkv.
      apply list_elem_of_filter in Hkv as [_ Hkv].
      rewrite Forall_forall in Hothers. apply Hothers, Hkv. }
  rewrite app_nil_l, app_nil_r. reflexivity.
Qed.

(** *** The price comparison *)

(** X16. For every ASCII search text and every expense list whose
    descriptions are ASCII texts, the price comparison lists exactly the
    expenses whose description contains the search text, letter case
    apart (nothing for a search text that is empty or made of white
    space), each as many times as it occurs, from the cheapest to the most
    expensive. *)
Theorem price_comparison (priceSearch : string) (expenses : list Expense) :
  ascii_text priceSearch = true ->
  Forall (fun e => ascii_text (description e) = true) expenses ->
  priceComparisonData priceSearch expenses
  ≡ₚ (if decide (blank priceSearch) then []
      else filter (fun e => mentions (description e) priceSearch) expenses)
  /\ StronglySorted (fun a b => (amount a <= amount b)%Qc)
       (priceComparisonData priceSearch expenses).
Proof.
  intros _ _. unfold priceComparisonData.
  destruct (decide (trim priceSearch = EmptyString \/ expenses = [])) as [Hb|Hb].
  - split; [|constructor].
    destruct (decide (blank priceSearch)) as [Hq|Hq]; [reflexivity|].
    destruct Hb as [Hb| ->]; [|reflexivity].
    apply trim_blank in Hb. contradiction.
  - rewrite decide_False by (rewrite <- trim_blank; tauto).
    rewrite (filter_ext_in (fun e => mentions (description e) priceSearch)
               (fun e => includes (toLowerCase (description e))
                           (toLowerCase priceSearch) = true))
      by (intros e _; apply mentions_iff).
    split; [apply sort_perm|].
    apply (sort_rel byPrice (fun _ => True)).
    + intros x y _ _ Hc. unfold byPrice, nsub in Hc. cbn [nneg nadd] in Hc.
      apply sign_pos in Hc. apply Qclt_le_weak, (proj2 (Qclt_minus_iff _ _)). exact Hc.
    + intros x y _ _ Hc. unfold byPrice, nsub in Hc. cbn [nneg nadd] in Hc.
      rewrite sign_pos in Hc.
      apply Qcnot_lt_le. intros Hlt. apply Hc, (proj1 (Qclt_minus_iff _ _)). exact Hlt.
    + intros x y z Hxy Hyz. eapply Qcle_trans; eassumption.
    + apply Forall_forall. auto.
Qed.

Lemma price_comparison_witness :
  priceComparisonData "MILK" GlobalSearch.visits
  ≡ₚ (if decide (blank "MILK") then []
      else filter (fun e => mentions (description e) "MILK") GlobalSearch.visits)
  /\ StronglySorted (fun a b => (amount a <= amount b)%Qc)
       (priceComparisonData "MILK" GlobalSearch.visits).
Proof.
  apply (price_comparison "MILK" GlobalSearch.visits).
  - reflexivity.
  - repeat constructor.
Defined.

(** The search text is not trimmed before it is looked for: "bread" finds
    the three purchases of bread, "bread " none. *)
Example price_comparison_on_visits :
  map date (priceComparisonData "bread" GlobalSearch.visits)
  = ["2023-10-26"; "2023-10-27"; "2023-10-27"]
  /\ priceComparisonData "bread " GlobalSearch.visits = [].
Proof. split; vm_compute; reflexivity. Qed.

End DashboardFacts.

(** ** The net position of "Me" *)

Section Position.
Import SplitAnalysis NetPosition.

Local Ltac qc_unfold :=
  unfold Qclt, Qcle, Qcminus, Qcdiv, Qc_of_Z in *;
  cbn [this Qcplus Qcopp Qcmult Qcinv Q2Qc] in *;
  rewrite ?Qred_correct in *.

Lemma Math_round_mono (p q : Qc) : (p <= q)%Qc -> Math_round p <= Math_round q.
Proof.
  intros Hpq. unfold Math_round. apply Qfloor_resp_le. qc_unfold. lra.
Qed.

(** An amount of a cent or more is not rounded to less than a cent. *)
Lemma round_cents_cent (q : Qc) :
  (Q2Qc (1 # 100) <= q)%Qc -> (Q2Qc (1 # 100) <= round_cents q)%Qc.
Proof.
  intros Hq. unfold round_cents.
  rewrite bool_decide_eq_true_2 by (qc_unfold; lra).
  assert (Hn : 1 <= Math_round (q * Qc_of_Z 100)%Qc).
  { rewrite <- (Math_round_Z 1) at 1. apply Math_round_mono.
    qc_unfold. unfold inject_Z. lra. }
  revert Hn. generalize (Math_round (q * Qc_of_Z 100)%Qc). intros n Hn.
  rewrite Zle_Qle in Hn. qc_unfold.
  change (inject_Z 1) with 1%Q in Hn. change (inject_Z 100) with (100 # 1).
  change (/ (100 # 1))%Q with (1 # 100)%Q.
  set (x := inject_Z n) in *. clearbody x. lra.
Qed.

Lemma share_finite (k : string) (people : list string) (e : Expense) :
  people <> [] -> exists q, share_of k people e = Fin q.
Proof.
  intros Hne. unfold share_of. case_bool_decide.
  - unfold ndiv, of_nat. rewrite bool_decide_eq_false_2.
    + rewrite ntimes_fin. eauto.
    + symmetry. apply Qclt_not_eq, Qc_of_nat_pos.
      destruct people; [congruence | cbn; lia].
  - case_bool_decide; eauto.
Qed.

Lemma consumed_finite (k : string) (people : list string) (expenses : list Expense) :
  people <> [] -> exists q, consumed_by k people expenses = Fin q.
Proof.
  intros Hne. unfold consumed_by.
  induction expenses as [|e l [q IH]]; cbn [map].
  - exists 0%Qc. reflexivity.
  - destruct (share_finite k people e Hne) as [s Hs].
    rewrite nsum_cons, IH, Hs. cbn [nadd]. eauto.
Qed.

(** X17. For every expense list and every non-empty list of participants,
    the settlement text for "Me" says "no data" exactly when "Me" is
    neither a participant, nor a payer, nor the owner of an expense;
    otherwise the net balance of "Me" is a finite amount, the text says
    "settled up" when it is below one cent in absolute value, and beyond
    one cent it shows the balance (owed) or its opposite (owing) to the
    nearest cent, a whole number of cents half a cent away from it at
    most, and never less than one cent; at one cent exactly it reads
    either way. *)
Theorem my_position (expenses : list Expense) (people : list string) :
  people <> [] ->
  reads (known "Me" expenses people)
    (nsub (Fin (paid_by "Me" expenses)) (consumed_by "Me" people expenses))
    (settlementText (stats expenses people)).
Proof.
  intros Hne. unfold settlementText. rewrite stats_lookup. unfold settlement.
  destruct (decide (known "Me" expenses people)) as [Hk|Hk]; [|exact Hk].
  cbn [net]. destruct (consumed_finite "Me" people expenses Hne) as [c Hc].
  rewrite Hc. cbn [nsub nneg nadd].
  set (q := (paid_by "Me" expenses + - c)%Qc).
  unfold Math_abs, ngt. cbn [toFixed2].
  destruct (bool_decide (q < 0)%Qc) eqn:Hneg.
  - apply bool_decide_eq_true in Hneg. rewrite !nlt_fin.
    destruct (bool_decide (- q < Q2Qc (1 # 100))%Qc) eqn:Hsmall.
    + apply bool_decide_eq_true in Hsmall. cbn [reads]. split; [exact Hk|].
      exists q. split; [reflexivity|]. revert Hneg Hsmall. generalize q. intros r Hneg Hsmall.
      split; qc_unfold; lra.
    + apply bool_decide_eq_false in Hsmall.
      rewrite bool_decide_eq_false_2.
      2:{ revert Hneg. generalize q. intros r Hneg Hpos. qc_unfold. lra. }
      cbn [toFixed2 reads]. split; [exact Hk|].
      exists q, (round_cents (- q)). split; [reflexivity|].
      assert (Hbig : (Q2Qc (1 # 100) <= - q)%Qc) by (apply Qcnot_lt_le, Hsmall).
      split; [|split; [reflexivity|split;
                 [apply round_cents_nearest | apply round_cents_cent, Hbig]]].
      revert Hbig. generalize q. intros r Hbig. qc_unfold. lra.
  - apply bool_decide_eq_false in Hneg. rewrite !nlt_fin.
    destruct (bool_decide (q < Q2Qc (1 # 100))%Qc) eqn:Hsmall.
    + apply bool_decide_eq_true in Hsmall. cbn [reads]. split; [exact Hk|].
      exists q. split; [reflexivity|]. apply Qcnot_lt_le in Hneg.
      revert Hneg Hsmall. generalize q. intros r Hneg Hsmall.
      split; qc_unfold; lra.
    + apply bool_decide_eq_false in Hsmall. apply Qcnot_lt_le in Hsmall.
      rewrite bool_decide_eq_true_2.
      2:{ revert Hsmall. generalize q. intros r Hsmall. qc_unfold. lra. }
      cbn [toFixed2 reads]. split; [exact Hk|].
      exists q, (round_cents q). split; [reflexivity|].
      split; [exact Hsmall|].
      split; [reflexivity|split; [apply round_cents_nearest | apply round_cents_cent, Hsmall]].
Qed.

Lemma my_position_witness :
  reads (known "Me" example_expenses example_people)
    (nsub (Fin (paid_by "Me" example_expenses))
       (consumed_by "Me" example_people example_expenses))
    (settlementText (stats example_expenses example_people)).
Proof. apply (my_position example_expenses example_people). discriminate. Defined.

End Position.

(** ** How a discount is shared out *)

Section Apportioning.
Import ExpenseForm.

Local Ltac qc_unfold :=
  unfold Qclt, Qcle, Qcminus, Qcdiv, Qc_of_Z in *;
  cbn [this Qcplus Qcopp Qcmult Qcinv Q2Qc] in *;
  rewrite ?Qred_correct in *.

(** The share of an item that is left, as a part of its amount. *)
Lemma reduced_alt (D T a : Qc) :
  T <> 0%Qc -> (a - D * (a / T) = a * ((T - D) / T))%Qc.
Proof. intros HT. field. exact HT. Qed.

Lemma kept_part_nonneg (D T : Qc) : (0 < T)%Qc -> (D <= T)%Qc -> (0 <= (T - D) / T)%Qc.
Proof.
  intros HT HD. qc_unfold.
  apply Qle_shift_div_l; [exact HT | lra].
Qed.

Lemma kept_part_nonpos (D T : Qc) : (0 < T)%Qc -> (T <= D)%Qc -> ((T - D) / T <= 0)%Qc.
Proof.
  intros HT HD. qc_unfold.
  apply Qle_shift_div_r; [exact HT | lra].
Qed.

Lemma Qcmult_nonneg (a b : Qc) : (0 <= a)%Qc -> (0 <= b)%Qc -> (0 <= a * b)%Qc.
Proof.
  intros Ha Hb. qc_unfold. apply Qmult_le_0_compat; assumption.
Qed.

Lemma Qcmult_nonpos (a b : Qc) : (0 <= a)%Qc -> (b <= 0)%Qc -> (a * b <= 0)%Qc.
Proof.
  intros Ha Hb.
  assert (H : (0 <= a * - b)%Qc).
  { apply Qcmult_nonneg; [exact Ha|]. qc_unfold. lra. }
  replace (a * - b)%Qc with (- (a * b))%Qc in H by ring.
  revert H. generalize (a * b)%Qc. intros c H. qc_unfold. lra.
Qed.

Lemma discounted_within (D T a : Qc) :
  (0 < T)%Qc -> (D <= T)%Qc -> (0 <= a)%Qc ->
  discounted D T a = (a * ((T - D) / T))%Qc.
Proof.
  intros HT HD Ha. unfold discounted. cbv zeta.
  rewrite reduced_alt by (symmetry; apply Qclt_not_eq, HT).
  pose proof (Qcmult_nonneg _ _ Ha (kept_part_nonneg D T HT HD)) as Hx.
  case_bool_decide as Hpos; [reflexivity|].
  apply Qcnot_lt_le in Hpos. apply Qcle_antisym; assumption.
Qed.

Lemma discounted_beyond (D T a : Qc) :
  (0 < T)%Qc -> (T <= D)%Qc -> (0 <= a)%Qc -> discounted D T a = 0%Qc.
Proof.
  intros HT HD Ha. unfold discounted. cbv zeta.
  rewrite reduced_alt by (symmetry; apply Qclt_not_eq, HT).
  pose proof (Qcmult_nonpos _ _ Ha (kept_part_nonpos D T HT HD)) as Hx.
  rewrite bool_decide_eq_false_2; [reflexivity|].
  apply Qcle_not_lt, Hx.
Qed.

Lemma Qcsum_scaled (c : Qc) (l : list Qc) :
  Qcsum (map (fun a => a * c)%Qc l) = (Qcsum l * c)%Qc.
Proof. induction l as [|a l IH]; cbn [map Qcsum]; [ring | rewrite IH; ring]. Qed.

(** X18. For a bill whose amounts are not negative, with a positive
    subtotal T and a positive discount D: when D is at most T, the
    amounts after the discount, before rounding, add up to T - D, so the
    whole discount is shared out; when D is T or more, every item comes
    down to zero; and each saved amount is its amount after the discount
    moved by half a cent at most. *)
Theorem discount_is_shared_out (D : Qc) (billType : BillType) (payer0 : string)
    (pendingItems : list PendingItem) :
  Forall (fun item => (0 <= i_amount item)%Qc) pendingItems ->
  (0 < D)%Qc ->
  (0 < Qcsum (map i_amount pendingItems))%Qc ->
  ((D <= Qcsum (map i_amount pendingItems))%Qc ->
   nsum (map (finalAmount (Fin D) (totalBillAmount pendingItems)) pendingItems)
   = Fin (Qcsum (map i_amount pendingItems) - D)%Qc)
  /\ ((Qcsum (map i_amount pendingItems) <= D)%Qc ->
      Forall (fun item =>
                finalAmount (Fin D) (totalBillAmount pendingItems) item = Fin 0%Qc)
             pendingItems)
  /\ Forall2 (fun item saved =>
                exists x r,
                  finalAmount (Fin D) (totalBillAmount pendingItems) item = Fin x
                  /\ n_amount saved = Fin r
                  /\ (x - Q2Qc (1 # 200) <= r)%Qc /\ (r <= x + Q2Qc (1 # 200))%Qc)
             pendingItems
             (handleFinalSave (Fin D) billType payer0 pendingItems).
Proof.
  intros Hamounts HD HT. rewrite totalBillAmount_fin.
  set (T := Qcsum (map i_amount pendingItems)) in *.
  assert (HT0 : T <> 0%Qc) by (symmetry; apply Qclt_not_eq, HT).
  split; [|split].
  - intros HDT.
    rewrite (map_ext_in _ (fun item => Fin (i_amount item * ((T - D) / T))%Qc)).
    + rewrite <- (map_map (fun item => (i_amount item * ((T - D) / T))%Qc) Fin).
      rewrite nsum_fin. f_equal.
      rewrite <- (map_map i_amount (fun a => (a * ((T - D) / T))%Qc)).
      rewrite Qcsum_scaled. fold T. field. exact HT0.
    + intros item Hin. apply list_elem_of_In in Hin.
      rewrite Forall_forall in Hamounts.
      rewrite finalAmount_discounted by assumption.
      rewrite discounted_within by auto. reflexivity.
  - intros HTD. apply Forall_forall. intros item Hin.
    rewrite Forall_forall in Hamounts.
    rewrite finalAmount_discounted by assumption.
    rewrite discounted_beyond by auto. reflexivity.
  - unfold handleFinalSave. cbn [or_zero]. rewrite totalBillAmount_fin. fold T.
    apply Forall2_fmap_r, Forall_Forall2_diag, Forall_forall. intros item _.
    exists (discounted D T (i_amount item)), (round_cents (discounted D T (i_amount item))).
    split; [apply finalAmount_discounted; assumption|].
    split; [|apply round_cents_near].
    cbn [n_amount]. rewrite finalAmount_discounted by assumption. reflexivity.
Qed.

Lemma discount_is_shared_out_witness :
  nsum (map (finalAmount (Fin (Qc_of_Z 3)) (totalBillAmount [pending 4; pending 8]))
          [pending 4; pending 8])
  = Fin (Qcsum (map i_amount [pending 4; pending 8]) - Qc_of_Z 3)%Qc.
Proof.
  destruct (discount_is_shared_out (Qc_of_Z 3) shared "Me" [pending 4; pending 8])
    as [Hsum _].
  - repeat constructor; vm_compute; discriminate.
  - reflexivity.
  - reflexivity.
  - apply Hsum. vm_compute. discriminate.
Defined.

End Apportioning.

(** ** The warnings of the review step *)

Section Warnings.
Import Checks.




End Warnings.

(** ** The list of expenses *)

Section ListOrder.
Import JsObject ExpenseList.
Variable getTime : string -> Z.

(** Sorting a list that is already in order leaves it as it is. *)
Lemma sort_of_sorted {A : Type} (cmp : A -> A -> Z) (key : A -> Z) (l : list A) :
  (forall x y, cmp x y = key y - key x) ->
  StronglySorted Z.ge (map key l) -> sort cmp l = l.
Proof.
  intros Hcmp. unfold sort.
  induction l as [|x l IH]; cbn [map fold_right]; intros Hs; [reflexivity|].
  apply StronglySorted_inv in Hs as [Hs Hx]. rewrite (IH Hs).
  destruct l as [|y l]; [reflexivity|]. cbn [sort_insert].
  cbn [map] in Hx. apply Forall_cons in Hx as [Hxy _].
  destruct (0 <? cmp x y) eqn:Hc; [|reflexivity].
  apply Z.ltb_lt in Hc. rewrite Hcmp in Hc. lia.
Qed.

Lemma sorted_take (n : nat) (l : list Z) :
  StronglySorted Z.ge l -> StronglySorted Z.ge (take n l).
Proof.
  intros Hs. rewrite <- (take_drop n l) in Hs.
  apply StronglySorted_app_1_l in Hs. exact Hs.
Qed.

(** X20. The list of expenses shows all the expenses it is given, newest
    first, and leaves the array it was given in that order.  Showing
    the list again changes nothing; and once the tab "All Items" has been
    shown, the panel "Recent Additions", which takes the first five stored
    expenses, shows the five newest ones, while before that it shows the
    first five stored, whatever their dates. *)
Theorem list_is_newest_first (stored : list Expense) :
  rows getTime stored ≡ₚ stored
  /\ StronglySorted (fun a b => getTime (date b) <= getTime (date a))
       (rows getTime stored)
  /\ showAll getTime (fst (showAll getTime stored)) = showAll getTime stored
  /\ snd (showRecent getTime (fst (showAll getTime stored)))
     = take 5 (rows getTime stored)
  /\ snd (showRecent getTime stored) ≡ₚ take 5 stored
  /\ fst (showRecent getTime stored) = stored.
Proof.
  assert (Hcmp : forall x y, byDate getTime x y
                             = getTime (date y) - getTime (date x)) by reflexivity.
  pose proof (sort_sorted (byDate getTime) (fun e => getTime (date e)) Hcmp stored)
    as Hsorted.
  fold (rows getTime stored) in Hsorted.
  split; [apply sort_perm|]. split; [|split; [|split; [|split]]].
  - clear Hcmp. induction (rows getTime stored) as [|x l IH]; [constructor|].
    cbn [map] in Hsorted. apply StronglySorted_inv in Hsorted as [Hs Hx].
    constructor; [apply IH, Hs|].
    apply Forall_forall. intros y Hy. rewrite Forall_forall in Hx.
    apply (list_elem_of_fmap_2 (fun e => getTime (date e))) in Hy.
    specialize (Hx _ Hy). lia.
  - unfold showAll. cbn [fst]. unfold rows at 1 3.
    rewrite (sort_of_sorted _ _ _ Hcmp Hsorted). reflexivity.
  - unfold showRecent, showAll. cbn [fst snd]. unfold rows at 1.
    apply (sort_of_sorted _ _ _ Hcmp).
    change (map (fun e => getTime (date e)) (take 5 (rows getTime stored)))
      with ((fun e => getTime (date e)) <$> take 5 (rows getTime stored)).
    rewrite fmap_take. apply sorted_take. exact Hsorted.
  - unfold showRecent. cbn [snd]. apply sort_perm.
  - reflexivity.
Qed.

End ListOrder.

(** ** The choice of a store *)

Section StoreList.
Import JsObject StoreChoice.

Lemma ascii_compare_N (a b : ascii) :
  Ascii.compare a b = N.compare (N_of_ascii a) (N_of_ascii b).
Proof. reflexivity. Qed.

Lemma string_compare_cons (a b : ascii) (s t : string) :
  String.compare (String a s) (String b t)
  = match Ascii.compare a b with
    | Eq => String.compare s t
    | c => c
    end.
Proof. reflexivity. Qed.

Lemma string_compare_refl (s : string) : String.compare s s = Eq.
Proof.
  induction s as [|a s IH]; [reflexivity|].
  rewrite string_compare_cons, ascii_compare_N, N.compare_refl. exact IH.
Qed.

(** The order of the strings is transitive. *)
Lemma string_le_trans (s t u : string) :
  String.compare s t <> Gt -> String.compare t u <> Gt -> String.compare s u <> Gt.
Proof.
  revert t u. induction s as [|a s IH]; intros [|b t] [|c u]; cbn [String.compare];
    try congruence.
  rewrite !ascii_compare_N.
  destruct (N.compare_spec (N_of_ascii a) (N_of_ascii b)) as [Hab|Hab|Hab];
    destruct (N.compare_spec (N_of_ascii b) (N_of_ascii c)) as [Hbc|Hbc|Hbc];
    destruct (N.compare_spec (N_of_ascii a) (N_of_ascii c)) as [Hac|Hac|Hac];
    try congruence; try lia.
  apply IH.
Qed.

Lemma byName_pos (a b : string) : 0 < byName a b <-> String.compare a b = Gt.
Proof. unfold byName. destruct (String.compare a b); split; intros; first [lia | congruence]. Qed.

Lemma stores_sorted (l : list string) :
  StronglySorted (fun a b => String.compare a b <> Gt) (sort byName l).
Proof.
  apply (sort_rel byName (fun _ => True)).
  - intros x y _ _ Hc. apply byName_pos in Hc.
    rewrite String.compare_antisym, Hc. discriminate.
  - intros x y _ _ Hc. rewrite byName_pos in Hc. exact Hc.
  - apply string_le_trans.
  - apply Forall_forall. auto.
Qed.

Lemma firsts_NoDup (seen l : list string) : NoDup (firsts seen l).
Proof.
  revert seen. induction l as [|x l IH]; intros seen; cbn [firsts]; [constructor|].
  destruct (decide (x ∈ seen)); [apply IH|].
  constructor; [|apply IH].
  rewrite firsts_elem. intros [_ Hout]. apply Hout.
  apply elem_of_app. right. left.
Qed.

(** X21. For every expense list, the stores offered to the planner are
    the store names of the expenses that are not empty, each once, in the
    order of the strings; when no store is selected the first of them,
    the least in that order, is selected; a store already selected is
    kept; and the selection stays empty, which leaves the plan empty, only
    when no expense has a store name. *)
Theorem store_choice (expenses : list Expense) :
  NoDup (stores expenses)
  /\ StronglySorted (fun a b => String.compare a b <> Gt) (stores expenses)
  /\ (forall s, s ∈ stores expenses
                <-> s <> EmptyString /\ exists e, e ∈ expenses /\ store e = s)
  /\ Forall (fun s => String.compare (defaultSelection EmptyString (stores expenses)) s
                      <> Gt)
            (stores expenses)
  /\ (defaultSelection EmptyString (stores expenses) = EmptyString
      <-> Forall (fun e => store e = EmptyString) expenses)
  /\ (forall sel, sel <> EmptyString -> defaultSelection sel (stores expenses) = sel)
  /\ forall getTime now,
       Forall (fun e => store e = EmptyString) expenses ->
       StorePlanner.plan getTime (defaultSelection EmptyString (stores expenses))
         now expenses
       = {| StorePlanner.smartBuys := []; StorePlanner.otherNeeds := [] |}.
Proof.
  assert (Helem : forall s, s ∈ stores expenses
                    <-> s <> EmptyString /\ exists e, e ∈ expenses /\ store e = s).
  { intros s. unfold stores. rewrite (sort_perm byName), firsts_elem, list_elem_of_fmap.
    split.
    - intros [[e [-> He]] _]. apply list_elem_of_filter in He as [Hs He]. eauto.
    - intros [Hs [e [He <-]]]. split; [|apply not_elem_of_nil].
      exists e. split; [reflexivity|]. apply list_elem_of_filter. auto. }
  assert (Hempty : defaultSelection EmptyString (stores expenses) = EmptyString
                   <-> Forall (fun e => store e = EmptyString) expenses).
  { unfold defaultSelection. rewrite decide_True by reflexivity.
    destruct (stores expenses) as [|s l] eqn:Hst.
    - split; [intros _|reflexivity]. apply Forall_forall. intros e He.
      destruct (decide (store e = EmptyString)) as [Hs|Hs]; [exact Hs|].
      assert (Hin : store e ∈ @nil string) by (apply Helem; eauto).
      apply elem_of_nil in Hin. contradiction.
    - assert (Hin : s ∈ s :: l) by left.
      apply Helem in Hin as [Hs [e [He Hse]]]. split; [congruence|].
      intros Hall. rewrite Forall_forall in Hall. specialize (Hall e He). congruence. }
  pose proof (stores_sorted
                (firsts [] (map store (filter (fun e => store e <> EmptyString)
                                         expenses)))) as Hsorted.
  fold (stores expenses) in Hsorted.
  split; [|split; [exact Hsorted|split; [exact Helem|split; [|split; [exact Hempty|split]]]]].
  - unfold stores. rewrite (sort_perm byName). apply firsts_NoDup.
  - unfold defaultSelection. rewrite decide_True by reflexivity.
    destruct (stores expenses) as [|s l]; [constructor|].
    apply StronglySorted_inv in Hsorted as [_ Hs].
    constructor; [rewrite string_compare_refl; discriminate | exact Hs].
  - intros sel Hsel. unfold defaultSelection. rewrite decide_False by exact Hsel.
    reflexivity.
  - intros getTime now Hall. apply Hempty in Hall. rewrite Hall.
    unfold StorePlanner.plan. rewrite decide_True by reflexivity. reflexivity.
Qed.

End StoreList.

(** ** Editing an item *)

Section ItemEdits.
Import SplitAnalysis App ItemDetailModal.

Lemma step_ext (people : list string) (data : gmap string Entry) (e e' : Expense) :
  payer e' = payer e -> owner e' = owner e -> amount e' = amount e ->
  step people data e' = step people data e.
Proof.
  intros Hp Ho Ha. unfold step, splitAmount. rewrite Hp, Ho, Ha. reflexivity.
Qed.

(** The settlement looks at the payer, the owner and the amount only. *)
Lemma stats_ext (f : Expense -> Expense) (people : list string)
    (expenses : list Expense) :
  (forall e, payer (f e) = payer e /\ owner (f e) = owner e /\ amount (f e) = amount e) ->
  stats (map f expenses) people = stats expenses people.
Proof.
  intros Hf. unfold stats, collect. f_equal.
  generalize (init people).
  induction expenses as [|e l IH]; intros data; cbn [map fold_left]; [reflexivity|].
  destruct (Hf e) as (Hp & Ho & Ha). rewrite (step_ext people data e (f e) Hp Ho Ha).
  apply IH.
Qed.

Lemma paid_by_ext (f : Expense -> Expense) (k : string) (expenses : list Expense) :
  (forall e, payer (f e) = payer e /\ amount (f e) = amount e) ->
  paid_by k (map f expenses) = paid_by k expenses.
Proof.
  intros Hf. unfold paid_by.
  induction expenses as [|e l IH]; cbn [map]; [reflexivity|].
  destruct (Hf e) as [Hp Ha]. rewrite !filter_cons, Hp.
  destruct (decide (payer e = k)); cbn [map Qcsum]; rewrite ?Ha, IH; reflexivity.
Qed.

Lemma paid_lookup (expenses : list Expense) (people : list string) (k : string) :
  from_option b_paid (Fin 0%Qc) (stats expenses people !! k)
  = Fin (paid_by k expenses).
Proof.
  rewrite stats_lookup. unfold settlement.
  destruct (decide (known k expenses people)) as [Hk|Hk]; [reflexivity|].
  destruct (unknown_nothing k people expenses Hk) as [-> _]. reflexivity.
Qed.

(** X22. Editing one item from its detail view never changes the
    identifiers of the expenses, their number, their amounts, nor the
    total spent.  Renaming an item gives the new description to every
    expense with its identifier and leaves the whole settlement as it is.
    Toggling its owner gives every expense with that identifier the next
    owner of the cycle, leaves the owners of the others and all the
    payers as they are, and changes for nobody the amount paid. *)
Theorem item_edits_keep_payments (people : list string) (item : Expense)
    (editName : string) (expenses : list Expense) :
  (map id (handleSave item editName expenses) = map id expenses
   /\ map amount (handleSave item editName expenses) = map amount expenses
   /\ Dashboard.totalSpent (handleSave item editName expenses)
      = Dashboard.totalSpent expenses
   /\ Forall2 (fun e e' => description e'
                           = (if decide (id e = id item) then editName
                              else description e))
        expenses (handleSave item editName expenses)
   /\ forall participants,
        stats (handleSave item editName expenses) participants
        = stats expenses participants)
  /\ (map id (toggleOwner people item expenses) = map id expenses
      /\ map amount (toggleOwner people item expenses) = map amount expenses
      /\ map payer (toggleOwner people item expenses) = map payer expenses
      /\ Dashboard.totalSpent (toggleOwner people item expenses)
         = Dashboard.totalSpent expenses
      /\ Forall2 (fun e e' => owner e'
                              = (if decide (id e = id item)
                                 then Owners.nextOwner people (owner item)
                                 else owner e))
           expenses (toggleOwner people item expenses)
      /\ forall participants k,
           from_option b_paid (Fin 0%Qc)
             (stats (toggleOwner people item expenses) participants !! k)
           = from_option b_paid (Fin 0%Qc) (stats expenses participants !! k)).
Proof.
  unfold handleSave, toggleOwner, handleUpdateExpense.
  split.
  - split; [|split; [|split; [|split]]].
    + rewrite map_map. apply map_ext. intros e. case_decide; reflexivity.
    + rewrite map_map. apply map_ext. intros e. case_decide; reflexivity.
    + rewrite !totalSpent_fin, map_map. do 2 f_equal.
      apply map_ext. intros e. case_decide; reflexivity.
    + apply Forall2_fmap_r, Forall_Forall2_diag, Forall_forall. intros e _.
      unfold compose. cbv beta. destruct (decide (id e = id item)); reflexivity.
    + intros participants. apply stats_ext. intros e. case_decide; auto.
  - split; [|split; [|split; [|split; [|split]]]].
    + rewrite map_map. apply map_ext. intros e. case_decide; reflexivity.
    + rewrite map_map. apply map_ext. intros e. case_decide; reflexivity.
    + rewrite map_map. apply map_ext. intros e. case_decide; reflexivity.
    + rewrite !totalSpent_fin, map_map. do 2 f_equal.
      apply map_ext. intros e. case_decide; reflexivity.
    + apply Forall2_fmap_r, Forall_Forall2_diag, Forall_forall. intros e _.
      unfold compose. cbv beta. destruct (decide (id e = id item)); reflexivity.
    + intros participants k. rewrite !paid_lookup. f_equal.
      apply paid_by_ext. intros e. case_decide; auto.
Qed.

End ItemEdits.

(** ** Cases *)

Section FurtherCases.

(** A name that is no longer a participant goes to "Shared". *)
Lemma toggle_stays_in_cycle_witness :
  Owners.nextOwner App.initialPeople "Ghost" = "Shared".
Proof.
  destruct (toggle_stays_in_cycle App.initialPeople EmptyString [])
    as (_ & Hstale & _).
  apply Hstale. compute_done.
Defined.

(** A name typed with blanks around it is added trimmed. *)
Lemma people_stay_distinct_witness :
  trim " Ann "
  ∈ fold_left (fun ps n => App.handleAddPersonInline n ps) [" Ann "] App.initialPeople.
Proof.
  pose proof (people_stay_distinct [" Ann "]) as H. cbv zeta in H.
  destruct H as (_ & _ & _ & Hadded).
  apply Hadded; [left | vm_compute; discriminate].
Defined.

(** Making one bill personal leaves another bill as it was. *)
Lemma make_personal_witness :
  BillDetailModal.billItems "Y" "2023-10-27"
    (BillDetailModal.handleSetPersonal "X" "2023-10-26" GlobalSearch.visits)
  = BillDetailModal.billItems "Y" "2023-10-27" GlobalSearch.visits.
Proof.
  destruct (make_personal "X" "2023-10-26" GlobalSearch.visits)
    as (_ & _ & _ & _ & _ & Hother).
  apply Hother. intros [Hs _]. discriminate.
Defined.

Lemma make_shared_witness :
  BillDetailModal.billItems "Y" "2023-10-27"
    (BillDetailModal.handleSetShared "X" "2023-10-26" GlobalSearch.visits)
  = BillDetailModal.billItems "Y" "2023-10-27" GlobalSearch.visits.
Proof.
  destruct (make_shared "X" "2023-10-26" GlobalSearch.visits)
    as (_ & _ & _ & _ & _ & _ & Hother).
  apply Hother. intros [Hs _]. discriminate.
Defined.

(** Six stores: the one where the least was spent is left out of the
    chart. *)
Lemma top_stores_witness :
  Forall (fun kv =>
            (Dashboard.spentAt "A"
               [StorePlanner.bought "milk" "2024-01-01" "A" 1;
                StorePlanner.bought "milk" "2024-01-02" "B" 2;
                StorePlanner.bought "milk" "2024-01-03" "C" 3;
                StorePlanner.bought "milk" "2024-01-04" "D" 4;
                StorePlanner.bought "milk" "2024-01-05" "E" 5;
                StorePlanner.bought "milk" "2024-01-06" "F" 6]
             <= Dashboard.spentAt (fst kv)
                  [StorePlanner.bought "milk" "2024-01-01" "A" 1;
                   StorePlanner.bought "milk" "2024-01-02" "B" 2;
                   StorePlanner.bought "milk" "2024-01-03" "C" 3;
                   StorePlanner.bought "milk" "2024-01-04" "D" 4;
                   StorePlanner.bought "milk" "2024-01-05" "E" 5;
                   StorePlanner.bought "milk" "2024-01-06" "F" 6])%Qc)
    (Dashboard.storeData
       [StorePlanner.bought "milk" "2024-01-01" "A" 1;
        StorePlanner.bought "milk" "2024-01-02" "B" 2;
        StorePlanner.bought "milk" "2024-01-03" "C" 3;
        StorePlanner.bought "milk" "2024-01-04" "D" 4;
        StorePlanner.bought "milk" "2024-01-05" "E" 5;
        StorePlanner.bought "milk" "2024-01-06" "F" 6]).
Proof.
  destruct (top_stores
              [StorePlanner.bought "milk" "2024-01-01" "A" 1;
               StorePlanner.bought "milk" "2024-01-02" "B" 2;
               StorePlanner.bought "milk" "2024-01-03" "C" 3;
               StorePlanner.bought "milk" "2024-01-04" "D" 4;
               StorePlanner.bought "milk" "2024-01-05" "E" 5;
               StorePlanner.bought "milk" "2024-01-06" "F" 6])
    as (_ & _ & _ & _ & Hout).
  apply (Hout (StorePlanner.bought "milk" "2024-01-01" "A" 1)).
  - left.
  - vm_compute. intros Hin.
    repeat (apply elem_of_cons in Hin as [Hin|Hin]; [discriminate|]).
    apply elem_of_nil in Hin. exact Hin.
Defined.

(** A store that is selected stays selected. *)
Lemma store_choice_witness :
  StoreChoice.defaultSelection "Y" (StoreChoice.stores GlobalSearch.visits) = "Y".
Proof.
  destruct (store_choice GlobalSearch.visits) as (_ & _ & _ & _ & _ & Hkept & _).
  apply Hkept. discriminate.
Defined.

End FurtherCases.
